(** * Coffee-shop chatbot front end: order extraction, cart and chat room

    A shallow embedding of the TypeScript sources

    - [frontend/src/utils/orderExtractor.ts]  (module [OrderExtractor]),
    - the cart context provider                (module [CartContext]),
    - the products service                     (module [ProductsService]),
    - the order history page                   (module [OrderHistory]),
    - [frontend/src/config/runpodConfigs.ts]   (module [RunpodConfigs]),
    - the RunPod chatbot service               (module [ChatBotService]),
    - the chat room page                       (module [ChatRoom]),

    together with the properties of these functions.

    Conventions of the embedding.

    - Strings are Rocq [string]s read as ASCII text: [toLowerCase] maps
      [A]..[Z] to [a]..[z] and leaves every other character alone, white
      space is tab, line feed, vertical tab, form feed, carriage return and
      space.  Characters outside ASCII (the decorations of some reply
      templates) are carried around as opaque bytes.
    - JavaScript numbers are exact integers ([Z]): the embedding covers
      quantities and prices that are whole numbers, with [NaN] added where
      [Number(...)] can produce it.  An integer is printed in decimal
      ([pretty]), as JavaScript prints integers below 10^21, and
      [toFixed(2)] adds two zero decimals.
    - A value of type [any] is a [JsVal]; an exception is an explicit
      result ([None], a constructor of an error type, or the value thrown).
      An object that the code assigns to while another variable holds it
      is written back where it is held.
    - What the environment answers (HTTP requests, the database, the
      clock, [Math.random], the conversions of the runtime) is a parameter
      of the function that asks.
    - React state is passed explicitly; a state updater is a function on the
      previous state, applied in the order in which the code queues it. *)

From Stdlib Require Import ZArith Lia Ascii String Sorted Permutation.
From stdpp Require Import base strings pretty list sorting gmap.

Open Scope string_scope.
Open Scope list_scope.

(** ** JavaScript strings and values *)

Module Js.

Definition is_upper (c : ascii) : bool :=
  (65 <=? nat_of_ascii c)%nat && (nat_of_ascii c <=? 90)%nat.

Definition lower_char (c : ascii) : ascii :=
  if is_upper c then ascii_of_nat (nat_of_ascii c + 32) else c.

(** [s.toLowerCase()] *)
Fixpoint toLowerCase (s : string) : string :=
  match s with
  | EmptyString => EmptyString
  | String c s' => String (lower_char c) (toLowerCase s')
  end.

(** The characters matched by [\s] and removed by [trim]. *)
Definition is_whitespace (c : ascii) : bool :=
  let n := nat_of_ascii c in
  ((9 <=? n)%nat && (n <=? 13)%nat) || (n =? 32)%nat.

Fixpoint trimStart (s : string) : string :=
  match s with
  | EmptyString => EmptyString
  | String c s' => if is_whitespace c then trimStart s' else s
  end.

(** [trimEnd] keeps a character when it is not white space or when something
    that is kept follows it. *)
Fixpoint trimEnd (s : string) : string :=
  match s with
  | EmptyString => EmptyString
  | String c s' =>
      match trimEnd s' with
      | EmptyString => if is_whitespace c then EmptyString else String c EmptyString
      | r => String c r
      end
  end.

(** [s.trim()] *)
Definition trim (s : string) : string := trimEnd (trimStart s).

(** [s.startsWith(p)] *)
Fixpoint startsWith (s p : string) {struct p} : bool :=
  match p, s with
  | EmptyString, _ => true
  | String _ _, EmptyString => false
  | String a p', String b s' => Ascii.eqb a b && startsWith s' p'
  end.

(** [s.includes(p)]: [p] occurs in [s] at some position. *)
Fixpoint includes (s p : string) : bool :=
  startsWith s p ||
  match s with
  | EmptyString => false
  | String _ s' => includes s' p
  end.

(** [s.split(/\s+/)]: the pieces between maximal runs of white space.  A
    run at the start or at the end of [s] leaves an empty first or last
    piece, and the empty string splits into one empty piece.  [cur] is the
    piece being read (reversed), [in_ws] tells that the previous character
    was white space. *)
Fixpoint split_ws_from (cur : string) (in_ws : bool) (s : string) : list string :=
  match s with
  | EmptyString => [String.rev cur]
  | String c s' =>
      if is_whitespace c then
        if in_ws then split_ws_from cur true s'
        else String.rev cur :: split_ws_from EmptyString true s'
      else split_ws_from (String c cur) false s'
  end.

Definition split_ws (s : string) : list string := split_ws_from EmptyString false s.

(** [s.split(sep)] for a one-character separator. *)
Fixpoint split_char_from (sep : ascii) (cur : string) (s : string) : list string :=
  match s with
  | EmptyString => [String.rev cur]
  | String c s' =>
      if Ascii.eqb c sep then String.rev cur :: split_char_from sep EmptyString s'
      else split_char_from sep (String c cur) s'
  end.

Definition split_char (sep : ascii) (s : string) : list string :=
  split_char_from sep EmptyString s.

(** Numbers: an integer or [NaN]. *)
Inductive JsNumber : Type :=
| NaN
| Num (z : Z).

#[local] Set Warnings "-register-all".

(** Values of type [any], as [JSON.parse] builds them (no functions).  An
    object is the list of its properties. *)
Inductive JsVal : Type :=
| JUndefined
| JNull
| JBool (b : bool)
| JNumber (n : JsNumber)
| JString (s : string)
| JArray (items : list JsVal)
| JObject (fields : list (string * JsVal)).

(** Truthiness, as [if (v)], [v && ...], [v || ...] and [!v] test it. *)
Definition truthy (v : JsVal) : bool :=
  match v with
  | JUndefined | JNull => false
  | JBool b => b
  | JNumber NaN => false
  | JNumber (Num z) => negb (z =? 0)%Z
  | JString s => negb (String.eqb s "")
  | JArray _ | JObject _ => true
  end.

(** [a || b] *)
Definition or_else (a b : JsVal) : JsVal := if truthy a then a else b.

Fixpoint lookup_field (k : string) (fields : list (string * JsVal)) : JsVal :=
  match fields with
  | [] => JUndefined
  | (k', v) :: rest => if String.eqb k' k then v else lookup_field k rest
  end.

(** [v?.k]: [undefined] on [null] and [undefined].  The property names the
    sources read ([output], [memory], [order], [data], [item], [name],
    [price], [quantity], [status], [error]) are properties of no string,
    number, boolean or array, so only an object can answer. *)
Definition get_opt (v : JsVal) (k : string) : JsVal :=
  match v with
  | JObject fields => lookup_field k fields
  | _ => JUndefined
  end.

(** [v.k]: a [TypeError] ([None]) on [null] and [undefined]. *)
Definition get (v : JsVal) (k : string) : option JsVal :=
  match v with
  | JUndefined | JNull => None
  | _ => Some (get_opt v k)
  end.

End Js.

Notation "v ?. k" := (Js.get_opt v k) (at level 8, left associativity, format "v ?. k").

(** ** Records of [types/types.ts] and [orderExtractor.ts] *)

(** [Product], with the fields that [fetchProducts] fills. *)
Module Product.
Record t : Type := mk {
  id : string;
  name : string;
  description : string;
  price : Z;
  image : string;
  category : string
}.
End Product.

(** [OrderItem].  The interface gives [price] the type [number]; what
    [extractOrderFromMemory] stores there is [item.price || 0], any truthy
    value of the response. *)
Module OrderItem.
Record t : Type := mk {
  item : string;
  price : Js.JsVal;
  quantity : Js.JsNumber
}.
End OrderItem.

(** [CartItem] *)
Module CartItem.
Record t : Type := mk {
  product : Product.t;
  quantity : Z
}.
End CartItem.

(** ** [utils/orderExtractor.ts] *)

Module OrderExtractor.
Import Js.

Section Extract.

(** [Number(v)] on a value that is not a number (a string, a boolean, an
    array, an object): the conversion of the JavaScript runtime. *)
Variable ToNumber : JsVal -> JsNumber.

Definition Number (v : JsVal) : JsNumber :=
  match v with
  | JNumber n => n
  | _ => ToNumber v
  end.

(** The three places where an order array is looked for, in order.  An
    array is truthy, so [x && Array.isArray(x)] holds exactly of arrays. *)
Definition rawOrderItems (responseData : JsVal) : list JsVal :=
  match responseData?."output"?."memory"?."order" with
  | JArray l => l
  | _ =>
      match responseData?."memory"?."order" with
      | JArray l => l
      | _ =>
          match responseData?."data"?."memory"?."order" with
          | JArray l => l
          | _ => []
          end
      end
  end.

(** The object built by the function given to [map], before the filter
    has looked at it. *)
Record Normalized : Type := {
  n_item : JsVal;
  n_price : JsVal;
  n_quantity : JsNumber
}.

(** The function given to [map]; reading a property of [null] or
    [undefined] throws. *)
Definition normalize (item : JsVal) : option Normalized :=
  i ← get item "item";
  n ← get item "name";
  p ← get item "price";
  q ← get item "quantity";
  Some {| n_item := or_else i (or_else n (JString ""));
          n_price := or_else p (JNumber (Num 0));
          n_quantity := match q with
                        | JUndefined | JNull => Num 1
                        | _ => Number q
                        end |}.

(** The function given to [filter]: [item.item && item.item.trim() !== ''].
    A truthy value that is not a string has no [trim] to call. *)
Definition keep (o : Normalized) : option bool :=
  if truthy (n_item o) then
    match n_item o with
    | JString s => Some (negb (String.eqb (trim s) ""))
    | _ => None
    end
  else Some false.

Fixpoint filter_valid (l : list Normalized) : option (list OrderItem.t) :=
  match l with
  | [] => Some []
  | o :: rest =>
      match keep o, n_item o, filter_valid rest with
      | Some true, JString s, Some kept =>
          Some (OrderItem.mk s (n_price o) (n_quantity o) :: kept)
      | Some _, _, Some kept => Some kept
      | _, _, _ => None
      end
  end.

(** The body of the [try] block. *)
Definition extractOrderFromMemory_try (responseData : JsVal) : option (list OrderItem.t) :=
  normalizedOrderItems ← mapM normalize (rawOrderItems responseData);
  filter_valid normalizedOrderItems.

(** [extractOrderFromMemory]: the [catch] block returns the empty list. *)
Definition extractOrderFromMemory (responseData : JsVal) : list OrderItem.t :=
  match extractOrderFromMemory_try responseData with
  | Some items => items
  | None => []
  end.

End Extract.

(** The three tests of [matchOrderItemToProduct], on the lowercased and
    trimmed mention [itemName]. *)
Definition exact_match (itemName : string) (p : Product.t) : bool :=
  String.eqb (toLowerCase (Product.name p)) itemName.

Definition partial_match (itemName : string) (p : Product.t) : bool :=
  let productName := toLowerCase (Product.name p) in
  includes productName itemName || includes itemName productName.

Definition word_match (itemName : string) (p : Product.t) : bool :=
  let itemWords := split_ws itemName in
  let productWords := split_ws (toLowerCase (Product.name p)) in
  existsb (fun word =>
    existsb (fun pWord => includes pWord word || includes word pWord) productWords)
    itemWords.

(** [matchOrderItemToProduct]; [find] gives the first element that passes
    the test. *)
Definition matchOrderItemToProduct (orderItem : OrderItem.t) (products : list Product.t)
  : option Product.t :=
  let itemName := trim (toLowerCase (OrderItem.item orderItem)) in
  match find (exact_match itemName) products with
  | Some p => Some p
  | None =>
      match find (partial_match itemName) products with
      | Some p => Some p
      | None => find (word_match itemName) products
      end
  end.

Definition completionPhrases : list string :=
  [ "that will be all";
    "that's all";
    "that is all";
    "all done";
    "i'm done";
    "finish order";
    "complete order";
    "place order";
    "checkout";
    "proceed to checkout";
    "confirm order";
    "finalize order";
    "submit order";
    "buy now";
    "order now";
    "yes place order";
    "yes checkout";
    "yes that's all";
    "yes that will be all" ].

(** [isOrderCompletion] *)
Definition isOrderCompletion (message : string) : bool :=
  let lowerMessage := trim (toLowerCase message) in
  existsb (fun phrase => includes lowerMessage phrase) completionPhrases.

End OrderExtractor.

(** ** The cart context provider *)

Module CartContext.

Definition same_product (productId : string) (item : CartItem.t) : bool :=
  String.eqb (Product.id (CartItem.product item)) productId.

(** The state updater of [addToCart(product, quantity)] ([quantity] is 1
    when the caller leaves it out); the toast is not part of the state. *)
Definition addToCart (product : Product.t) (quantity : Z) (prevItems : list CartItem.t)
  : list CartItem.t :=
  match find (same_product (Product.id product)) prevItems with
  | Some existingItem =>
      let newQuantity := (CartItem.quantity existingItem + quantity)%Z in
      map (fun item =>
             if same_product (Product.id product) item
             then CartItem.mk (CartItem.product item) newQuantity
             else item)
          prevItems
  | None => prevItems ++ [CartItem.mk product quantity]
  end.

(** The state updater of [removeFromCart(productId)]. *)
Definition removeFromCart (productId : string) (prevItems : list CartItem.t)
  : list CartItem.t :=
  List.filter (fun item => negb (same_product productId item)) prevItems.

(** [updateQuantity(productId, quantity)] as a function on the cart. *)
Definition updateQuantity (productId : string) (quantity : Z) (prevItems : list CartItem.t)
  : list CartItem.t :=
  if (quantity <=? 0)%Z then removeFromCart productId prevItems
  else
    map (fun item =>
           if same_product productId item
           then CartItem.mk (CartItem.product item) quantity
           else item)
        prevItems.

(** The carts that [addToCart] builds from the empty cart of [useState([])]. *)
Inductive reachable : list CartItem.t -> Prop :=
| reachable_empty : reachable []
| reachable_add product quantity items :
    reachable items -> reachable (addToCart product quantity items).

(** [clearCart()]: [setCartItems([])]. *)
Definition clearCart (prevItems : list CartItem.t) : list CartItem.t := [].

(** [getTotalPrice()]: the terms are added from the left, in the order of
    the lines.  Prices are whole numbers here; JavaScript adds prices with
    decimals as floating-point numbers, so that a total depends on the
    order of its terms: the properties compare two totals only where both
    are made of the same additions in the same order. *)
Definition getTotalPrice (cartItems : list CartItem.t) : Z :=
  fold_left (fun total item =>
               (total + Product.price (CartItem.product item) * CartItem.quantity item)%Z)
            cartItems 0%Z.

(** [getTotalItems()] *)
Definition getTotalItems (cartItems : list CartItem.t) : Z :=
  fold_left (fun total item => (total + CartItem.quantity item)%Z) cartItems 0%Z.

End CartContext.

(** ** The products service: unique products *)

Module ProductsService.

(** [self.findIndex(test)]: the first index whose element passes, or -1. *)
Fixpoint findIndex {A} (test : A -> bool) (self : list A) : Z :=
  match self with
  | [] => (-1)%Z
  | x :: rest =>
      if test x then 0%Z
      else
        let i := findIndex test rest in
        if (i <? 0)%Z then (-1)%Z else (i + 1)%Z
  end.

(** [l.filter((x, index) => test(x, index))], for the elements of [l] from
    position [index] on. *)
Fixpoint filter_from {A} (test : A -> Z -> bool) (index : Z) (l : list A) : list A :=
  match l with
  | [] => []
  | x :: rest =>
      if test x index then x :: filter_from test (index + 1)%Z rest
      else filter_from test (index + 1)%Z rest
  end.

(** The last step of [fetchProducts]: a product is kept when its index is
    the first index of a product with its id. *)
Definition uniqueProducts (products : list Product.t) : list Product.t :=
  filter_from
    (fun product index =>
       (index =? findIndex (fun p => String.eqb (Product.id p) (Product.id product))
                           products)%Z)
    0%Z products.

End ProductsService.

(** ** The order history page: pages of orders *)

Module OrderHistory.

(** [l.slice(start, end)]: a negative index counts from the end, and both
    indices are brought into the bounds of the array. *)
Definition slice {A} (first last : Z) (l : list A) : list A :=
  let len := Z.of_nat (length l) in
  let k := if (first <? 0)%Z then Z.max (len + first) 0 else Z.min first len in
  let final := if (last <? 0)%Z then Z.max (len + last) 0 else Z.min last len in
  take (Z.to_nat (final - k)) (drop (Z.to_nat k) l).

Definition ordersPerPage : nat := 5.

(** [Math.ceil(orders.length / ordersPerPage)] *)
Definition totalPages {A} (orders : list A) : nat :=
  Nat.div (length orders + (ordersPerPage - 1)) ordersPerPage.

(** The orders shown on page [currentPage]. *)
Definition currentOrders {A} (orders : list A) (currentPage : nat) : list A :=
  let indexOfLastOrder := (Z.of_nat currentPage * Z.of_nat ordersPerPage)%Z in
  let indexOfFirstOrder := (indexOfLastOrder - Z.of_nat ordersPerPage)%Z in
  slice indexOfFirstOrder indexOfLastOrder orders.

End OrderHistory.

(** ** The configuration of the chatbot endpoint ([runpodConfigs.ts]) *)

Module RunpodConfigs.
Import Js.

Section Config.

(** [new URL(u).pathname] ([None] when the constructor throws) and
    [new URL(u).search]. *)
Variable URL_pathname : string -> option string.
Variable URL_search : string -> string.

(** [API_URL], from the variable [VITE_RUNPOD_API_URL] of the environment
    (the empty string when it is not set); [None] when the module throws. *)
Definition API_URL (rawApiUrl : string) : option string :=
  if negb (String.eqb rawApiUrl "") && includes rawApiUrl "api.runpod.ai" then
    match URL_pathname rawApiUrl with
    | Some pathname => Some ("/api/runpod" +:+ pathname +:+ URL_search rawApiUrl)
    | None => None
    end
  else Some rawApiUrl.

End Config.

End RunpodConfigs.

(** ** The chatbot service: polling a RunPod job *)

Module ChatBotService.
Import Js.

(** What [axios.get] does: it resolves with the body of the response, or
    rejects; [error.response?.status] is [None] when no response came
    (a time-out, a network error). *)
Inductive HttpResult : Type :=
| Resolved (data : JsVal)
| Rejected (status : option Z).

(** What [pollJobStatus] throws. *)
Inductive PollError : Type :=
| NoEndpointId                          (* Could not determine endpoint ID from API URL *)
| InvalidUrl                            (* [new URL(API_URL)] throws *)
| JobFailed (error : JsVal)             (* Job failed: error, or Unknown error *)
| NoStatusData                          (* the body is [null] or [undefined] *)
| RequestFailed (status : option Z)     (* the error of [axios.get], thrown again *)
| DidNotComplete (maxAttempts pollInterval : nat).

(** The result of a call, with the number of requests sent and of pauses
    of [pollInterval] milliseconds taken. *)
Record Polled : Type := {
  result : PollError + JsVal;
  requests : nat;
  waits : nat
}.

Section Poll.

(** The configured [API_URL], the path of an absolute URL ([new URL(u).pathname],
    [None] when the constructor throws), and the status endpoint: the
    answer to the [attempt]-th request on a URL. *)
Variable API_URL : string.
Variable URL_pathname : string -> option string.
Variable axios_get : string -> nat -> HttpResult.

(** [parts.findIndex(part => part === 'v2') + 1], with the test that
    follows it: the part after the first [v2], when there is one. *)
Fixpoint endpointId (parts : list string) : option string :=
  match parts with
  | [] => None
  | part :: rest =>
      if String.eqb part "v2" then head rest else endpointId rest
  end.

Definition statusUrl (jobId : string) : PollError + string :=
  if startsWith API_URL "/api/runpod" then
    match endpointId (split_char "/" API_URL) with
    | Some e => inr ("/api/runpod/v2/" +:+ e +:+ "/status/" +:+ jobId)
    | None => inl NoEndpointId
    end
  else
    match URL_pathname API_URL with
    | None => inl InvalidUrl
    | Some pathname =>
        match endpointId (split_char "/" pathname) with
        | Some e => inr ("https://api.runpod.ai/v2/" +:+ e +:+ "/status/" +:+ jobId)
        | None => inl NoEndpointId
        end
    end.

Definition is_status (statusData : JsVal) (s : string) : bool :=
  match statusData?."status" with
  | JString s' => String.eqb s' s
  | _ => false
  end.

(** [error.response?.status === 404] *)
Definition is_404 (status : option Z) : bool :=
  match status with
  | Some code => (code =? 404)%Z
  | None => false
  end.

(** The [for] loop, from iteration [attempt] on, with [remaining]
    iterations left ([attempt + remaining = maxAttempts]). *)
Fixpoint poll_loop (url : string) (maxAttempts pollInterval : nat)
    (remaining attempt : nat) : Polled :=
  match remaining with
  | O => {| result := inl (DidNotComplete maxAttempts pollInterval);
            requests := 0; waits := 0 |}
  | S remaining' =>
      let again :=
        let r := poll_loop url maxAttempts pollInterval remaining' (S attempt) in
        {| result := result r; requests := S (requests r); waits := S (waits r) |} in
      let stop (res : PollError + JsVal) :=
        {| result := res; requests := 1; waits := 0 |} in
      match axios_get url attempt with
      | Resolved statusData =>
          match get statusData "status" with
          | None => stop (inl NoStatusData)
          | Some _ =>
              if is_status statusData "COMPLETED" then stop (inr statusData)
              else if is_status statusData "FAILED" then
                stop (inl (JobFailed (or_else (statusData?."error") (JString "Unknown error"))))
              else again
          end
      | Rejected status =>
          if is_404 status then again else stop (inl (RequestFailed status))
      end
  end.

(** [pollJobStatus(jobId, maxAttempts = 150, pollInterval = 2000)] *)
Definition pollJobStatus (jobId : string) (maxAttempts pollInterval : nat) : Polled :=
  match statusUrl jobId with
  | inl e => {| result := inl e; requests := 0; waits := 0 |}
  | inr url => poll_loop url maxAttempts pollInterval maxAttempts 0
  end.

Definition default_maxAttempts : nat := 150.
Definition default_pollInterval : nat := 2000.

End Poll.

(** *** [callChatBotAPI] *)

(** [new Error(message)], and the [TypeError] of the runtime.  Neither has
    a [code], a [response] or a [request]. *)
Definition Error (message : string) : JsVal :=
  JObject [("name", JString "Error"); ("message", JString message)].

Definition TypeError (message : string) : JsVal :=
  JObject [("name", JString "TypeError"); ("message", JString message)].

Definition is_string (v : JsVal) (s : string) : bool :=
  match v with
  | JString s' => String.eqb s' s
  | _ => false
  end.

Definition is_number (v : JsVal) (n : Z) : bool :=
  match v with
  | JNumber (Num z) => (z =? n)%Z
  | _ => false
  end.

(** [v === undefined || v === null] *)
Definition is_nullish (v : JsVal) : bool :=
  match v with
  | JUndefined | JNull => true
  | _ => false
  end.

(** [x && Array.isArray(x) && x.length > 0] *)
Definition nonempty_array (v : JsVal) : bool :=
  match v with
  | JArray (_ :: _) => true
  | _ => false
  end.

Definition hasOrdersInMemory (responseData : JsVal) : bool :=
  nonempty_array (responseData?."output"?."memory"?."order")
  || nonempty_array (responseData?."memory"?."order")
  || nonempty_array (responseData?."data"?."memory"?."order").

(** [object.k = v] on the properties of an object. *)
Fixpoint set_field (k : string) (v : JsVal) (fields : list (string * JsVal))
  : list (string * JsVal) :=
  match fields with
  | [] => [(k, v)]
  | (k', v') :: rest =>
      if String.eqb k' k then (k', v) :: rest else (k', v') :: set_field k v rest
  end.

Definition set_prop (k : string) (v : JsVal) (object : JsVal) : JsVal :=
  match object with
  | JObject fields => JObject (set_field k v fields)
  | _ => object
  end.

(** Where [outputMessage] is taken from in the response data.  The message
    is that part of the response data, not a copy: an assignment to its
    [content] is seen in [responseData] too. *)
Inductive Place : Type :=
| Output          (* responseData.output *)
| OutputLast      (* responseData.output[responseData.output.length - 1] *)
| Self            (* responseData *)
| Data            (* responseData.data *)
| DataOutput.     (* responseData.data.output *)

Definition place (responseData : JsVal) : option Place :=
  if truthy responseData then
    if truthy (responseData?."output") then
      match responseData?."output" with
      | JArray [] => None
      | JArray _ => Some OutputLast
      | _ => Some Output
      end
    else if truthy (responseData?."role")
            && negb (is_nullish (responseData?."content")) then Some Self
    else if truthy (responseData?."data") then
      if truthy (responseData?."data"?."role")
         && truthy (responseData?."data"?."content") then Some Data
      else if truthy (responseData?."data"?."output") then Some DataOutput
      else None
    else None
  else None.

Definition read (p : Place) (responseData : JsVal) : JsVal :=
  match p with
  | Output => responseData?."output"
  | OutputLast =>
      match responseData?."output" with
      | JArray outputArray => List.last outputArray JUndefined
      | _ => JUndefined
      end
  | Self => responseData
  | Data => responseData?."data"
  | DataOutput => responseData?."data"?."output"
  end.

(** The response data once the message at [p] has become [message]. *)
Definition write (p : Place) (message : JsVal) (responseData : JsVal) : JsVal :=
  match p with
  | Output => set_prop "output" message responseData
  | OutputLast =>
      match responseData?."output" with
      | JArray outputArray =>
          set_prop "output" (JArray (removelast outputArray ++ [message])) responseData
      | _ => responseData
      end
  | Self => message
  | Data => set_prop "data" message responseData
  | DataOutput =>
      set_prop "data" (set_prop "output" message (responseData?."data")) responseData
  end.

Section Call.

(** The configuration (the empty string for a variable that is not set);
    [axios.post] on a conversation: the body of the response, or the value
    the promise is rejected with; [pollJobStatus(id)]: the status data it
    returns, or the value it throws; and from the runtime, the conversions
    to text and the messages of its [TypeError]s (for reading a property
    of [null] or [undefined], and for calling what is not a function). *)
Variable API_URL API_KEY : string.
Variable Conversation : Type.
Variable axios_post : Conversation -> JsVal + JsVal.
Variable poll : JsVal -> JsVal + JsVal.
Variable JSON_stringify : JsVal -> string.
Variable ToString : JsVal -> string.
Variable cannot_read : string -> string.
Variable not_a_function : string -> string.

(** From the response data to the result: the message and the full
    response, or the value thrown. *)
Definition respond (responseData : JsVal) : JsVal + (JsVal * JsVal) :=
  let invalid :=
    Error ("Invalid response format from API. Received: "
           +:+ JSON_stringify responseData) in
  match place responseData with
  | None => inl invalid
  | Some p =>
      let outputMessage := read p responseData in
      if negb (truthy outputMessage) then inl invalid
      else if negb (truthy (outputMessage?."role"))
              || is_nullish (outputMessage?."content")
      then inl (Error "Invalid message format in API response. Missing role or content.")
      else
        match outputMessage?."content" with
        | JString content =>
            if String.eqb (trim content) "" && negb (hasOrdersInMemory responseData)
            then
              let message := set_prop "content" (JString "") outputMessage in
              inr (message, write p message responseData)
            else inr (outputMessage, responseData)
        | _ => inl (TypeError (not_a_function "trim"))
        end
  end.

(** The [try] block. *)
Definition callChatBotAPI_try (messages : Conversation) : JsVal + (JsVal * JsVal) :=
  if String.eqb API_URL "" || String.eqb API_KEY "" then
    inl (Error "RunPod API URL or API Key is missing. Please check your .env file.")
  else
    match axios_post messages with
    | inl error => inl error
    | inr responseData =>
        match get responseData "status" with
        | None => inl (TypeError (cannot_read "status"))
        | Some _ =>
            if is_status responseData "IN_PROGRESS" && truthy (responseData?."id")
            then
              match poll (responseData?."id") with
              | inl error => inl error
              | inr statusData => respond statusData
              end
            else respond responseData
        end
    end.

(** The [catch] block: what is thrown in place of [error]. *)
Definition friendly (error : JsVal) : JsVal :=
  match get error "code" with
  | None => TypeError (cannot_read "code")
  | Some code =>
      if is_string code "ECONNABORTED" then
        Error "Request timeout. The API is taking longer than expected. This might happen if the server is starting up. Please try again in a moment."
      else if truthy (error?."response") then
        let status := error?."response"?."status" in
        let errorData := error?."response"?."data" in
        if is_number status 401 then
          Error "Authentication failed. Please check your API key."
        else if is_number status 404 then
          Error "API endpoint not found. Please check your API URL."
        else if is_number status 500 then
          Error "Server error. Please try again later."
        else if truthy (errorData?."error") then
          Error (ToString (errorData?."error"))
        else
          Error ("API error (" +:+ ToString status +:+ "): "
                 +:+ ToString (or_else (errorData?."message") (JString "Unknown error")))
      else if truthy (error?."request") then
        Error "Network error. Please check your internet connection."
      else error
  end.

(** [callChatBotAPI(messages)]: [inr (message, fullResponse)], or [inl] of
    the value thrown. *)
Definition callChatBotAPI (messages : Conversation) : JsVal + (JsVal * JsVal) :=
  match callChatBotAPI_try messages with
  | inl error => inl (friendly error)
  | inr result => inr result
  end.

End Call.

End ChatBotService.

(** ** The chat room page *)

Module ChatRoom.
Import Js OrderExtractor.

(** Equality of values, as the comparison of their JSON texts sees it. *)
Fixpoint val_eqb (a b : JsVal) {struct a} : bool :=
  match a, b with
  | JUndefined, JUndefined => true
  | JNull, JNull => true
  | JBool x, JBool y => Bool.eqb x y
  | JNumber NaN, JNumber NaN => true
  | JNumber (Num x), JNumber (Num y) => (x =? y)%Z
  | JString x, JString y => String.eqb x y
  | JArray xs, JArray ys =>
      (fix all2 (xs ys : list JsVal) {struct xs} : bool :=
         match xs, ys with
         | [], [] => true
         | x :: xs', y :: ys' => val_eqb x y && all2 xs' ys'
         | _, _ => false
         end) xs ys
  | JObject xs, JObject ys =>
      (fix all2 (xs ys : list (string * JsVal)) {struct xs} : bool :=
         match xs, ys with
         | [], [] => true
         | (k, x) :: xs', (k', y) :: ys' => String.eqb k k' && val_eqb x y && all2 xs' ys'
         | _, _ => false
         end) xs ys
  | _, _ => false
  end.

Definition number_eqb (a b : JsNumber) : bool :=
  match a, b with
  | NaN, NaN => true
  | Num x, Num y => (x =? y)%Z
  | _, _ => false
  end.

Definition orderItem_eqb (a b : OrderItem.t) : bool :=
  String.eqb (OrderItem.item a) (OrderItem.item b)
  && val_eqb (OrderItem.price a) (OrderItem.price b)
  && number_eqb (OrderItem.quantity a) (OrderItem.quantity b).

Fixpoint order_eqb (a b : list OrderItem.t) : bool :=
  match a, b with
  | [], [] => true
  | x :: a', y :: b' => orderItem_eqb x y && order_eqb a' b'
  | _, _ => false
  end.

(** The order hash.  [lastOrderHashRef.current] is the empty string at
    first and [JSON.stringify(normalizedItems)] afterwards; the text is
    kept as the list that it serialises, which [JSON.parse] gives back. *)
Definition OrderHash : Type := option (list OrderItem.t).

Definition hash_eqb (a b : OrderHash) : bool :=
  match a, b with
  | None, None => true
  | Some x, Some y => order_eqb x y
  | _, _ => false
  end.

(** [MessageInterface] *)
Record Message : Type := {
  role : string;
  content : string;
  memory : JsVal
}.

(** The state that the chat room reads and writes: its props and hooks,
    and the cart of the cart context. *)
Record State : Type := {
  messages : list Message;
  inputValue : string;
  isSending : bool;
  isTyping : bool;
  showPaymentModal : bool;
  products : list Product.t;
  processedOrders : gset string;
  lastOrderHashRef : OrderHash;
  cartItems : list CartItem.t;
  toasts : list JsVal
}.

(** [q && q > 0 ? q : 1] *)
Definition validQuantity (q : JsNumber) : Z :=
  match q with
  | Num z => if (0 <? z)%Z then z else 1%Z
  | NaN => 1%Z
  end.

(** The key of an order item: its lowercased name, a dash, its quantity. *)
Definition orderItemKey (item : OrderItem.t) : string :=
  let qty := validQuantity (OrderItem.quantity item) in
  toLowerCase (OrderItem.item item) +:+ "-" +:+ pretty qty.

(** The key of a cart addition: the product id, a dash, the quantity. *)
Definition productKey (product : Product.t) (quantity : Z) : string :=
  Product.id product +:+ "-" +:+ pretty quantity.

Definition normalizedItems (orderItems : list OrderItem.t) : list OrderItem.t :=
  map (fun item =>
         OrderItem.mk (OrderItem.item item) (OrderItem.price item)
                      (Num (validQuantity (OrderItem.quantity item))))
      orderItems.

(** The items of [orderItems] whose key is not a key of the previous order. *)
Definition newItems (previous : OrderHash) (orderItems : list OrderItem.t)
  : list OrderItem.t :=
  let previousOrderItems := match previous with Some l => l | None => [] end in
  let previousItemsSet : gset string := list_to_set (map orderItemKey previousOrderItems) in
  List.filter (fun item => bool_decide (orderItemKey item ∉ previousItemsSet)) orderItems.

(** One pass of the loop over the new items: the product and quantity to
    add with the key to record, when the item resolves to a product that
    is neither recorded nor in the cart with at least that quantity.  The
    tests read [processedOrders] and [cartItems] as they were when the
    page was last rendered. *)
Definition addition (st : State) (orderItem : OrderItem.t)
  : option (Product.t * Z * string) :=
  let quantity := validQuantity (OrderItem.quantity orderItem) in
  match matchOrderItemToProduct orderItem (products st) with
  | Some product =>
      let itemKey := productKey product quantity in
      let isAlreadyInCart :=
        existsb (fun item =>
                   CartContext.same_product (Product.id product) item
                   && (quantity <=? CartItem.quantity item)%Z)
                (cartItems st) in
      if negb (bool_decide (itemKey ∈ processedOrders st)) && negb isAlreadyInCart
      then Some (product, quantity, itemKey)
      else None
  | None => None
  end.

(** The queued updates [addToCart(product, quantity, true)] and
    [setProcessedOrders(prev => new Set(prev).add(itemKey))], applied. *)
Definition apply_additions (adds : list (Product.t * Z * string)) (st : State) : State :=
  {| messages := messages st;
     inputValue := inputValue st;
     isSending := isSending st;
     isTyping := isTyping st;
     showPaymentModal := showPaymentModal st;
     products := products st;
     processedOrders :=
       foldl (fun set a => set ∪ {[ a.2 ]}) (processedOrders st) adds;
     lastOrderHashRef := lastOrderHashRef st;
     cartItems :=
       foldl (fun cart a => CartContext.addToCart a.1.1 a.1.2 cart) (cartItems st) adds;
     toasts := toasts st |}.

Definition set_hash (h : OrderHash) (st : State) : State :=
  {| messages := messages st;
     inputValue := inputValue st;
     isSending := isSending st;
     isTyping := isTyping st;
     showPaymentModal := showPaymentModal st;
     products := products st;
     processedOrders := processedOrders st;
     lastOrderHashRef := h;
     cartItems := cartItems st;
     toasts := toasts st |}.

(** [processOrdersFromMemory(orderItems)] *)
Definition processOrdersFromMemory (orderItems : list OrderItem.t) (st : State) : State :=
  let orderHash : OrderHash := Some (normalizedItems orderItems) in
  if hash_eqb orderHash (lastOrderHashRef st) then st
  else
    let new := newItems (lastOrderHashRef st) orderItems in
    apply_additions (omap (addition st) new) (set_hash orderHash st).

(** *** Replies written by the page *)

Definition nl : string := String (ascii_of_nat 10) EmptyString.

(** [n.toFixed(2)] of an integer. *)
Definition toFixed2 (n : Z) : string := pretty n +:+ ".00".

(** [l[Math.floor(Math.random() * l.length)]], where [r] stands for the
    number drawn: any index below the length can come out. *)
Definition choose (l : list string) (r : nat) : string :=
  nth (Nat.modulo r (length l)) l "".

Definition isRecommendationQuery (message : string) : bool :=
  let lowerMessage := toLowerCase message in
  existsb (fun keyword => includes lowerMessage keyword)
    [ "recommend"; "popular"; "best"; "favorite"; "suggest"; "what do you have";
      "what's available"; "what can i get" ].

Definition isPriceQuery (message : string) : bool :=
  let lowerMessage := toLowerCase message in
  existsb (fun keyword => includes lowerMessage keyword)
    [ "price"; "cost"; "how much"; "what does"; "what's the price";
      "how much does"; "how much is" ].

Definition extractProductNameFromQuery (message : string) (products : list Product.t)
  : option Product.t :=
  let lowerMessage := toLowerCase message in
  find (fun product => includes lowerMessage (toLowerCase (Product.name product))) products.

(** [[...products].sort((a, b) => b.price - a.price)]: the sort of an array
    is stable, so the result is the one of inserting each product, from
    the last to the first, in front of the first product that is not
    dearer. *)
Fixpoint insert_by_price (a : Product.t) (sorted : list Product.t) : list Product.t :=
  match sorted with
  | [] => [a]
  | x :: rest =>
      if (Product.price a <? Product.price x)%Z then x :: insert_by_price a rest
      else a :: sorted
  end.

Fixpoint sort_by_price (products : list Product.t) : list Product.t :=
  match products with
  | [] => []
  | a :: rest => insert_by_price a (sort_by_price rest)
  end.

Definition popularItems (products : list Product.t) : list Product.t :=
  take 5 (sort_by_price products).

Definition format1 (popular : list Product.t) : string :=
  String.concat (nl +:+ nl)
    (imap (fun index item =>
             let description :=
               if String.eqb (Product.description item) "" then ""
               else " - " +:+ Product.description item in
             pretty (S index) +:+ ". **" +:+ Product.name item +:+ "** - $"
               +:+ toFixed2 (Product.price item) +:+ description)
          popular).

Definition format2 (popular : list Product.t) : string :=
  String.concat nl
    (map (fun item =>
            let description :=
              if String.eqb (Product.description item) "" then ""
              else nl +:+ "   " +:+ Product.description item in
            "• **" +:+ Product.name item +:+ "** | $"
              +:+ toFixed2 (Product.price item) +:+ description)
         popular).

Definition format3 (popular : list Product.t) : string :=
  String.concat nl
    (map (fun item =>
            let description :=
              if String.eqb (Product.description item) "" then ""
              else " (" +:+ Product.description item +:+ ")" in
            "→ " +:+ Product.name item +:+ description +:+ " — $"
              +:+ toFixed2 (Product.price item))
         popular).

Definition format4 (popular : list Product.t) : string :=
  String.concat (nl +:+ nl)
    (map (fun item =>
            "**" +:+ Product.name item +:+ "**" +:+ nl +:+ "   Price: $"
              +:+ toFixed2 (Product.price item)
              +:+ (if String.eqb (Product.description item) "" then ""
                   else nl +:+ "   " +:+ Product.description item))
         popular).

Definition format5 (popular : list Product.t) : string :=
  String.concat nl
    (imap (fun index item =>
             "[" +:+ pretty (S index) +:+ "] " +:+ Product.name item +:+ " — $"
               +:+ toFixed2 (Product.price item)
               +:+ (if String.eqb (Product.description item) "" then ""
                    else " | " +:+ Product.description item))
          popular).

Definition recommendationResponses (popular : list Product.t) : list string :=
  let format1 := format1 popular in
  let format2 := format2 popular in
  let format3 := format3 popular in
  let format4 := format4 popular in
  let format5 := format5 popular in
  [ "Here's what's hot right now:" +:+ nl +:+ nl +:+ format1 +:+ nl +:+ nl +:+ "Interested in any of these?";
    "Top picks from our menu:" +:+ nl +:+ nl +:+ format2 +:+ nl +:+ nl +:+ "Which one catches your eye?";
    "Customer favorites:" +:+ nl +:+ nl +:+ format3 +:+ nl +:+ nl +:+ "Want details on any of these?";
    "Our most popular items:" +:+ nl +:+ nl +:+ format4 +:+ nl +:+ nl +:+ "Curious about any of them?" +:+ nl +:+ nl +:+ "Feel free to ask!";
    "Best sellers:" +:+ nl +:+ nl +:+ format5 +:+ nl +:+ nl +:+ "What would you like to know?" +:+ nl +:+ nl +:+ "I'm here to help.";
    "🔥 Trending items:" +:+ nl +:+ nl +:+ format1 +:+ nl +:+ nl +:+ "Which one interests you?" +:+ nl +:+ nl +:+ "They're all great choices!";
    "Here are some top recommendations:" +:+ nl +:+ nl +:+ format2 +:+ nl +:+ nl +:+ "Feel free to ask me anything!" +:+ nl +:+ nl +:+ "I can give you more details on any item." +:+ nl +:+ nl +:+ "What catches your eye?";
    "Popular choices:" +:+ nl +:+ nl +:+ format3 +:+ nl +:+ nl +:+ "Want to learn more?" +:+ nl +:+ nl +:+ "Each one has something special." +:+ nl +:+ nl +:+ "Which one sounds good to you?";
    "Our regulars love these:" +:+ nl +:+ nl +:+ format4 +:+ nl +:+ nl +:+ "What questions do you have?" +:+ nl +:+ nl +:+ "I'm happy to help you decide." +:+ nl +:+ nl +:+ "Just let me know!";
    "Top-rated items:" +:+ nl +:+ nl +:+ format5 +:+ nl +:+ nl +:+ "I can tell you more about any of them." +:+ nl +:+ nl +:+ "These are consistently our bestsellers." +:+ nl +:+ nl +:+ "Customers keep coming back for these." +:+ nl +:+ nl +:+ "What would you like to know?";
    "⭐ Customer favorites:" +:+ nl +:+ nl +:+ format1 +:+ nl +:+ nl +:+ "Which one sounds good?" +:+ nl +:+ nl +:+ "They're all made with care." +:+ nl +:+ nl +:+ "Our team takes pride in each one." +:+ nl +:+ nl +:+ "Want to hear more about any?";
    "Here's what people are ordering:" +:+ nl +:+ nl +:+ format2 +:+ nl +:+ nl +:+ "Interested in any?" +:+ nl +:+ nl +:+ "These are the ones that get rave reviews." +:+ nl +:+ nl +:+ "People love the quality and taste." +:+ nl +:+ nl +:+ "What would you like to try?";
    "Most popular right now:" +:+ nl +:+ nl +:+ format3 +:+ nl +:+ nl +:+ "Want more info?" +:+ nl +:+ nl +:+ "I can share details about ingredients." +:+ nl +:+ nl +:+ "Or tell you about preparation methods." +:+ nl +:+ nl +:+ "Just ask!";
    "Best of the menu:" +:+ nl +:+ nl +:+ format4 +:+ nl +:+ nl +:+ "What would you like to know?" +:+ nl +:+ nl +:+ "Each item is carefully crafted." +:+ nl +:+ nl +:+ "We use premium ingredients." +:+ nl +:+ nl +:+ "Which one interests you most?";
    "Top sellers this week:" +:+ nl +:+ nl +:+ format5 +:+ nl +:+ nl +:+ "Curious about any?" +:+ nl +:+ nl +:+ "These have been flying off the shelves." +:+ nl +:+ nl +:+ "Our customers can't get enough." +:+ nl +:+ nl +:+ "Want to know why they're so popular?" ].

(** [generateRecommendationResponse(products)], with the number drawn. *)
Definition generateRecommendationResponse (products : list Product.t) (r : nat) : string :=
  match products with
  | [] => "I'm sorry, I don't have product information available at the moment. Please check back later!"
  | _ => choose (recommendationResponses (popularItems products)) r
  end.

Definition priceResponses (product : Product.t) : list string :=
  let name := Product.name product in
  let price := toFixed2 (Product.price product) in
  let description :=
    if String.eqb (Product.description product) "" then ""
    else " " +:+ Product.description product in
  [ "💰 **" +:+ name +:+ "**: $" +:+ price +:+ description +:+ nl +:+ nl +:+ "Add it to your cart?";
    "→ " +:+ name +:+ ": **$" +:+ price +:+ "**" +:+ description +:+ nl +:+ nl +:+ "Add to cart?";
    "$" +:+ price +:+ " — " +:+ name +:+ description +:+ nl +:+ nl +:+ "Should I add it?";
    "**" +:+ name +:+ "** = $" +:+ price +:+ description +:+ nl +:+ nl +:+ "Add it?";
    "Price: **$" +:+ price +:+ "**" +:+ description +:+ nl +:+ nl +:+ "That's for the " +:+ name +:+ "." +:+ nl +:+ nl +:+ "Should I add it?";
    "**" +:+ name +:+ "**" +:+ nl +:+ "$" +:+ price +:+ description +:+ nl +:+ nl +:+ "Want me to add it?";
    "**" +:+ name +:+ "**" +:+ nl +:+ "Price: $" +:+ price +:+ description +:+ nl +:+ nl +:+ "Add it?";
    "$" +:+ price +:+ " for " +:+ name +:+ "." +:+ description +:+ nl +:+ nl +:+ "Want me to add it?" +:+ nl +:+ nl +:+ "It's a great choice!";
    "That's $" +:+ price +:+ "." +:+ description +:+ nl +:+ nl +:+ "The " +:+ name +:+ " is a great choice!" +:+ nl +:+ nl +:+ "It's one of our popular items." +:+ nl +:+ nl +:+ "Add it to your cart?";
    "Price: $" +:+ price +:+ description +:+ nl +:+ nl +:+ "That's the " +:+ name +:+ "." +:+ nl +:+ nl +:+ "It's really good!" +:+ nl +:+ nl +:+ "Add it?";
    "$" +:+ price +:+ " — " +:+ name +:+ description +:+ nl +:+ nl +:+ "Should I add it to your cart?" +:+ nl +:+ nl +:+ "It's a customer favorite." +:+ nl +:+ nl +:+ "Want me to add it?";
    "**" +:+ name +:+ "**: $" +:+ price +:+ description +:+ nl +:+ nl +:+ "Add it?" +:+ nl +:+ nl +:+ "It's definitely worth trying." +:+ nl +:+ nl +:+ "Should I go ahead?";
    "$" +:+ price +:+ " for " +:+ name +:+ description +:+ nl +:+ nl +:+ "Want me to add it?" +:+ nl +:+ nl +:+ "This is one of our best sellers." +:+ nl +:+ nl +:+ "Customers love it!" +:+ nl +:+ nl +:+ "Should I add it to your cart?";
    "**" +:+ name +:+ "**" +:+ nl +:+ "→ $" +:+ price +:+ description +:+ nl +:+ nl +:+ "Add to cart?" +:+ nl +:+ nl +:+ "It's made with premium ingredients." +:+ nl +:+ nl +:+ "You'll love it!" +:+ nl +:+ nl +:+ "Want me to add it?";
    "That one's $" +:+ price +:+ "." +:+ description +:+ nl +:+ nl +:+ "The " +:+ name +:+ " is excellent." +:+ nl +:+ nl +:+ "It's a quality choice." +:+ nl +:+ nl +:+ "People keep coming back for it." +:+ nl +:+ nl +:+ "Add it?";
    "$" +:+ price +:+ " — " +:+ name +:+ description +:+ nl +:+ nl +:+ "Should I add it?" +:+ nl +:+ nl +:+ "This item is really popular." +:+ nl +:+ nl +:+ "It's prepared fresh daily." +:+ nl +:+ nl +:+ "Want me to add it to your order?" ].

(** [generatePriceResponse(product)], with the number drawn. *)
Definition generatePriceResponse (product : Product.t) (r : nat) : string :=
  choose (priceResponses product) r.

Definition orderResponses (product : Product.t) : list string :=
  let name := Product.name product in
  let price := toFixed2 (Product.price product) in
  let description :=
    if String.eqb (Product.description product) "" then ""
    else " " +:+ Product.description product in
  [ "✅ Added: **" +:+ name +:+ "**" +:+ nl +:+ "💰 Price: $" +:+ price +:+ description +:+ nl +:+ nl +:+ "Anything else?";
    "**" +:+ name +:+ "** → Cart ✓" +:+ nl +:+ "$" +:+ price +:+ description +:+ nl +:+ nl +:+ "What's next?";
    "✓ **" +:+ name +:+ "** added" +:+ nl +:+ "$" +:+ price +:+ description +:+ nl +:+ nl +:+ "Need anything else?";
    "**" +:+ name +:+ "** ✓" +:+ nl +:+ "$" +:+ price +:+ description +:+ nl +:+ nl +:+ "Anything else?";
    "Done! " +:+ name +:+ " is in your cart." +:+ description +:+ nl +:+ nl +:+ "Price: $" +:+ price +:+ nl +:+ nl +:+ "Add more?";
    "Cart updated:" +:+ nl +:+ "• " +:+ name +:+ " - $" +:+ price +:+ description +:+ nl +:+ nl +:+ "What else?";
    "Added to cart:" +:+ nl +:+ "**" +:+ name +:+ "** | $" +:+ price +:+ description +:+ nl +:+ nl +:+ "More items?";
    "✅ " +:+ name +:+ nl +:+ "$" +:+ price +:+ description +:+ nl +:+ nl +:+ "Add more?";
    "**" +:+ name +:+ "** is now in your cart." +:+ description +:+ nl +:+ nl +:+ "Price: $" +:+ price +:+ nl +:+ nl +:+ "What else?" +:+ nl +:+ nl +:+ "Ready for checkout when you are!";
    "→ " +:+ name +:+ " added" +:+ nl +:+ "$" +:+ price +:+ description +:+ nl +:+ nl +:+ "Need anything else?" +:+ nl +:+ nl +:+ "Your order is taking shape!";
    "Cart: **" +:+ name +:+ "** ✓" +:+ nl +:+ "$" +:+ price +:+ description +:+ nl +:+ nl +:+ "What's next?" +:+ nl +:+ nl +:+ "I'm here if you need more!";
    "**" +:+ name +:+ "** → $" +:+ price +:+ description +:+ nl +:+ nl +:+ "Added! More items?" +:+ nl +:+ nl +:+ "Your cart is looking good!";
    "✓ Added **" +:+ name +:+ "**" +:+ nl +:+ "$" +:+ price +:+ description +:+ nl +:+ nl +:+ "Anything else?" +:+ nl +:+ nl +:+ "It's all set and ready." +:+ nl +:+ nl +:+ "What would you like next?";
    "**" +:+ name +:+ "** is ready!" +:+ description +:+ nl +:+ nl +:+ "$" +:+ price +:+ nl +:+ nl +:+ "Add more?" +:+ nl +:+ nl +:+ "Your selection is perfect." +:+ nl +:+ nl +:+ "Need anything else?";
    "Cart updated with **" +:+ name +:+ "**" +:+ nl +:+ "$" +:+ price +:+ description +:+ nl +:+ nl +:+ "What else?" +:+ nl +:+ nl +:+ "It's ready for checkout." +:+ nl +:+ nl +:+ "Want to add more items?";
    "**" +:+ name +:+ "** ✓ $" +:+ price +:+ description +:+ nl +:+ nl +:+ "Need anything else?" +:+ nl +:+ nl +:+ "Your cart is ready." +:+ nl +:+ nl +:+ "I can help you add more." +:+ nl +:+ nl +:+ "What would you like?" ].

Definition followUpQuestions : list string :=
  [ "Would you like to add anything else?";
    "Is there anything else you'd like to add?";
    "Would you like to add more items?";
    "Anything else you'd like to order?";
    "Can I help you with anything else?";
    "Would you like to add something more?";
    "Is there anything else I can add for you?";
    "Would you like to add any other items?" ].

(** [itemNames.slice(0, -1).join(', ') + ' and ' + itemNames[itemNames.length - 1]],
    or the only name. *)
Definition itemText (itemNames : list string) : string :=
  match itemNames with
  | [only] => only
  | _ =>
      String.concat ", " (removelast itemNames) +:+ " and " +:+ List.last itemNames ""
  end.

(** The confirmations of added items; [rnd k] is the number drawn by the
    [k]-th call of [Math.random()]: one call for the follow-up question of
    each variation, in order. *)
Definition messageVariations (itemNames : list string) (rnd : nat -> nat) : list string :=
  let itemText := itemText itemNames in
  let one := Nat.eqb (length itemNames) 1 in
  let followUp k := choose followUpQuestions (rnd k) in
  [ "Great! I've added " +:+ itemText +:+ " to your cart. " +:+ (if one then "It" else "They") +:+ " " +:+ (if one then "is" else "are") +:+ " ready for checkout! " +:+ followUp 0;
    "Perfect! " +:+ itemText +:+ " " +:+ (if one then "has" else "have") +:+ " been added to your cart. " +:+ (if one then "It" else "They") +:+ " " +:+ (if one then "is" else "are") +:+ " ready when you are! " +:+ followUp 1;
    "Excellent choice! I've added " +:+ itemText +:+ " to your cart. " +:+ (if one then "It" else "They") +:+ " " +:+ (if one then "is" else "are") +:+ " waiting for you! " +:+ followUp 2;
    "Wonderful! " +:+ itemText +:+ " " +:+ (if one then "is" else "are") +:+ " now in your cart. Ready to proceed to checkout! " +:+ followUp 3;
    "Awesome! I've placed " +:+ itemText +:+ " in your cart. " +:+ (if one then "It" else "They") +:+ " " +:+ (if one then "is" else "are") +:+ " all set! " +:+ followUp 4;
    "Perfect selection! " +:+ itemText +:+ " " +:+ (if one then "has" else "have") +:+ " been added. Your cart is ready! " +:+ followUp 5;
    "Great pick! I've added " +:+ itemText +:+ " to your cart. " +:+ (if one then "It" else "They") +:+ " " +:+ (if one then "looks" else "look") +:+ " delicious! " +:+ followUp 6;
    "Fantastic! " +:+ itemText +:+ " " +:+ (if one then "is" else "are") +:+ " now in your cart. " +:+ (if one then "It" else "They") +:+ " " +:+ (if one then "is" else "are") +:+ " ready for checkout! " +:+ followUp 7;
    "Lovely choice! I've added " +:+ itemText +:+ " to your cart. " +:+ (if one then "It" else "They") +:+ " " +:+ (if one then "is" else "are") +:+ " waiting for you! " +:+ followUp 8;
    "Superb! " +:+ itemText +:+ " " +:+ (if one then "has" else "have") +:+ " been added to your cart. Ready to complete your order! " +:+ followUp 9;
    "Nice selection! I've placed " +:+ itemText +:+ " in your cart. " +:+ (if one then "It" else "They") +:+ " " +:+ (if one then "is" else "are") +:+ " all set for checkout! " +:+ followUp 10;
    "Wonderful! " +:+ itemText +:+ " " +:+ (if one then "is" else "are") +:+ " now in your cart. " +:+ (if one then "It" else "They") +:+ " " +:+ (if one then "is" else "are") +:+ " ready when you are! " +:+ followUp 11 ].

(** *** Sending a message *)

(** What [callChatBotAPI] does: it throws, or it resolves with the
    assistant's message and the whole response. *)
Inductive ApiResult : Type :=
| ApiThrows (err : JsVal)
| ApiReturns (message : Message) (fullResponse : JsVal).

(** [!content || content.trim() === ''] *)
Definition blank (content : string) : bool := String.eqb (trim content) "".

Definition userMessage (message : string) : Message :=
  {| role := "user"; content := message; memory := JUndefined |}.

Definition errorResponse : Message :=
  {| role := "assistant";
     content := "I'm sorry, I encountered an error. Please try again or check your connection.";
     memory := JUndefined |}.

Definition fallbackContent : string :=
  "I'm sorry, I didn't catch that. Could you please elaborate?".

Definition pricingQuestion : string :=
  "I'd be happy to help you with pricing! Could you please specify which item you'd like to know the price of?".

Definition with_content (m : Message) (c : string) : Message :=
  {| role := role m; content := c; memory := memory m |}.

(** The names of the new items that resolve to a product whose key is not
    recorded: [matchedItems.map(m => m.name)]. *)
Definition matchedNames (st : State) (new : list OrderItem.t) : list string :=
  omap (fun item =>
          let qty := validQuantity (OrderItem.quantity item) in
          match matchOrderItemToProduct item (products st) with
          | Some product =>
              if bool_decide (productKey product qty ∈ processedOrders st) then None
              else Some (Product.name product)
          | None => None
          end)
       new.

(** The first part of the [try] block: the order items of the response are
    processed, and an empty reply is replaced by a confirmation when some
    new item resolved to a product. *)
Definition handleOrders (rnd : nat -> nat) (orderItems : list OrderItem.t)
    (content : string) (st : State) : string * State :=
  match orderItems with
  | [] => (content, st)
  | _ =>
      let new := newItems (lastOrderHashRef st) orderItems in
      let st' := processOrdersFromMemory orderItems st in
      match new with
      | [] => (content, st')
      | _ =>
          let itemNames := matchedNames st new in
          match itemNames with
          | [] => (content, st')
          | _ =>
              if blank content
              then (choose (messageVariations itemNames rnd) (rnd 12), st')
              else (content, st')
          end
      end
  end.

(** The second part, entered when the reply is empty and the response
    carried no order item: the reply to a recommendation query, to a price
    query or to an order request, and the final fallback. *)
Definition handleInformational (rnd : nat -> nat) (message : string)
    (content : string) (st : State) : string * State :=
  if isRecommendationQuery message then
    (generateRecommendationResponse (products st) (rnd 0), st)
  else if isPriceQuery message then
    match extractProductNameFromQuery message (products st) with
    | Some product => (generatePriceResponse product (rnd 0), st)
    | None => (pricingQuestion, st)
    end
  else
    let ordered :=
      if includes (toLowerCase message) "order"
         || includes (toLowerCase message) "add"
         || includes (toLowerCase message) "like to"
      then
        match extractProductNameFromQuery message (products st) with
        | Some product =>
            let itemKey := productKey product 1 in
            let isAlreadyInCart :=
              existsb (fun item =>
                         CartContext.same_product (Product.id product) item
                         && (1 <=? CartItem.quantity item)%Z)
                      (cartItems st) in
            let isAlreadyProcessed := bool_decide (itemKey ∈ processedOrders st) in
            if negb isAlreadyInCart && negb isAlreadyProcessed
            then Some (choose (orderResponses product) (rnd 0),
                       apply_additions [(product, 1%Z, itemKey)] st)
            else None
        | None => None
        end
      else None in
    match ordered with
    | Some handled => handled
    | None => if blank content then (fallbackContent, st) else (content, st)
    end.

(** [(messageText || inputValue).trim()] *)
Definition messageToSend (messageText : option string) (st : State) : string :=
  trim (match messageText with
        | Some text => if String.eqb text "" then inputValue st else text
        | None => inputValue st
        end).

Section Send.

Variable ToNumber : JsVal -> JsNumber.

(** [handleSendMessage(messageText)]: the state once the handler and the
    timers that it starts have run.  [callChatBotAPI] answers the
    conversation sent to it; [rnd k] is the number drawn by the [k]-th call
    of [Math.random()]. *)
Definition handleSendMessage (messageText : option string)
    (callChatBotAPI : list Message -> ApiResult) (rnd : nat -> nat)
    (st : State) : State :=
  let message := messageToSend messageText st in
  if String.eqb message "" || isSending st then st
  else if isOrderCompletion message then
    match cartItems st with
    | [] =>
        {| messages := messages st;
           inputValue := inputValue st;
           isSending := isSending st;
           isTyping := isTyping st;
           showPaymentModal := showPaymentModal st;
           products := products st;
           processedOrders := processedOrders st;
           lastOrderHashRef := lastOrderHashRef st;
           cartItems := cartItems st;
           toasts := toasts st ++ [JString "Your cart is empty. Please add items first."] |}
    | _ =>
        {| messages := messages st ++ [userMessage message];
           inputValue := "";
           isSending := false;
           isTyping := false;
           showPaymentModal := true;
           products := products st;
           processedOrders := processedOrders st;
           lastOrderHashRef := lastOrderHashRef st;
           cartItems := cartItems st;
           toasts := toasts st |}
    end
  else
    let InputMessages := messages st ++ [userMessage message] in
    match callChatBotAPI InputMessages with
    | ApiThrows err =>
        (* in the [catch] block [err.response] is read of the value thrown:
           of [null] and [undefined] this throws again, after
           [setIsTyping(false)], and only the [finally] block follows *)
        match get err "response" with
        | None =>
            {| messages := InputMessages;
               inputValue := "";
               isSending := false;
               isTyping := false;
               showPaymentModal := showPaymentModal st;
               products := products st;
               processedOrders := processedOrders st;
               lastOrderHashRef := lastOrderHashRef st;
               cartItems := cartItems st;
               toasts := toasts st |}
        | Some response =>
            let errorMessage :=
              or_else (response?."data"?."error")
                      (or_else (err?."message") (JString "Error sending message")) in
            {| messages := InputMessages ++ [errorResponse];
               inputValue := "";
               isSending := false;
               isTyping := false;
               showPaymentModal := showPaymentModal st;
               products := products st;
               processedOrders := processedOrders st;
               lastOrderHashRef := lastOrderHashRef st;
               cartItems := cartItems st;
               toasts := toasts st ++ [errorMessage] |}
        end
    | ApiReturns resposnseMessage fullResponse =>
        let orderItems :=
          if truthy fullResponse then extractOrderFromMemory ToNumber fullResponse else [] in
        let hasOrders := negb (Nat.eqb (length orderItems) 0) in
        let '(content1, st1) := handleOrders rnd orderItems (content resposnseMessage) st in
        let '(content2, st2) :=
          if blank content1 && negb hasOrders
          then handleInformational rnd message content1 st1
          else (content1, st1) in
        {| messages := InputMessages ++ [with_content resposnseMessage content2];
           inputValue := "";
           isSending := false;
           isTyping := false;
           showPaymentModal := showPaymentModal st2;
           products := products st2;
           processedOrders := processedOrders st2;
           lastOrderHashRef := lastOrderHashRef st2;
           cartItems := cartItems st2;
           toasts := toasts st2 |}
    end.

End Send.

(** *** Placing the order *)

(** The signed-in user of [useAuth()]; the empty string stands for a
    name or an address that is [null]. *)
Module User.
Record t : Type := mk {
  uid : string;
  displayName : string;
  email : string
}.
End User.

(** The order written to the database. *)
Module Order.
Record Line : Type := mkLine {
  productId : string;
  productName : string;
  price : Z;
  quantity : Z;
  image : string
}.
Record t : Type := mk {
  userId : string;
  items : list Line;
  total : Z;
  status : string;
  createdAt : string;
  customerName : string;
  customerEmail : string;
  paymentStatus : string
}.
End Order.

(** [s || default] on strings *)
Definition or_text (s default : string) : string :=
  if String.eqb s "" then default else s.

Section Payment.

(** The user, the text of [new Date().toISOString()], whether
    [push(ordersRef, orderData)] resolves, and the text of
    [(total * 1.1).toFixed(2)]. *)
Variable currentUser : option User.t.
Variable now : string.
Variable push : Order.t -> bool.
Variable totalText : Z -> string.

Definition orderData (st : State) : Order.t :=
  {| Order.userId :=
       match currentUser with
       | Some user => or_text (User.uid user) "anonymous"
       | None => "anonymous"
       end;
     Order.items :=
       map (fun item =>
              {| Order.productId := Product.id (CartItem.product item);
                 Order.productName := Product.name (CartItem.product item);
                 Order.price := Product.price (CartItem.product item);
                 Order.quantity := CartItem.quantity item;
                 Order.image := or_text (Product.image (CartItem.product item)) "" |})
           (cartItems st);
     Order.total := CartContext.getTotalPrice (cartItems st);
     Order.status := "preparing";
     Order.createdAt := now;
     Order.customerName :=
       match currentUser with
       | Some user => or_text (User.displayName user) "Guest"
       | None => "Guest"
       end;
     Order.customerEmail :=
       match currentUser with
       | Some user => or_text (User.email user) ""
       | None => ""
       end;
     Order.paymentStatus := "paid" |}.

(** [handlePlaceOrder()]: its result and the state it leaves. *)
Definition handlePlaceOrder (st : State) : bool * State :=
  match cartItems st with
  | [] => (false, st)
  | _ =>
      if push (orderData st) then
        (true,
         {| messages := messages st;
            inputValue := inputValue st;
            isSending := isSending st;
            isTyping := isTyping st;
            showPaymentModal := showPaymentModal st;
            products := products st;
            processedOrders := processedOrders st;
            lastOrderHashRef := lastOrderHashRef st;
            cartItems := CartContext.clearCart (cartItems st);
            toasts := toasts st |})
      else
        (false,
         {| messages := messages st;
            inputValue := inputValue st;
            isSending := isSending st;
            isTyping := isTyping st;
            showPaymentModal := showPaymentModal st;
            products := products st;
            processedOrders := processedOrders st;
            lastOrderHashRef := lastOrderHashRef st;
            cartItems := cartItems st;
            toasts := toasts st ++ [JString "Failed to place order. Please try again."] |})
  end.

Definition successMessages (totalBeforeOrder : Z) : list string :=
  let amount := "$" +:+ totalText totalBeforeOrder in
  [ "Order placed successfully! Your order total is " +:+ amount
      +:+ ". Thank you for choosing Merry's Way Coffee Shop!";
    "Perfect! Your order has been confirmed. Total: " +:+ amount
      +:+ ". We'll have it ready for you soon!";
    "Great choice! Order confirmed for " +:+ amount
      +:+ ". Thanks for visiting Merry's Way Coffee Shop!";
    "Your order is on the way! Total: " +:+ amount
      +:+ ". We appreciate your business!";
    "Order successfully placed! Your total is " +:+ amount
      +:+ ". Thank you for choosing us!" ].

(** [handlePaymentSuccess()]: the state once the handler and its timer of
    two seconds have run. *)
Definition handlePaymentSuccess (rnd : nat -> nat) (st : State) : State :=
  let totalBeforeOrder := CartContext.getTotalPrice (cartItems st) in
  let '(success, st1) := handlePlaceOrder st in
  if success then
    let botResponse :=
      {| role := "assistant";
         content := choose (successMessages totalBeforeOrder) (rnd 0%nat);
         memory := JUndefined |} in
    {| messages := messages st1 ++ [botResponse];
       inputValue := inputValue st1;
       isSending := isSending st1;
       isTyping := false;
       showPaymentModal := false;
       products := products st1;
       processedOrders := ∅;
       lastOrderHashRef := None;
       cartItems := cartItems st1;
       toasts := toasts st1 |}
  else
    {| messages := messages st1;
       inputValue := inputValue st1;
       isSending := isSending st1;
       isTyping := false;
       showPaymentModal := false;
       products := products st1;
       processedOrders := processedOrders st1;
       lastOrderHashRef := lastOrderHashRef st1;
       cartItems := cartItems st1;
       toasts := toasts st1 |}.

End Payment.

End ChatRoom.

(** * Vocabulary of the properties *)

Import Js OrderExtractor CartContext ChatBotService ChatRoom.

(** ** Notions *)



Definition is_array (v : JsVal) : bool :=
  match v with
  | JArray _ => true
  | _ => false
  end.

(** The product ids of the lines of a cart, in order. *)
Definition product_ids (items : list CartItem.t) : list string :=
  map (fun item => Product.id (CartItem.product item)) items.

(** An answer after which the loop pauses and asks again: a body whose
    status is neither [COMPLETED] nor [FAILED], or the HTTP error 404. *)
Definition pending (r : HttpResult) : bool :=
  match r with
  | Resolved statusData =>
      match get statusData "status" with
      | None => false
      | Some _ => negb (is_status statusData "COMPLETED")
                  && negb (is_status statusData "FAILED")
      end
  | Rejected status => is_404 status
  end.

(** [a] is ranked before [b]: its price is not lower. *)
Definition dearer_first (a b : Product.t) : Prop :=
  (Product.price b <= Product.price a)%Z.

(** A message is sent to the chatbot when it is not empty, no message is
    being sent and it is not a completion phrase. *)
Definition reaches_api (messageText : option string) (st : State) : Prop :=
  messageToSend messageText st <> ""
  /\ isSending st = false
  /\ isOrderCompletion (messageToSend messageText st) = false.

(** The first, and the last, character of a text is not white space. *)
Definition first_char_nonspace (p : string) : bool :=
  match p with
  | EmptyString => false
  | String c _ => negb (is_whitespace c)
  end.

Fixpoint last_char_nonspace (p : string) : bool :=
  match p with
  | EmptyString => false
  | String c EmptyString => negb (is_whitespace c)
  | String _ p' => last_char_nonspace p'
  end.

(** The products of [l] whose id is neither in [seen] nor the id of a
    product that comes before them in [l]. *)
Fixpoint firsts_after (seen : list string) (l : list Product.t) : list Product.t :=
  match l with
  | [] => []
  | x :: rest =>
      (if existsb (String.eqb (Product.id x)) seen then [] else [x])
      ++ firsts_after (seen ++ [Product.id x]) rest
  end.

(** Every line of the cart [old] is still in [new], at the same place and
    for the same product, with a quantity that is not lower. *)
Definition cart_grows (old new : list CartItem.t) : Prop :=
  forall i line,
    nth_error old i = Some line ->
    exists line',
      nth_error new i = Some line'
      /\ CartItem.product line' = CartItem.product line
      /\ (CartItem.quantity line <= CartItem.quantity line')%Z.

(** Every entry made by [entry] shows the name of its item and, after it,
    its price in dollars. *)
Definition shows_item (entry : nat -> Product.t -> string) : Prop :=
  forall index item,
    exists before between after,
      entry index item
      = before +:+ Product.name item +:+ between
          +:+ "$" +:+ toFixed2 (Product.price item) +:+ after.

(** ** Sample data *)

Definition iced_latte : Product.t :=
  Product.mk "p1" "Iced Latte" "" 5 "" "coffee".

Definition vanilla_latte : Product.t :=
  Product.mk "p2" "Vanilla Latte" "" 6 "" "coffee".


Definition latte : Product.t := Product.mk "p7" "Latte" "" 4 "" "coffee".

Definition mocha : Product.t := Product.mk "p8" "Mocha" "" 5 "" "coffee".

Definition menu : list Product.t := [latte; mocha].

(** The chat room when the page is opened, with the menu loaded. *)
Definition initial : State :=
  {| messages := [];
     inputValue := "";
     isSending := false;
     isTyping := false;
     showPaymentModal := false;
     products := menu;
     processedOrders := ∅;
     lastOrderHashRef := None;
     cartItems := [];
     toasts := [] |}.

Definition in_progress : JsVal :=
  JObject [("id", JString "job-1"); ("status", JString "IN_PROGRESS")].

Definition completed : JsVal :=
  JObject [("id", JString "job-1"); ("status", JString "COMPLETED");
           ("output", JObject [("role", JString "assistant");
                               ("content", JString "Hello!")])].

(** A status endpoint where the job is completed at the third request. *)
Definition third_time (url : string) (attempt : nat) : HttpResult :=
  if String.eqb url "/api/runpod/v2/7npr6mt7n0ulbp/status/job-1" then
    if (attempt <? 2)%nat then Resolved in_progress else Resolved completed
  else Rejected (Some 500%Z).

(** The response of the order agent to a request for an item that is not
    on the menu: no text, and the item in the order of the memory. *)
Definition unknown_item_memory : JsVal :=
  JObject [("agent", JString "order_taking_agent");
           ("order", JArray [JObject [("item", JString "Unicorn Frappe");
                                      ("quantity", JNumber (Num 1));
                                      ("price", JNumber (Num 0))]])].

Definition unknown_item_response : ApiResult :=
  ApiReturns
    {| role := "assistant"; content := ""; memory := unknown_item_memory |}
    (JObject [("output", JObject [("role", JString "assistant");
                                  ("content", JString "");
                                  ("memory", unknown_item_memory)])]).

Definition unknown_item_request : string := "I would like a unicorn frappe".

(** A response without text. *)
Definition no_text (fullResponse : JsVal) : ApiResult :=
  ApiReturns {| role := "assistant"; content := ""; memory := JUndefined |} fullResponse.

(** The order of two lattes, as the memory of a response carries it. *)
Definition two_lattes : list OrderItem.t :=
  [OrderItem.mk "latte" (JNumber (Num 0)) (Num 2)].

(** A status endpoint that answers 404 once and 503 from then on. *)
Definition server_down (url : string) (attempt : nat) : HttpResult :=
  if (attempt <? 1)%nat then Rejected (Some 404%Z) else Rejected (Some 503%Z).

(** A response whose message is made of spaces, with no order. *)
Definition blank_answer : JsVal :=
  JObject [("output", JObject [("role", JString "assistant");
                               ("content", JString "  ")])].

(** The body of a response for a job that waits in the queue. *)
Definition queued : JsVal :=
  JObject [("id", JString "job-1"); ("status", JString "IN_QUEUE")].

(** The error of [axios] for a response with status 401. *)
Definition unauthorized : JsVal :=
  JObject [("message", JString "Request failed with status code 401");
           ("code", JString "ERR_BAD_REQUEST");
           ("request", JObject []);
           ("response", JObject [("status", JNumber (Num 401));
                                 ("data", JObject [("error", JString "bad key")])])].

(** A runtime for the samples: no text for a value, no text in a [TypeError]. *)
Definition no_words {A : Type} (_ : A) : string := "".

(** * Properties *)

(** ** Strings *)

Lemma append_assoc (a b c : string) : (a +:+ b) +:+ c = a +:+ b +:+ c.
Proof.
  induction a as [|x a IH]; [reflexivity|].
  change (String x ((a +:+ b) +:+ c) = String x (a +:+ b +:+ c)). f_equal. exact IH.
Qed.

Lemma append_empty_r (s : string) : s +:+ "" = s.
Proof.
  induction s as [|a s IH]; [reflexivity|].
  change (String a (s +:+ "") = String a s). f_equal. exact IH.
Qed.

Lemma startsWith_spec (s p : string) :
  startsWith s p = true <-> exists post, s = p +:+ post.
Proof.
  revert s. induction p as [|a p IH]; intros s; simpl.
  - split; [intros _; exists s; reflexivity | intros _; reflexivity].
  - destruct s as [|b s]; simpl.
    + split; [discriminate | intros [post H]; discriminate].
    + rewrite andb_true_iff, IH. split.
      * intros [Hab [post ->]]. apply Ascii.eqb_eq in Hab as ->.
        exists post. reflexivity.
      * intros [post H]. injection H as -> ->.
        split; [apply Ascii.eqb_refl | exists post; reflexivity].
Qed.

Lemma includes_spec (s p : string) :
  includes s p = true <-> exists pre post, s = pre +:+ p +:+ post.
Proof.
  induction s as [|c s IH].
  - simpl. rewrite orb_false_r, startsWith_spec. split.
    + intros [post H]. exists "", post. exact H.
    + intros (pre & post & H). destruct pre; [|discriminate].
      exists post. exact H.
  - cbn [includes]. rewrite orb_true_iff, IH, startsWith_spec. split.
    + intros [[post H] | (pre & post & H)].
      * exists "", post. exact H.
      * exists (String c pre), post. simpl. rewrite H. reflexivity.
    + intros (pre & post & H). destruct pre as [|c' pre].
      * left. exists post. exact H.
      * right. injection H as -> ->. exists pre, post. reflexivity.
Qed.

Lemma trimEnd_nonspace (c : ascii) (s : string) :
  is_whitespace c = false -> trimEnd (String c s) <> "".
Proof.
  intros Hc. simpl. destruct (trimEnd s); [rewrite Hc|]; discriminate.
Qed.

(** A text that starts with a character that is not white space keeps it
    when trimmed. *)
Lemma trim_nonspace (c : ascii) (s : string) :
  is_whitespace c = false -> trim (String c s) <> "".
Proof.
  intros Hc. unfold trim. simpl. rewrite Hc. apply trimEnd_nonspace, Hc.
Qed.

Lemma trim_empty : trim "" = "".
Proof. reflexivity. Qed.

Example trim_toLowerCase_sample : trim (toLowerCase "  Iced LATTE ") = "iced latte".
Proof. reflexivity. Qed.

Example split_ws_sample : split_ws " iced  latte " = [""; "iced"; "latte"; ""].
Proof. reflexivity. Qed.

Example includes_sample :
  includes "vanilla latte" "latte" = true /\ includes "latte" "vanilla latte" = false.
Proof. split; reflexivity. Qed.

(** ** Lists *)

Lemma find_Some_split {A} (f : A -> bool) (l : list A) (x : A) :
  find f l = Some x ->
  exists before after,
    l = before ++ x :: after /\ f x = true /\ Forall (fun y => f y = false) before.
Proof.
  induction l as [|a l IH]; simpl; [discriminate|].
  destruct (f a) eqn:Hfa.
  - intros [= ->]. exists [], l. auto.
  - intros H. destruct (IH H) as (before & after & -> & Hx & Hb).
    exists (a :: before), after. auto.
Qed.

Lemma find_None_all {A} (f : A -> bool) (l : list A) :
  find f l = None <-> Forall (fun y => f y = false) l.
Proof.
  induction l as [|a l IH]; simpl.
  - split; auto.
  - destruct (f a) eqn:Hfa.
    + split; [discriminate | intros H; inversion H; congruence].
    + rewrite IH. split; [auto | intros H; inversion H; assumption].
Qed.

(** ** [utils/orderExtractor.ts] *)












Lemma normalize_quantity (ToNumber : JsVal -> JsNumber) (item : JsVal) (n : Normalized) :
  normalize ToNumber item = Some n ->
  n_quantity n = match item?."quantity" with
                 | JUndefined | JNull => Num 1
                 | q => Number ToNumber q
                 end.
Proof.
  unfold normalize, get.
  destruct item; simpl; try discriminate; intros [= <-]; simpl; try reflexivity.
  destruct (lookup_field "quantity" fields); reflexivity.
Qed.

(** C4: the quantity of a raw order item, as the chat room uses it, is 1
    when the item has no quantity ([undefined] or [null]) or a quantity that
    is zero or negative, and the stated quantity when that is positive. *)
Theorem quantity_defaults_to_one (ToNumber : JsVal -> JsNumber) (item : JsVal)
    (n : Normalized) (Hn : normalize ToNumber item = Some n) :
  let quantity := validQuantity (n_quantity n) in
  (item?."quantity" = JUndefined \/ item?."quantity" = JNull -> quantity = 1%Z)
  /\ (forall z : Z, item?."quantity" = JNumber (Num z) ->
        ((z <= 0)%Z -> quantity = 1%Z) /\ ((0 < z)%Z -> quantity = z)).
Proof.
  cbv zeta. rewrite (normalize_quantity _ _ _ Hn). split.
  - intros [-> | ->]; reflexivity.
  - intros z ->. simpl. split; intros Hz.
    + destruct (0 <? z)%Z eqn:E; [apply Z.ltb_lt in E; lia | reflexivity].
    + destruct (0 <? z)%Z eqn:E; [reflexivity | apply Z.ltb_ge in E; lia].
Qed.

Lemma quantity_defaults_to_one_witness :
  exists n,
    normalize (fun _ => NaN)
      (JObject [("item", JString "Latte"); ("quantity", JNumber (Num (-2)))]) = Some n
    /\ validQuantity (n_quantity n) = 1%Z.
Proof.
  eexists. split; [reflexivity|].
  pose proof (quantity_defaults_to_one (fun _ => NaN)
                (JObject [("item", JString "Latte"); ("quantity", JNumber (Num (-2)))])
                _ eq_refl) as [_ H].
  destruct (H (-2)%Z eq_refl) as [H1 _]. apply H1. lia.
Defined.

(** C5: whether a message completes the order is decided by the text of
    the message alone: [isOrderCompletion] holds exactly when the
    lowercased and trimmed message contains one of the fixed phrases.  The
    function reads nothing else (no reply of the model, no state), so two
    runs on the same text agree. *)
Theorem isOrderCompletion_iff_phrase (message : string) :
  isOrderCompletion message = true <->
  exists phrase pre post,
    In phrase completionPhrases /\
    trim (toLowerCase message) = pre +:+ phrase +:+ post.
Proof.
  unfold isOrderCompletion. rewrite existsb_exists. split.
  - intros (phrase & Hin & Hinc).
    apply includes_spec in Hinc as (pre & post & H). eauto 6.
  - intros (phrase & pre & post & Hin & H).
    exists phrase. split; [exact Hin|]. apply includes_spec. eauto.
Qed.

Example isOrderCompletion_sample :
  isOrderCompletion "  OK, That's ALL thanks " = true
  /\ isOrderCompletion "a latte please" = false.
Proof. split; reflexivity. Qed.

Example extractOrderFromMemory_sample :
  extractOrderFromMemory (fun _ => NaN)
    (JObject [("output", JObject [("memory", unknown_item_memory)])])
    = [OrderItem.mk "Unicorn Frappe" (JNumber (Num 0)) (Num 1)]
  /\ extractOrderFromMemory (fun _ => NaN)
       (JObject [("memory", JObject [("order", JArray [JNull])])]) = []
  /\ extractOrderFromMemory (fun _ => NaN)
       (JObject [("data", JObject [("memory", JObject [("order",
          JArray [JObject [("name", JString "  ")]; JObject [("name", JString "Mocha")]])])])])
     = [OrderItem.mk "Mocha" (JNumber (Num 0)) (Num 1)].
Proof. repeat split; reflexivity. Qed.

Lemma filter_valid_names (l : list Normalized) (items : list OrderItem.t) :
  filter_valid l = Some items ->
  Forall (fun o => OrderItem.item o <> "" /\ trim (OrderItem.item o) <> "") items.
Proof.
  revert items. induction l as [|o rest IH]; simpl; intros items.
  - intros [= <-]. constructor.
  - unfold keep. destruct (truthy (n_item o)) eqn:Ht.
    + destruct (n_item o) as [| | | |s| |] eqn:Hi; try discriminate.
      destruct (filter_valid rest) as [kept|]; [|destruct (negb _); discriminate].
      destruct (String.eqb (trim s) "") eqn:Hs; simpl; intros [= <-].
      * apply IH. reflexivity.
      * constructor; [|apply IH; reflexivity].
        apply String.eqb_neq in Hs. simpl. split; [|exact Hs].
        intros ->. apply Hs. reflexivity.
    + destruct (filter_valid rest) as [kept|]; [|destruct (n_item o); discriminate].
      intros H. apply IH.
      destruct (n_item o); injection H as <-; reflexivity.
Qed.

(** C9: [extractOrderFromMemory] is defined on every value (an exception
    raised inside it ends in the empty list), every item that it returns
    has a name that is not empty and not made of white space only, and a
    value that holds an array at none of the three places gives the empty
    list. *)
Theorem extractOrderFromMemory_sanitizes (ToNumber : JsVal -> JsNumber)
    (responseData : JsVal) :
  Forall (fun o => OrderItem.item o <> "" /\ trim (OrderItem.item o) <> "")
         (extractOrderFromMemory ToNumber responseData)
  /\ (is_array (responseData?."output"?."memory"?."order") = false ->
      is_array (responseData?."memory"?."order") = false ->
      is_array (responseData?."data"?."memory"?."order") = false ->
      extractOrderFromMemory ToNumber responseData = []).
Proof.
  split.
  - unfold extractOrderFromMemory, extractOrderFromMemory_try.
    destruct (mapM _ _) as [l|]; simpl; [|constructor].
    destruct (filter_valid l) as [items|] eqn:Hf; [|constructor].
    apply (filter_valid_names _ _ Hf).
  - intros H1 H2 H3.
    unfold extractOrderFromMemory, extractOrderFromMemory_try, rawOrderItems.
    destruct (responseData?."output"?."memory"?."order"); try discriminate;
      destruct (responseData?."memory"?."order"); try discriminate;
      destruct (responseData?."data"?."memory"?."order"); try discriminate;
      reflexivity.
Qed.

Lemma extractOrderFromMemory_sanitizes_witness :
  extractOrderFromMemory (fun _ => NaN) (JString "no order here") = [].
Proof.
  apply (extractOrderFromMemory_sanitizes (fun _ => NaN) (JString "no order here"));
    reflexivity.
Defined.

(** ** The cart *)

Lemma same_product_eq (productId : string) (item : CartItem.t) :
  same_product productId item = true <-> Product.id (CartItem.product item) = productId.
Proof. unfold same_product. apply String.eqb_eq. Qed.

Lemma find_none_not_in (productId : string) (items : list CartItem.t) :
  find (same_product productId) items = None -> ~ In productId (product_ids items).
Proof.
  rewrite find_None_all. induction 1 as [|item items Hitem _ IH]; simpl.
  - tauto.
  - intros [H | H]; [|exact (IH H)].
    apply same_product_eq in H. congruence.
Qed.

Lemma NoDup_snoc {A} (l : list A) (x : A) :
  List.NoDup l -> ~ In x l -> List.NoDup (l ++ [x]).
Proof.
  induction 1 as [|y l Hy Hl IH]; simpl; intros Hx.
  - constructor; [tauto | constructor].
  - constructor.
    + rewrite in_app_iff. simpl. intros [H | [H | []]]; [tauto | subst; tauto].
    + apply IH. tauto.
Qed.

Lemma NoDup_ids_same_line (items : list CartItem.t) (a b : CartItem.t) :
  List.NoDup (product_ids items) -> In a items -> In b items ->
  Product.id (CartItem.product a) = Product.id (CartItem.product b) -> a = b.
Proof.
  induction items as [|x items IH]; simpl; [tauto|].
  intros Hnd. inversion Hnd as [|? ? Hx Hnd']; subst.
  intros [-> | Ha] [-> | Hb] Heq; auto.
  - exfalso. apply Hx. rewrite Heq. apply in_map_iff. eauto.
  - exfalso. apply Hx. rewrite <- Heq. apply in_map_iff. eauto.
Qed.

Lemma bump_ids (productId : string) (q : Z) (items : list CartItem.t) :
  product_ids
    (map (fun item => if same_product productId item
                      then CartItem.mk (CartItem.product item) q else item) items)
  = product_ids items.
Proof.
  unfold product_ids. rewrite map_map. apply map_ext.
  intros item. destruct (same_product productId item); reflexivity.
Qed.

Lemma addToCart_NoDup (product : Product.t) (quantity : Z) (items : list CartItem.t) :
  List.NoDup (product_ids items) -> List.NoDup (product_ids (addToCart product quantity items)).
Proof.
  intros Hnd. unfold addToCart.
  destruct (find _ items) as [existing|] eqn:Hf.
  - rewrite bump_ids. exact Hnd.
  - unfold product_ids. rewrite map_app. simpl.
    apply NoDup_snoc; [exact Hnd | apply find_none_not_in, Hf].
Qed.

(** C3: when the cart has a line of the product, [addToCart] creates no
    line: the lines keep their products and their order, the lines of
    other products are unchanged, and the quantity of the product's line
    is the quantity of the product's first line plus the quantity added;
    in a cart with one line per product that is the line's own quantity
    plus the quantity added.  When the cart has no line of the product,
    exactly one line is appended.  Every cart built by [addToCart] from
    the empty cart has at most one line per product id. *)
Theorem addToCart_one_line_per_product (product : Product.t) (quantity : Z)
    (items : list CartItem.t) :
  (forall existing,
     find (same_product (Product.id product)) items = Some existing ->
     product_ids (addToCart product quantity items) = product_ids items
     /\ (forall i line,
           nth_error items i = Some line ->
           nth_error (addToCart product quantity items) i =
             Some (if same_product (Product.id product) line
                   then CartItem.mk (CartItem.product line)
                                    (CartItem.quantity existing + quantity)
                   else line))
     /\ (List.NoDup (product_ids items) ->
         forall i line,
           nth_error items i = Some line ->
           same_product (Product.id product) line = true ->
           nth_error (addToCart product quantity items) i =
             Some (CartItem.mk (CartItem.product line)
                               (CartItem.quantity line + quantity))))
  /\ (find (same_product (Product.id product)) items = None ->
      addToCart product quantity items = items ++ [CartItem.mk product quantity])
  /\ (reachable items -> List.NoDup (product_ids items)).
Proof.
  split; [|split].
  - intros existing Hf. unfold addToCart. rewrite Hf.
    assert (Hpos : forall i line,
               nth_error items i = Some line ->
               nth_error
                 (map (fun item =>
                         if same_product (Product.id product) item
                         then CartItem.mk (CartItem.product item)
                                          (CartItem.quantity existing + quantity)
                         else item) items) i =
               Some (if same_product (Product.id product) line
                     then CartItem.mk (CartItem.product line)
                                      (CartItem.quantity existing + quantity)
                     else line)).
    { intros i line Hi. rewrite nth_error_map, Hi. reflexivity. }
    split; [apply bump_ids | split; [exact Hpos|]].
    intros Hnd i line Hi Hsame. rewrite (Hpos i line Hi), Hsame.
    destruct (find_Some_split _ _ _ Hf) as (before & after & Hitems & He & _).
    assert (line = existing) as ->; [|reflexivity].
    apply (NoDup_ids_same_line items); auto.
    + apply (nth_error_In _ _ Hi).
    + rewrite Hitems. apply in_or_app. right. left. reflexivity.
    + apply same_product_eq in Hsame, He. congruence.
  - intros Hf. unfold addToCart. rewrite Hf. reflexivity.
  - clear product quantity. induction 1 as [|product quantity items _ IH].
    + constructor.
    + apply addToCart_NoDup, IH.
Qed.

Lemma addToCart_one_line_per_product_witness :
  nth_error (addToCart latte 2 [CartItem.mk mocha 1; CartItem.mk latte 3]) 1
    = Some (CartItem.mk latte 5)
  /\ addToCart latte 2 [CartItem.mk mocha 1] = [CartItem.mk mocha 1; CartItem.mk latte 2]
  /\ List.NoDup (product_ids (addToCart latte 2 (addToCart mocha 1 []))).
Proof.
  split; [|split].
  - destruct (addToCart_one_line_per_product latte 2
                [CartItem.mk mocha 1; CartItem.mk latte 3]) as [H _].
    destruct (H (CartItem.mk latte 3) eq_refl) as (_ & _ & H3).
    apply (H3 ltac:(repeat constructor; simpl; intuition discriminate)
              1%nat (CartItem.mk latte 3) eq_refl eq_refl).
  - destruct (addToCart_one_line_per_product latte 2 [CartItem.mk mocha 1])
      as (_ & H & _).
    apply H. reflexivity.
  - destruct (addToCart_one_line_per_product latte 2
                (addToCart latte 2 (addToCart mocha 1 []))) as (_ & _ & H).
    apply H. apply reachable_add, reachable_add, reachable_empty.
Defined.

(** C10: [updateQuantity] with a quantity that is zero or negative removes
    the lines of the product and keeps the other lines as they are, in
    order; with a positive quantity it gives the product's line that
    quantity and leaves every other line unchanged.  Either way no line of
    the product is left with a quantity that is zero or negative. *)
Theorem updateQuantity_removes_or_replaces (productId : string) (quantity : Z)
    (items : list CartItem.t) :
  ((quantity <= 0)%Z ->
     updateQuantity productId quantity items
       = List.filter (fun item => negb (same_product productId item)) items
     /\ Forall (fun line => same_product productId line = false)
               (updateQuantity productId quantity items))
  /\ ((0 < quantity)%Z ->
      product_ids (updateQuantity productId quantity items) = product_ids items
      /\ forall i line,
           nth_error items i = Some line ->
           nth_error (updateQuantity productId quantity items) i =
             Some (if same_product productId line
                   then CartItem.mk (CartItem.product line) quantity
                   else line))
  /\ Forall (fun line =>
               same_product productId line = true -> (0 < CartItem.quantity line)%Z)
            (updateQuantity productId quantity items).
Proof.
  unfold updateQuantity, removeFromCart.
  destruct (quantity <=? 0)%Z eqn:Hq.
  - apply Z.leb_le in Hq.
    assert (Hgone : Forall (fun line => same_product productId line = false)
                      (List.filter (fun item => negb (same_product productId item)) items)).
    { apply List.Forall_forall. intros line Hin. apply filter_In in Hin as [_ H].
      apply negb_true_iff, H. }
    split; [auto | split; [lia|]].
    eapply List.Forall_impl; [|exact Hgone]. simpl. intros line H1 H2. congruence.
  - apply Z.leb_gt in Hq. split; [lia | split].
    + intros _. split; [apply bump_ids|].
      intros i line Hi. rewrite nth_error_map, Hi. reflexivity.
    + apply List.Forall_forall. intros line Hin. apply in_map_iff in Hin as (old & <- & _).
      destruct (same_product productId old) eqn:Hs; simpl; [auto | congruence].
Qed.

Lemma updateQuantity_removes_or_replaces_witness :
  updateQuantity "p7" 0 [CartItem.mk mocha 1; CartItem.mk latte 3] = [CartItem.mk mocha 1]
  /\ nth_error (updateQuantity "p7" 4 [CartItem.mk mocha 1; CartItem.mk latte 3]) 1
       = Some (CartItem.mk latte 4).
Proof.
  split.
  - destruct (updateQuantity_removes_or_replaces "p7" 0
                [CartItem.mk mocha 1; CartItem.mk latte 3]) as [H _].
    destruct (H ltac:(lia)) as [-> _]. reflexivity.
  - destruct (updateQuantity_removes_or_replaces "p7" 4
                [CartItem.mk mocha 1; CartItem.mk latte 3]) as (_ & H & _).
    destruct (H ltac:(lia)) as [_ H2].
    apply (H2 1%nat (CartItem.mk latte 3) eq_refl).
Defined.

(** ** Polling a job *)

Section PollFacts.

Variable API_URL : string.
Variable URL_pathname : string -> option string.
Variable axios_get : string -> nat -> HttpResult.

Lemma is_status_get (statusData : JsVal) (s : string) :
  is_status statusData s = true -> get statusData "status" <> None.
Proof.
  unfold is_status. destruct statusData; simpl; discriminate.
Qed.

Lemma poll_loop_pending_step (url : string) (m p remaining attempt : nat) :
  pending (axios_get url attempt) = true ->
  poll_loop axios_get url m p (S remaining) attempt =
    let r := poll_loop axios_get url m p remaining (S attempt) in
    {| result := result r; requests := S (requests r); waits := S (waits r) |}.
Proof.
  unfold pending. cbn [poll_loop].
  destruct (axios_get url attempt) as [statusData | status].
  - destruct (get statusData "status"); [|discriminate].
    destruct (is_status statusData "COMPLETED"); [discriminate|].
    destruct (is_status statusData "FAILED"); [discriminate|]. reflexivity.
  - intros ->. reflexivity.
Qed.

Lemma poll_loop_requests (url : string) (m p remaining attempt : nat) :
  (requests (poll_loop axios_get url m p remaining attempt) <= remaining)%nat.
Proof.
  revert attempt. induction remaining as [|remaining IH]; intros attempt.
  - simpl. lia.
  - cbn [poll_loop]. specialize (IH (S attempt)).
    destruct (axios_get url attempt) as [statusData | status].
    + destruct (get statusData "status"); [|simpl; lia].
      destruct (is_status statusData "COMPLETED"); [simpl; lia|].
      destruct (is_status statusData "FAILED"); simpl; lia.
    + destruct (is_404 status); simpl; lia.
Qed.

Lemma poll_loop_returns_completed (url : string) (m p remaining attempt : nat)
    (data : JsVal) :
  result (poll_loop axios_get url m p remaining attempt) = inr data ->
  is_status data "COMPLETED" = true.
Proof.
  revert attempt. induction remaining as [|remaining IH]; intros attempt.
  - discriminate.
  - cbn [poll_loop]. specialize (IH (S attempt)).
    destruct (axios_get url attempt) as [statusData | status].
    + destruct (get statusData "status"); [|discriminate].
      destruct (is_status statusData "COMPLETED") eqn:Hc.
      * simpl. intros [= <-]. exact Hc.
      * destruct (is_status statusData "FAILED"); [discriminate | exact IH].
    + destruct (is_404 status); [exact IH | discriminate].
Qed.

Lemma poll_loop_exhausted (url : string) (m p remaining attempt : nat) :
  (forall j, (j < remaining)%nat -> pending (axios_get url (attempt + j)) = true) ->
  poll_loop axios_get url m p remaining attempt =
    {| result := inl (DidNotComplete m p); requests := remaining; waits := remaining |}.
Proof.
  revert attempt. induction remaining as [|remaining IH]; intros attempt Hp.
  - reflexivity.
  - rewrite poll_loop_pending_step.
    + rewrite IH; [reflexivity|]. intros j Hj.
      replace (S attempt + j)%nat with (attempt + S j)%nat by lia. apply Hp. lia.
    + replace attempt with (attempt + 0)%nat at 1 by lia. apply Hp. lia.
Qed.

Lemma poll_loop_decided (url : string) (m p remaining attempt k : nat) (data : JsVal) :
  (k < remaining)%nat ->
  (forall j, (j < k)%nat -> pending (axios_get url (attempt + j)) = true) ->
  axios_get url (attempt + k) = Resolved data ->
  (is_status data "COMPLETED" = true ->
   result (poll_loop axios_get url m p remaining attempt) = inr data
   /\ requests (poll_loop axios_get url m p remaining attempt) = S k)
  /\ (is_status data "COMPLETED" = false -> is_status data "FAILED" = true ->
      result (poll_loop axios_get url m p remaining attempt)
        = inl (JobFailed (or_else (data?."error") (JString "Unknown error")))
      /\ requests (poll_loop axios_get url m p remaining attempt) = S k).
Proof.
  revert attempt k. induction remaining as [|remaining IH]; intros attempt k Hk Hp Hd; [lia|].
  destruct k as [|k].
  - rewrite Nat.add_0_r in Hd. cbn [poll_loop]. rewrite Hd. split.
    + intros Hc. pose proof (is_status_get _ _ Hc).
      destruct (get data "status"); [|congruence]. rewrite Hc. auto.
    + intros Hc Hf. pose proof (is_status_get _ _ Hf).
      destruct (get data "status"); [|congruence]. rewrite Hc, Hf. auto.
  - rewrite poll_loop_pending_step.
    + cbn zeta. cbn [result requests].
      destruct (IH (S attempt) k) as [H1 H2]; [lia | |
        replace (S attempt + k)%nat with (attempt + S k)%nat by lia; exact Hd |].
      * intros j Hj. replace (S attempt + j)%nat with (attempt + S j)%nat by lia.
        apply Hp. lia.
      * split; [intros Hc; destruct (H1 Hc); split; congruence
               | intros Hc Hf; destruct (H2 Hc Hf); split; congruence].
    + replace attempt with (attempt + 0)%nat at 1 by lia. apply Hp. lia.
Qed.

Lemma failed_not_completed (data : JsVal) :
  is_status data "FAILED" = true -> is_status data "COMPLETED" = false.
Proof.
  unfold is_status. destruct (data?."status"); try discriminate.
  intros H. apply String.eqb_eq in H as ->. reflexivity.
Qed.

(** C8: polling is bounded.  [pollJobStatus] sends at most [maxAttempts]
    requests to the status endpoint (150 by default) and what it returns
    is always a body whose status is [COMPLETED].  When every answer within
    the bound leaves the job pending, the call fails with the error that
    the job did not complete, after exactly [maxAttempts] requests.  When
    the first answer that is not pending is a [COMPLETED] body, that body
    is returned; when it is a [FAILED] body, the call fails with the job's
    error; in both cases no further request is sent. *)
Theorem pollJobStatus_bounded (jobId : string) (maxAttempts pollInterval : nat) :
  let polled :=
    pollJobStatus API_URL URL_pathname axios_get jobId maxAttempts pollInterval in
  (requests polled <= maxAttempts)%nat
  /\ (forall data, result polled = inr data -> is_status data "COMPLETED" = true)
  /\ forall url,
       statusUrl API_URL URL_pathname jobId = inr url ->
       ((forall j, (j < maxAttempts)%nat -> pending (axios_get url j) = true) ->
        result polled = inl (DidNotComplete maxAttempts pollInterval)
        /\ requests polled = maxAttempts)
       /\ (forall k data,
             (k < maxAttempts)%nat ->
             (forall j, (j < k)%nat -> pending (axios_get url j) = true) ->
             axios_get url k = Resolved data ->
             (is_status data "COMPLETED" = true ->
              result polled = inr data /\ requests polled = S k)
             /\ (is_status data "FAILED" = true ->
                 result polled
                   = inl (JobFailed (or_else (data?."error") (JString "Unknown error")))
                 /\ requests polled = S k)).
Proof.
  cbv zeta. unfold pollJobStatus.
  destruct (statusUrl API_URL URL_pathname jobId) as [e | url'] eqn:Hurl.
  - split; [simpl; lia | split; [discriminate | discriminate]].
  - split; [apply poll_loop_requests | split].
    + intros data. apply poll_loop_returns_completed.
    + intros url [= <-]. split.
      * intros Hp. rewrite poll_loop_exhausted; [auto | exact Hp].
      * intros k data Hk Hp Hd.
        destruct (poll_loop_decided url' maxAttempts pollInterval maxAttempts 0 k data)
          as [H1 H2]; [exact Hk | exact Hp | exact Hd |].
        split; [exact H1 | intros Hf; apply H2; [apply failed_not_completed|]; exact Hf].
Qed.

End PollFacts.

Lemma pollJobStatus_bounded_witness :
  let polled :=
    pollJobStatus "/api/runpod/v2/7npr6mt7n0ulbp/runsync" (fun _ => None)
      third_time "job-1" default_maxAttempts
      default_pollInterval in
  result polled = inr completed /\ requests polled = 3%nat.
Proof.
  cbv zeta.
  destruct (pollJobStatus_bounded "/api/runpod/v2/7npr6mt7n0ulbp/runsync" (fun _ => None)
              third_time "job-1" default_maxAttempts
              default_pollInterval) as (_ & _ & H).
  destruct (H "/api/runpod/v2/7npr6mt7n0ulbp/status/job-1" eq_refl) as [_ H2].
  apply (H2 2%nat completed).
  - unfold default_maxAttempts. lia.
  - intros j Hj. destruct j as [|[|j]]; [reflexivity | reflexivity | lia].
  - reflexivity.
  - reflexivity.
Defined.

(** ** The chat room *)

Lemma val_eqb_refl : forall v : JsVal, val_eqb v v = true.
Proof.
  fix IH 1. intros [| |b|[|z]|s|items|fields]; simpl; try reflexivity.
  - destruct b; reflexivity.
  - apply Z.eqb_refl.
  - apply String.eqb_refl.
  - induction items as [|x items IHitems]; [reflexivity|].
    rewrite (IH x). exact IHitems.
  - induction fields as [|[k x] fields IHfields]; [reflexivity|].
    rewrite String.eqb_refl, (IH x). exact IHfields.
Qed.

Lemma order_eqb_refl (l : list OrderItem.t) : order_eqb l l = true.
Proof.
  induction l as [|x l IH]; [reflexivity|]. simpl. rewrite IH.
  unfold orderItem_eqb. rewrite String.eqb_refl, val_eqb_refl.
  destruct (OrderItem.quantity x); simpl; [reflexivity | rewrite Z.eqb_refl; reflexivity].
Qed.

Lemma processOrdersFromMemory_hash (orderItems : list OrderItem.t) (st : State) :
  hash_eqb (Some (normalizedItems orderItems))
           (lastOrderHashRef (processOrdersFromMemory orderItems st)) = true.
Proof.
  unfold processOrdersFromMemory.
  destruct (hash_eqb _ (lastOrderHashRef st)) eqn:Hh; [exact Hh|].
  simpl. apply order_eqb_refl.
Qed.

Lemma handleOrders_state (rnd : nat -> nat) (orderItems : list OrderItem.t)
    (content : string) (st : State) :
  snd (handleOrders rnd orderItems content st) =
    match orderItems with
    | [] => st
    | _ => processOrdersFromMemory orderItems st
    end.
Proof.
  unfold handleOrders. destruct orderItems as [|o orderItems]; [reflexivity|].
  destruct (newItems _ _); [reflexivity|].
  destruct (matchedNames _ _); [reflexivity|].
  destruct (blank content); reflexivity.
Qed.

Example processOrdersFromMemory_sample :
  cartItems (processOrdersFromMemory two_lattes initial) = [CartItem.mk latte 2]
  /\ cartItems (processOrdersFromMemory two_lattes
                  (processOrdersFromMemory two_lattes initial)) = [CartItem.mk latte 2].
Proof. split; reflexivity. Qed.

(** C2: processing the order list of a memory a second time changes
    nothing: the state after the second pass (cart, recorded keys, order
    hash) is the state after the first, so no line is appended twice.
    The same holds of two chat turns whose responses carry the same order
    list, whatever their replies and the numbers drawn. *)
Theorem processOrdersFromMemory_idempotent (orderItems : list OrderItem.t) (st : State) :
  processOrdersFromMemory orderItems (processOrdersFromMemory orderItems st)
    = processOrdersFromMemory orderItems st
  /\ forall (rnd rnd' : nat -> nat) (content content' : string),
       snd (handleOrders rnd' orderItems content'
              (snd (handleOrders rnd orderItems content st)))
         = snd (handleOrders rnd orderItems content st).
Proof.
  assert (H : processOrdersFromMemory orderItems (processOrdersFromMemory orderItems st)
              = processOrdersFromMemory orderItems st).
  { unfold processOrdersFromMemory at 1.
    rewrite processOrdersFromMemory_hash. reflexivity. }
  split; [exact H|].
  intros rnd rnd' content content'. rewrite !handleOrders_state.
  destruct orderItems; [reflexivity | exact H].
Qed.

Lemma insert_by_price_perm (a : Product.t) (l : list Product.t) :
  Permutation (insert_by_price a l) (a :: l).
Proof.
  induction l as [|x l IH]; simpl; [reflexivity|].
  destruct (Product.price a <? Product.price x)%Z; [|reflexivity].
  rewrite IH. apply perm_swap.
Qed.

Lemma sort_by_price_perm (l : list Product.t) : Permutation (sort_by_price l) l.
Proof.
  induction l as [|a l IH]; simpl; [reflexivity|].
  rewrite insert_by_price_perm, IH. reflexivity.
Qed.

Lemma insert_by_price_sorted (a : Product.t) (l : list Product.t) :
  StronglySorted dearer_first l -> StronglySorted dearer_first (insert_by_price a l).
Proof.
  induction 1 as [|x l Hl IH Hx]; simpl.
  - repeat constructor.
  - destruct (Product.price a <? Product.price x)%Z eqn:E.
    + apply Z.ltb_lt in E. constructor; [exact IH|].
      rewrite insert_by_price_perm. constructor; [|exact Hx].
      unfold dearer_first. lia.
    + apply Z.ltb_ge in E. constructor; [constructor; assumption|].
      constructor; [exact E|].
      eapply List.Forall_impl; [|exact Hx].
      unfold dearer_first. intros y Hy. lia.
Qed.

Lemma sort_by_price_sorted (l : list Product.t) :
  StronglySorted dearer_first (sort_by_price l).
Proof.
  induction l as [|a l IH]; simpl; [constructor|].
  apply insert_by_price_sorted, IH.
Qed.

(** Case analysis on a natural number that is bounded in the context. *)
Ltac nat_cases i := destruct i as [|i]; [|first [lia | nat_cases i]].

(** The reply drawn is an opening, one of the five formats of the list and
    a closing, and of these only the format looks at the items. *)
Lemma recommendation_phrasing (r : nat) :
  exists (intro : string) (format : list Product.t -> string) (outro : string),
    In format [format1; format2; format3; format4; format5] /\
    forall popular,
      choose (recommendationResponses popular) r = intro +:+ format popular +:+ outro.
Proof.
  unfold choose.
  assert (Hlen : forall popular, length (recommendationResponses popular) = 15%nat)
    by reflexivity.
  pose proof (Nat.mod_upper_bound r 15 ltac:(lia)) as Hr.
  destruct (Nat.modulo r 15) as [|i] eqn:Hi; [|nat_cases i];
  match goal with
  | Hi : _ = ?i |- _ =>
      let t := eval cbv beta zeta delta [nth recommendationResponses] iota in
                 (fun popular : list Product.t =>
                    nth i (recommendationResponses popular) "") in
      lazymatch t with
      | (fun popular =>
           ?a +:+ nl +:+ nl +:+ (@?f popular) +:+ ?o) =>
          exists (a +:+ nl +:+ nl), f, o
      end
  end;
  (split; [simpl; auto 10 | intros popular; rewrite Hlen, Hi; reflexivity]).
Qed.

Lemma shows_item_const (line : Product.t -> string) :
  (forall item,
      exists before between after,
        line item = before +:+ Product.name item +:+ between
                      +:+ "$" +:+ toFixed2 (Product.price item) +:+ after) ->
  shows_item (fun _ => line).
Proof. intros H index item. apply H. Qed.

(** Each of the five formats is the list of the entries of the items, in
    the order of the items, with a separator between them, and an entry
    shows the name and the price of its item. *)
Lemma formats_list_the_items (format : list Product.t -> string) :
  In format [format1; format2; format3; format4; format5] ->
  exists (separator : string) (entry : nat -> Product.t -> string),
    shows_item entry
    /\ forall popular, format popular = String.concat separator (imap entry popular).
Proof.
  intros [<- | [<- | [<- | [<- | [<- | []]]]]].
  - eexists _, _. split; [|intros popular; reflexivity].
    intros index item.
    exists (pretty (S index) +:+ ". **"), "** - ",
      (if String.eqb (Product.description item) "" then ""
       else " - " +:+ Product.description item).
    rewrite append_assoc. reflexivity.
  - exists nl, (fun _ item =>
                  "• **" +:+ Product.name item +:+ "** | $"
                    +:+ toFixed2 (Product.price item)
                    +:+ (if String.eqb (Product.description item) "" then ""
                         else nl +:+ "   " +:+ Product.description item)).
    split; [|intros popular; unfold format2; rewrite <- imap_const; reflexivity].
    apply shows_item_const. intros item. exists "• **", "** | ". eexists. reflexivity.
  - exists nl, (fun _ item =>
                  "→ " +:+ Product.name item
                    +:+ (if String.eqb (Product.description item) "" then ""
                         else " (" +:+ Product.description item +:+ ")")
                    +:+ " — $" +:+ toFixed2 (Product.price item)).
    split; [|intros popular; unfold format3; rewrite <- imap_const; reflexivity].
    apply shows_item_const. intros item.
    exists "→ ",
      ((if String.eqb (Product.description item) "" then ""
        else " (" +:+ Product.description item +:+ ")") +:+ " — "), "".
    rewrite append_assoc, append_empty_r. reflexivity.
  - exists (nl +:+ nl),
      (fun _ item =>
         "**" +:+ Product.name item +:+ "**" +:+ nl +:+ "   Price: $"
           +:+ toFixed2 (Product.price item)
           +:+ (if String.eqb (Product.description item) "" then ""
                else nl +:+ "   " +:+ Product.description item)).
    split; [|intros popular; unfold format4; rewrite <- imap_const; reflexivity].
    apply shows_item_const. intros item.
    exists "**", ("**" +:+ nl +:+ "   Price: "). eexists. reflexivity.
  - eexists _, _. split; [|intros popular; reflexivity].
    intros index item.
    exists ("[" +:+ pretty (S index) +:+ "] "), " — ",
      (if String.eqb (Product.description item) "" then ""
       else " | " +:+ Product.description item).
    change ("[" +:+ pretty (S index) +:+ "] ") with (("[" +:+ pretty (S index)) +:+ "] ").
    rewrite !append_assoc. reflexivity.
Qed.

(** C7: the items recommended and their order are a function of the
    product list, not of the number drawn.  [popularItems] is the first
    five items of the products ranked by price, dearest first (the
    products left out are not dearer than any of them).  Whatever number
    is drawn, the reply is an opening, then one entry for each of these
    items, in this order and with a separator between them, then a
    closing; an entry shows the name and the price of its item.  The
    number drawn chooses the opening, the separator, the layout of an
    entry and the closing, which do not depend on the products. *)
Theorem recommendation_items_deterministic (products : list Product.t) :
  StronglySorted dearer_first (popularItems products)
  /\ length (popularItems products) = Nat.min 5 (length products)
  /\ (exists rest,
        Permutation (popularItems products ++ rest) products
        /\ Forall (fun low => Forall (fun top => dearer_first top low)
                                     (popularItems products)) rest)
  /\ forall r : nat,
       exists (intro separator : string) (entry : nat -> Product.t -> string)
              (outro : string),
         shows_item entry
         /\ (forall catalog,
                catalog <> [] ->
                generateRecommendationResponse catalog r
                = intro +:+ String.concat separator (imap entry (popularItems catalog))
                    +:+ outro)
         /\ (products <> [] ->
             generateRecommendationResponse products r
             = intro +:+ String.concat separator (imap entry (popularItems products))
                 +:+ outro).
Proof.
  unfold popularItems.
  pose proof (sort_by_price_sorted products) as Hs.
  rewrite <- (take_drop 5 (sort_by_price products)) in Hs.
  apply StronglySorted_app in Hs as (Hcross & Htake & _).
  split; [exact Htake|]. split.
  { rewrite length_take, (Permutation_length (sort_by_price_perm products)). reflexivity. }
  split.
  - exists (drop 5 (sort_by_price products)). split.
    + rewrite take_drop. apply sort_by_price_perm.
    + apply List.Forall_forall. intros low Hlow.
      apply List.Forall_forall. intros top Htop.
      apply Hcross; apply list_elem_of_In; assumption.
  - intros r. destruct (recommendation_phrasing r) as (intro & format & outro & Hin & H).
    destruct (formats_list_the_items format Hin) as (separator & entry & Hshow & Hformat).
    exists intro, separator, entry, outro. split; [exact Hshow|].
    assert (Hall : forall catalog,
               catalog <> [] ->
               generateRecommendationResponse catalog r
               = intro +:+ String.concat separator
                             (imap entry (take 5 (sort_by_price catalog))) +:+ outro).
    { intros catalog Hne. rewrite <- Hformat.
      destruct catalog as [|p ps]; [congruence|]. apply H. }
    split; [exact Hall | apply Hall].
Qed.

Lemma recommendation_items_deterministic_witness :
  generateRecommendationResponse [latte; mocha] 7
  = "Popular choices:" +:+ nl +:+ nl
      +:+ "→ Mocha — $5.00" +:+ nl +:+ "→ Latte — $4.00"
      +:+ nl +:+ nl +:+ "Want to learn more?" +:+ nl +:+ nl
      +:+ "Each one has something special." +:+ nl +:+ nl
      +:+ "Which one sounds good to you?"
  /\ exists (intro separator : string) (entry : nat -> Product.t -> string)
            (outro : string),
       shows_item entry
       /\ generateRecommendationResponse [latte; mocha] 7
          = intro +:+ String.concat separator (imap entry (popularItems [latte; mocha]))
              +:+ outro.
Proof.
  split; [reflexivity|].
  destruct (recommendation_items_deterministic [latte; mocha]) as (_ & _ & _ & H).
  destruct (H 7%nat) as (intro & separator & entry & outro & Hshow & _ & Heq).
  exists intro, separator, entry, outro. split; [exact Hshow|].
  apply Heq. discriminate.
Defined.

Example popularItems_ranked : popularItems [latte; mocha] = [mocha; latte].
Proof. reflexivity. Qed.

Example format1_sample :
  format1 [mocha; latte]
    = "1. **Mocha** - $5.00" +:+ nl +:+ nl +:+ "2. **Latte** - $4.00".
Proof. reflexivity. Qed.

(** C6 fails on the code: the response to a request for an item that is
    not on the menu carries no text and the item in its order.  No new
    item resolves to a product, so no confirmation is written; the
    response has order items, so the informational replies and the final
    fallback are skipped; the assistant message appended to the
    conversation has empty content. *)
Theorem empty_reply_for_unmatched_order (ToNumber : JsVal -> JsNumber) (rnd : nat -> nat) :
  messages (handleSendMessage ToNumber (Some unknown_item_request)
              (fun _ => unknown_item_response) rnd initial)
    = [ userMessage unknown_item_request;
        {| role := "assistant"; content := ""; memory := unknown_item_memory |} ].
Proof. reflexivity. Qed.

(** *** Replies that are not empty *)

Lemma blank_head (c : ascii) (s : string) :
  is_whitespace c = false -> blank (String c s) = false.
Proof.
  intros Hc. unfold blank. apply String.eqb_neq, trim_nonspace, Hc.
Qed.

Lemma choose_In (l : list string) (r : nat) : l <> [] -> In (choose l r) l.
Proof.
  intros Hl. unfold choose. apply nth_In, Nat.mod_upper_bound.
  destruct l; [congruence | discriminate].
Qed.

Lemma choose_Forall (P : string -> Prop) (l : list string) (r : nat) :
  l <> [] -> Forall P l -> P (choose l r).
Proof.
  intros Hl HP. apply (proj1 (List.Forall_forall P l) HP), choose_In, Hl.
Qed.

Ltac not_blank_list :=
  cbv zeta; repeat (apply List.Forall_cons; [apply blank_head; reflexivity|]);
  apply List.Forall_nil.

Lemma recommendationResponses_not_blank (popular : list Product.t) :
  Forall (fun s => blank s = false) (recommendationResponses popular).
Proof. unfold recommendationResponses. not_blank_list. Qed.

Lemma priceResponses_not_blank (product : Product.t) :
  Forall (fun s => blank s = false) (priceResponses product).
Proof. unfold priceResponses. not_blank_list. Qed.

Lemma orderResponses_not_blank (product : Product.t) :
  Forall (fun s => blank s = false) (orderResponses product).
Proof. unfold orderResponses. not_blank_list. Qed.

Lemma messageVariations_not_blank (itemNames : list string) (rnd : nat -> nat) :
  Forall (fun s => blank s = false) (messageVariations itemNames rnd).
Proof. unfold messageVariations. not_blank_list. Qed.

Lemma generateRecommendationResponse_not_blank (products : list Product.t) (r : nat) :
  blank (generateRecommendationResponse products r) = false.
Proof.
  destruct products as [|p ps]; [reflexivity|].
  unfold generateRecommendationResponse.
  apply (choose_Forall (fun s => blank s = false)); [discriminate | apply recommendationResponses_not_blank].
Qed.

(** The informational replies and the final fallback leave no empty reply. *)
Lemma handleInformational_not_blank (rnd : nat -> nat) (message content : string)
    (st : State) :
  blank (fst (handleInformational rnd message content st)) = false.
Proof.
  unfold handleInformational.
  destruct (isRecommendationQuery message).
  { apply generateRecommendationResponse_not_blank. }
  destruct (isPriceQuery message).
  { destruct (extractProductNameFromQuery message (products st)) as [product|];
      [|reflexivity].
    apply (choose_Forall (fun s => blank s = false)); [discriminate | apply priceResponses_not_blank]. }
  assert (Hfallback : blank (fst (if blank content then (fallbackContent, st)
                                   else (content, st))) = false).
  { destruct (blank content) eqn:Hb; [reflexivity | exact Hb]. }
  destruct (_ || _); [|exact Hfallback].
  destruct (extractProductNameFromQuery message (products st)) as [product|];
    [|exact Hfallback].
  destruct (_ && _); [|exact Hfallback].
  apply (choose_Forall (fun s => blank s = false)); [discriminate | apply orderResponses_not_blank].
Qed.

(** The reply after the order items of the response are handled is empty
    exactly when the reply of the API is empty and no new item resolved to
    a product that is not recorded. *)
Lemma handleOrders_blank (rnd : nat -> nat) (orderItems : list OrderItem.t)
    (content : string) (st : State) :
  blank (fst (handleOrders rnd orderItems content st)) =
    blank content
    && match orderItems with
       | [] => true
       | _ =>
           match matchedNames st (newItems (lastOrderHashRef st) orderItems) with
           | [] => true
           | _ => false
           end
       end.
Proof.
  unfold handleOrders. destruct orderItems as [|o orderItems].
  { simpl. rewrite andb_true_r. reflexivity. }
  destruct (newItems (lastOrderHashRef st) (o :: orderItems)) as [|n new].
  { simpl. rewrite andb_true_r. reflexivity. }
  destruct (matchedNames st (n :: new)) as [|name names].
  { simpl. rewrite andb_true_r. reflexivity. }
  destruct (blank content) eqn:Hb; simpl; [|exact Hb].
  apply (choose_Forall (fun s => blank s = false)); [discriminate | apply messageVariations_not_blank].
Qed.

Lemma reaches_api_tests (messageText : option string) (st : State) :
  reaches_api messageText st ->
  String.eqb (messageToSend messageText st) "" || isSending st = false
  /\ isOrderCompletion (messageToSend messageText st) = false.
Proof.
  intros (Hm & Hs & Hc). rewrite Hs, orb_false_r. split; [|exact Hc].
  apply String.eqb_neq, Hm.
Qed.

Lemma get_not_nullish (v : JsVal) (k : string) :
  get v k = if is_nullish v then None else Some (v?.k).
Proof. destruct v; reflexivity. Qed.

(** When the call of the chatbot throws, the conversation gets the user's
    message and then the fixed apology, and the message of the error goes
    to a toast, not into the conversation.  When the value thrown is
    [null] or [undefined], reading it throws again and neither the
    apology nor a toast is added.  In both cases the cart and the record
    of the processed orders are left as they were, and the chat room is
    ready for the next message. *)
Lemma apology_on_failure (ToNumber : JsVal -> JsNumber) (messageText : option string)
    (callChatBotAPI : list Message -> ApiResult) (rnd : nat -> nat) (st : State)
    (err : JsVal) :
  reaches_api messageText st ->
  callChatBotAPI (messages st ++ [userMessage (messageToSend messageText st)])
    = ApiThrows err ->
  let st' := handleSendMessage ToNumber messageText callChatBotAPI rnd st in
  messages st'
    = messages st ++ userMessage (messageToSend messageText st)
                     :: (if is_nullish err then [] else [errorResponse])
  /\ toasts st'
     = toasts st
       ++ (if is_nullish err then []
           else [or_else (err?."response"?."data"?."error")
                         (or_else (err?."message") (JString "Error sending message"))])
  /\ cartItems st' = cartItems st
  /\ processedOrders st' = processedOrders st
  /\ lastOrderHashRef st' = lastOrderHashRef st
  /\ isSending st' = false
  /\ isTyping st' = false.
Proof.
  intros Hr Hapi. apply reaches_api_tests in Hr as [H1 H2].
  cbv zeta. unfold handleSendMessage. cbv zeta. rewrite H1, H2, Hapi.
  rewrite get_not_nullish. destruct (is_nullish err); cbn.
  - rewrite app_nil_r. repeat split; reflexivity.
  - rewrite <- app_assoc. repeat split; reflexivity.
Qed.

Lemma apology_on_failure_witness :
  messages (handleSendMessage (fun _ => NaN) (Some "hello")
              (fun _ => ApiThrows (JObject [("message", JString "Network error")]))
              (fun _ => 0%nat) initial)
    = [userMessage "hello"; errorResponse].
Proof.
  apply (apology_on_failure (fun _ => NaN) (Some "hello") _ (fun _ => 0%nat) initial
           (JObject [("message", JString "Network error")]));
    [split; [vm_compute; discriminate | split; reflexivity] | reflexivity].
Defined.

(** When the chatbot answers, the reply appended to the conversation is
    empty exactly when the answer has no text, the response carries order
    items, and none of the new items resolves to a product that is not
    recorded: with no order items an empty answer is replaced by an
    informational reply or by the fallback sentence. *)
Lemma reply_blank_only_with_unmatched_orders (ToNumber : JsVal -> JsNumber)
    (messageText : option string) (callChatBotAPI : list Message -> ApiResult)
    (rnd : nat -> nat) (st : State) (answer : Message) (fullResponse : JsVal) :
  reaches_api messageText st ->
  callChatBotAPI (messages st ++ [userMessage (messageToSend messageText st)])
    = ApiReturns answer fullResponse ->
  let orderItems :=
    if truthy fullResponse then extractOrderFromMemory ToNumber fullResponse else [] in
  exists reply,
    messages (handleSendMessage ToNumber messageText callChatBotAPI rnd st)
      = messages st ++ [userMessage (messageToSend messageText st); reply]
    /\ role reply = role answer
    /\ memory reply = memory answer
    /\ blank (content reply) =
         blank (content answer)
         && negb (Nat.eqb (length orderItems) 0)
         && match matchedNames st (newItems (lastOrderHashRef st) orderItems) with
            | [] => true
            | _ => false
            end.
Proof.
  intros Hr Hapi orderItems. apply reaches_api_tests in Hr as [H1 H2].
  unfold handleSendMessage. cbv zeta. rewrite H1, H2, Hapi.
  fold orderItems.
  pose proof (handleOrders_blank rnd orderItems (content answer) st) as Hb.
  destruct (handleOrders rnd orderItems (content answer) st) as [content1 st1].
  simpl in Hb.
  destruct (blank content1 && negb (negb (Nat.eqb (length orderItems) 0))) eqn:Hc.
  - pose proof (handleInformational_not_blank rnd (messageToSend messageText st)
                  content1 st1) as Hi.
    destruct (handleInformational _ _ content1 st1) as [content2 st2].
    eexists. simpl. rewrite <- app_assoc. split; [reflexivity|].
    split; [reflexivity|]. split; [reflexivity|].
    simpl in Hi. cbn [content with_content]. rewrite Hi.
    apply andb_true_iff in Hc as [_ Hc]. apply negb_true_iff in Hc.
    rewrite Hc, andb_false_r. reflexivity.
  - eexists. simpl. rewrite <- app_assoc. split; [reflexivity|].
    split; [reflexivity|]. split; [reflexivity|].
    cbn [content with_content]. rewrite Hb. destruct orderItems as [|o orderItems].
    + simpl in *. rewrite andb_true_r in Hb. rewrite <- Hb, Hc.
      rewrite andb_false_r. reflexivity.
    + simpl. rewrite andb_true_r. reflexivity.
Qed.

Lemma reply_blank_only_with_unmatched_orders_witness :
  exists reply,
    messages (handleSendMessage (fun _ => NaN) (Some "what is popular?")
                (fun _ => no_text (JObject [("output", JObject [("content", JString "")])]))
                (fun _ => 3%nat) initial)
      = [userMessage "what is popular?"; reply]
    /\ blank (content reply) = false.
Proof.
  destruct (reply_blank_only_with_unmatched_orders (fun _ => NaN)
              (Some "what is popular?")
              (fun _ => no_text (JObject [("output", JObject [("content", JString "")])]))
              (fun _ => 3%nat) initial
              {| role := "assistant"; content := ""; memory := JUndefined |}
              (JObject [("output", JObject [("content", JString "")])]))
    as (reply & Hm & _ & _ & Hb).
  - split; [vm_compute; discriminate | split; reflexivity].
  - reflexivity.
  - exists reply. split; [exact Hm | exact Hb].
Defined.


(** * Further properties *)

(** ** The cart: totals, removal and quantity updates *)

Lemma fold_left_sum (f : CartItem.t -> Z) (l : list CartItem.t) (a : Z) :
  fold_left (fun total item => (total + f item)%Z) l a
    = (a + fold_left (fun total item => (total + f item)%Z) l 0)%Z.
Proof.
  revert a. induction l as [|x l IH]; intros a; simpl; [lia|].
  rewrite IH, (IH (0 + f x)%Z). lia.
Qed.

Lemma fold_left_sum_app (f : CartItem.t -> Z) (l k : list CartItem.t) :
  fold_left (fun total item => (total + f item)%Z) (l ++ k) 0%Z
    = (fold_left (fun total item => (total + f item)%Z) l 0
       + fold_left (fun total item => (total + f item)%Z) k 0)%Z.
Proof. rewrite fold_left_app, fold_left_sum. reflexivity. Qed.

Lemma map_other_lines (productId : string) (q : Z) (l : list CartItem.t) :
  Forall (fun y => same_product productId y = false) l ->
  map (fun item => if same_product productId item
                   then CartItem.mk (CartItem.product item) q else item) l = l.
Proof.
  induction 1 as [|x l Hx _ IH]; simpl; [reflexivity|]. rewrite Hx, IH. reflexivity.
Qed.

Lemma filter_other_lines (productId : string) (l : list CartItem.t) :
  Forall (fun y => same_product productId y = false) l ->
  List.filter (fun item => negb (same_product productId item)) l = l.
Proof.
  induction 1 as [|x l Hx _ IH]; simpl; [reflexivity|]. rewrite Hx, IH. reflexivity.
Qed.

(** In a cart with one line per product, the lines around the first line
    of a product are lines of other products. *)
Lemma unique_line_split (productId : string) (items : list CartItem.t)
    (existing : CartItem.t) :
  List.NoDup (product_ids items) ->
  find (same_product productId) items = Some existing ->
  exists before after,
    items = before ++ existing :: after
    /\ same_product productId existing = true
    /\ Forall (fun y => same_product productId y = false) before
    /\ Forall (fun y => same_product productId y = false) after.
Proof.
  intros Hnd Hf.
  destruct (find_Some_split _ _ _ Hf) as (before & after & -> & He & Hb).
  exists before, after. repeat split; auto.
  apply List.Forall_forall. intros y Hy.
  destruct (same_product productId y) eqn:Hs; [|reflexivity].
  exfalso. unfold product_ids in Hnd. rewrite map_app in Hnd. simpl in Hnd.
  apply NoDup_remove_2 in Hnd. apply Hnd, in_or_app. right.
  apply same_product_eq in Hs, He. rewrite He, <- Hs.
  apply in_map_iff. eauto.
Qed.

(** In a cart with one line per product, adding [quantity] of a product
    raises the number of items by [quantity].  When the cart has no line
    of the product, the total price becomes the total of the cart plus
    the price of the product times [quantity]: the line is added at the
    end, so the new total is the old sum with this one term added last. *)
Theorem addToCart_totals (product : Product.t) (quantity : Z) (items : list CartItem.t) :
  List.NoDup (product_ids items) ->
  getTotalItems (addToCart product quantity items) = (getTotalItems items + quantity)%Z
  /\ (find (same_product (Product.id product)) items = None ->
      getTotalPrice (addToCart product quantity items)
      = (getTotalPrice items + Product.price product * quantity)%Z).
Proof.
  intros Hnd. split.
  - unfold addToCart, getTotalItems.
    destruct (find _ items) as [existing|] eqn:Hf.
    + destruct (unique_line_split _ _ _ Hnd Hf) as (before & after & -> & He & Hb & Ha).
      rewrite map_app. simpl. rewrite He, !map_other_lines by assumption.
      rewrite !fold_left_sum_app. simpl.
      rewrite (fold_left_sum _ after (0 + CartItem.quantity existing)%Z).
      rewrite (fold_left_sum _ after (0 + (CartItem.quantity existing + quantity))%Z).
      lia.
    + rewrite fold_left_app. reflexivity.
  - intros Hf. unfold addToCart, getTotalPrice. rewrite Hf, fold_left_app. reflexivity.
Qed.

Lemma addToCart_totals_witness :
  getTotalItems (addToCart latte 2 [CartItem.mk mocha 1; CartItem.mk latte 3]) = 6%Z.
Proof.
  apply (addToCart_totals latte 2 [CartItem.mk mocha 1; CartItem.mk latte 3]).
  repeat constructor; simpl; intuition discriminate.
Defined.

(** Removing a product that was just added to a cart without a line of it
    gives the cart back; removing leaves no line of the product, keeps one
    line per product, and removing again changes nothing. *)
Theorem removeFromCart_after_add (product : Product.t) (quantity : Z)
    (items : list CartItem.t) :
  (find (same_product (Product.id product)) items = None ->
   removeFromCart (Product.id product) (addToCart product quantity items) = items)
  /\ ~ In (Product.id product)
          (product_ids (removeFromCart (Product.id product)
                          (addToCart product quantity items)))
  /\ (List.NoDup (product_ids items) ->
      List.NoDup (product_ids (removeFromCart (Product.id product) items)))
  /\ removeFromCart (Product.id product) (removeFromCart (Product.id product) items)
       = removeFromCart (Product.id product) items.
Proof.
  assert (Hgone : forall l,
             Forall (fun y => same_product (Product.id product) y = false)
                    (removeFromCart (Product.id product) l)).
  { intros l. apply List.Forall_forall. intros y Hy.
    apply filter_In in Hy as [_ Hy]. apply negb_true_iff, Hy. }
  split; [|split; [|split]].
  - intros Hf. unfold addToCart. rewrite Hf. unfold removeFromCart.
    rewrite List.filter_app. simpl. unfold same_product at 2. simpl.
    rewrite String.eqb_refl. simpl. rewrite app_nil_r.
    apply filter_other_lines, find_None_all, Hf.
  - intros Hin. apply in_map_iff in Hin as (y & Hid & Hy).
    pose proof (proj1 (List.Forall_forall _ _) (Hgone _) y Hy) as Hs.
    apply same_product_eq in Hid. congruence.
  - unfold removeFromCart, product_ids.
    induction items as [|x items IH]; simpl; intros Hnd; [constructor|].
    inversion Hnd as [|? ? Hx Hnd']; subst.
    destruct (same_product (Product.id product) x); simpl; [apply IH, Hnd'|].
    constructor; [|apply IH, Hnd'].
    intros Hin. apply Hx. apply in_map_iff in Hin as (y & Hid & Hy).
    apply filter_In in Hy as [Hy _]. apply in_map_iff. eauto.
  - apply filter_other_lines, Hgone.
Qed.

Lemma removeFromCart_after_add_witness :
  removeFromCart "p7" (addToCart latte 2 [CartItem.mk mocha 1]) = [CartItem.mk mocha 1].
Proof.
  destruct (removeFromCart_after_add latte 2 [CartItem.mk mocha 1]) as [H _].
  apply H. reflexivity.
Defined.

(** On a cart with one line per product, [updateQuantity] changes the
    number of items by the difference between the new quantity (nothing,
    when it is zero or negative) and the quantity of the product's line;
    on a cart without a line of the product it changes nothing. *)
Theorem updateQuantity_totals (productId : string) (quantity : Z)
    (items : list CartItem.t) :
  List.NoDup (product_ids items) ->
  match find (same_product productId) items with
  | Some existing =>
      getTotalItems (updateQuantity productId quantity items)
        = (getTotalItems items - CartItem.quantity existing + Z.max quantity 0)%Z
  | None => updateQuantity productId quantity items = items
  end
  /\ List.NoDup (product_ids (updateQuantity productId quantity items)).
Proof.
  intros Hnd. split.
  - unfold updateQuantity, removeFromCart, getTotalItems.
    destruct (find _ items) as [existing|] eqn:Hf.
    + destruct (unique_line_split _ _ _ Hnd Hf) as (before & after & -> & He & Hb & Ha).
      destruct (quantity <=? 0)%Z eqn:Hq.
      * apply Z.leb_le in Hq. rewrite List.filter_app. simpl. rewrite He. simpl.
        rewrite !filter_other_lines by assumption.
        rewrite !fold_left_sum_app. simpl.
        rewrite (fold_left_sum _ after (0 + CartItem.quantity existing)%Z). lia.
      * apply Z.leb_gt in Hq. rewrite map_app. simpl. rewrite He.
        rewrite !map_other_lines by assumption.
        rewrite !fold_left_sum_app. simpl.
        rewrite (fold_left_sum _ after (0 + CartItem.quantity existing)%Z).
        rewrite (fold_left_sum _ after (0 + quantity)%Z). lia.
    + apply find_None_all in Hf.
      destruct (quantity <=? 0)%Z;
        [apply filter_other_lines | apply map_other_lines]; exact Hf.
  - unfold updateQuantity. destruct (quantity <=? 0)%Z.
    + clear quantity. unfold removeFromCart, product_ids.
      induction items as [|x items IH]; simpl; [constructor|].
      inversion Hnd as [|? ? Hx Hnd']; subst.
      destruct (same_product productId x); simpl; [apply IH, Hnd'|].
      constructor; [|apply IH, Hnd'].
      intros Hin. apply Hx. apply in_map_iff in Hin as (y & Hid & Hy).
      apply filter_In in Hy as [Hy _]. apply in_map_iff. eauto.
    + rewrite bump_ids. exact Hnd.
Qed.

Lemma updateQuantity_totals_witness :
  getTotalItems (updateQuantity "p7" 5 [CartItem.mk mocha 1; CartItem.mk latte 3]) = 6%Z.
Proof.
  destruct (updateQuantity_totals "p7" 5 [CartItem.mk mocha 1; CartItem.mk latte 3])
    as [H _].
  - repeat constructor; simpl; intuition discriminate.
  - exact H.
Defined.

(** ** Matching a mention: membership, exact names first, case and padding *)

Lemma lower_char_idem (c : ascii) : lower_char (lower_char c) = lower_char c.
Proof.
  destruct c as [[] [] [] [] [] [] [] []]; reflexivity.
Qed.

Lemma lower_char_whitespace (c : ascii) :
  is_whitespace (lower_char c) = is_whitespace c.
Proof.
  destruct c as [[] [] [] [] [] [] [] []]; reflexivity.
Qed.

Lemma toLowerCase_idem (s : string) : toLowerCase (toLowerCase s) = toLowerCase s.
Proof.
  induction s as [|c s IH]; simpl; [reflexivity|]. rewrite lower_char_idem, IH. reflexivity.
Qed.

Lemma toLowerCase_app (s t : string) :
  toLowerCase (s +:+ t) = toLowerCase s +:+ toLowerCase t.
Proof.
  induction s as [|c s IH]; simpl; [reflexivity|]. rewrite IH. reflexivity.
Qed.

Lemma toLowerCase_trimStart (s : string) :
  toLowerCase (trimStart s) = trimStart (toLowerCase s).
Proof.
  induction s as [|c s IH]; simpl; [reflexivity|].
  rewrite lower_char_whitespace. destruct (is_whitespace c); [exact IH | reflexivity].
Qed.

Lemma toLowerCase_trimEnd (s : string) :
  toLowerCase (trimEnd s) = trimEnd (toLowerCase s).
Proof.
  induction s as [|c s IH]; simpl; [reflexivity|].
  rewrite <- IH, lower_char_whitespace.
  destruct (trimEnd s); simpl; [destruct (is_whitespace c)|]; reflexivity.
Qed.

Lemma toLowerCase_trim (s : string) : toLowerCase (trim s) = trim (toLowerCase s).
Proof. unfold trim. rewrite toLowerCase_trimEnd, toLowerCase_trimStart. reflexivity. Qed.

Lemma trimEnd_cons_nonspace (c : ascii) (s : string) :
  is_whitespace c = false -> trimEnd (String c s) = String c (trimEnd s).
Proof.
  intros Hc. simpl. destruct (trimEnd s); [rewrite Hc|]; reflexivity.
Qed.

Lemma trimEnd_idem (s : string) : trimEnd (trimEnd s) = trimEnd s.
Proof.
  induction s as [|c s IH]; [reflexivity|].
  cbn [trimEnd]. destruct (trimEnd s) as [|d r] eqn:Hr.
  - destruct (is_whitespace c) eqn:Hc; [reflexivity|].
    simpl. rewrite Hc. reflexivity.
  - change (trimEnd (String c (String d r)) = String c (String d r)).
    cbn [trimEnd]. cbn [trimEnd] in IH. rewrite IH. reflexivity.
Qed.

Lemma trimStart_fixed (s : string) : trimStart (trimEnd (trimStart s)) = trimEnd (trimStart s).
Proof.
  induction s as [|c s IH]; [reflexivity|].
  simpl trimStart at 2 3. destruct (is_whitespace c) eqn:Hc; [exact IH|].
  rewrite trimEnd_cons_nonspace by exact Hc. simpl. rewrite Hc. reflexivity.
Qed.

Lemma trim_idem (s : string) : trim (trim s) = trim s.
Proof. unfold trim. rewrite trimStart_fixed, trimEnd_idem. reflexivity. Qed.

(** A product selected for a mention is an item of the catalog, and when
    the catalog has an item whose lowercased name is the mention, the
    product selected has that name, whatever items come before it. *)
Theorem matchOrderItemToProduct_member_exact (orderItem : OrderItem.t)
    (products : list Product.t) :
  (forall p, matchOrderItemToProduct orderItem products = Some p -> In p products)
  /\ (forall q,
        In q products ->
        toLowerCase (Product.name q) = trim (toLowerCase (OrderItem.item orderItem)) ->
        exists p,
          matchOrderItemToProduct orderItem products = Some p
          /\ toLowerCase (Product.name p) = trim (toLowerCase (OrderItem.item orderItem))).
Proof.
  unfold matchOrderItemToProduct. split.
  - intros p.
    destruct (find (exact_match _) products) as [e|] eqn:He;
      [intros [= <-]; apply find_some in He; tauto|].
    destruct (find (partial_match _) products) as [e|] eqn:Hp;
      [intros [= <-]; apply find_some in Hp; tauto|].
    intros Hw. apply find_some in Hw. tauto.
  - intros q Hq Hname.
    destruct (find (exact_match _) products) as [e|] eqn:He.
    + exists e. split; [reflexivity|]. apply find_some in He as [_ He].
      apply String.eqb_eq in He. exact He.
    + exfalso. apply find_None_all in He.
      pose proof (proj1 (List.Forall_forall _ _) He q Hq) as Hf.
      unfold exact_match in Hf. rewrite Hname, String.eqb_refl in Hf. discriminate.
Qed.

Lemma matchOrderItemToProduct_member_exact_witness :
  exists p,
    matchOrderItemToProduct (OrderItem.mk " LATTE " (JNumber (Num 0)) (Num 1))
      [iced_latte; vanilla_latte; latte] = Some p
    /\ toLowerCase (Product.name p) = "latte".
Proof.
  destruct (matchOrderItemToProduct_member_exact
              (OrderItem.mk " LATTE " (JNumber (Num 0)) (Num 1))
              [iced_latte; vanilla_latte; latte]) as [_ H].
  apply (H latte); [simpl; tauto | reflexivity].
Defined.

(** The product selected depends on the mention only through its name, and
    not on the case of the name or on white space around it. *)
Theorem matchOrderItemToProduct_case_padding (orderItem : OrderItem.t)
    (products : list Product.t) (price : JsVal) (quantity : JsNumber) :
  matchOrderItemToProduct
    (OrderItem.mk (toLowerCase (OrderItem.item orderItem)) price quantity) products
    = matchOrderItemToProduct orderItem products
  /\ matchOrderItemToProduct
       (OrderItem.mk (trim (OrderItem.item orderItem)) price quantity) products
     = matchOrderItemToProduct orderItem products.
Proof.
  unfold matchOrderItemToProduct. simpl.
  rewrite toLowerCase_idem, toLowerCase_trim, trim_idem. split; reflexivity.
Qed.

Lemma includes_empty (s : string) : includes s "" = true.
Proof. destruct s; reflexivity. Qed.

Lemma toLowerCase_empty (s : string) : toLowerCase s = "" -> s = "".
Proof. destruct s; [reflexivity | discriminate]. Qed.

(** A mention that is empty once trimmed selects the first item of a
    catalog whose items all have a name: the empty text is contained in
    every name. *)
Theorem matchOrderItemToProduct_blank_mention (orderItem : OrderItem.t)
    (first : Product.t) (rest : list Product.t) :
  trim (toLowerCase (OrderItem.item orderItem)) = "" ->
  Forall (fun p => Product.name p <> "") (first :: rest) ->
  matchOrderItemToProduct orderItem (first :: rest) = Some first.
Proof.
  intros Hblank Hnames. unfold matchOrderItemToProduct. rewrite Hblank.
  assert (He : find (exact_match "") (first :: rest) = None).
  { apply find_None_all. eapply List.Forall_impl; [|exact Hnames].
    intros p Hp. unfold exact_match. apply String.eqb_neq.
    intros H. apply Hp, toLowerCase_empty, H. }
  rewrite He. simpl. unfold partial_match. rewrite includes_empty. reflexivity.
Qed.

Lemma matchOrderItemToProduct_blank_mention_witness :
  matchOrderItemToProduct (OrderItem.mk "  " (JNumber (Num 0)) (Num 1)) [mocha; latte]
    = Some mocha.
Proof.
  apply matchOrderItemToProduct_blank_mention;
    [reflexivity | repeat constructor; discriminate].
Defined.

(** ** Completion phrases anywhere in a message *)

Lemma trimStart_suffix (s : string) : exists l, s = l +:+ trimStart s.
Proof.
  induction s as [|c s [l IH]]; [exists ""; reflexivity|].
  simpl. destruct (is_whitespace c).
  - exists (String c l). change (String c s = String c (l +:+ trimStart s)).
    f_equal. exact IH.
  - exists "". reflexivity.
Qed.

Lemma trimEnd_prefix (s : string) : exists r, s = trimEnd s +:+ r.
Proof.
  induction s as [|c s [r IH]]; [exists ""; reflexivity|].
  simpl. destruct (trimEnd s) as [|d t] eqn:Ht.
  - destruct (is_whitespace c).
    + exists (String c s). reflexivity.
    + exists s. reflexivity.
  - exists r. change (String c s = String c (String d t +:+ r)).
    f_equal. exact IH.
Qed.

Lemma includes_trim_inv (s p : string) :
  includes (trim s) p = true -> includes s p = true.
Proof.
  rewrite !includes_spec. intros (pre & post & H).
  destruct (trimStart_suffix s) as [l Hl].
  destruct (trimEnd_prefix (trimStart s)) as [r Hr].
  exists (l +:+ pre), (post +:+ r).
  rewrite Hl at 1. rewrite Hr at 1. fold (trim s). rewrite H.
  rewrite !append_assoc. reflexivity.
Qed.

Lemma trimStart_keeps (p : string) :
  first_char_nonspace p = true ->
  forall x y, exists x', trimStart (x +:+ p +:+ y) = x' +:+ p +:+ y.
Proof.
  intros Hp x y. induction x as [|c x [x' IH]].
  - exists "". destruct p as [|c p]; [discriminate|].
    simpl in *. apply negb_true_iff in Hp. rewrite Hp. reflexivity.
  - simpl. destruct (is_whitespace c).
    + exists x'. exact IH.
    + exists (String c x). reflexivity.
Qed.

Lemma trimEnd_cons_nonempty (c : ascii) (s : string) :
  trimEnd s <> "" -> trimEnd (String c s) = String c (trimEnd s).
Proof. intros H. simpl. destruct (trimEnd s); [congruence | reflexivity]. Qed.

Lemma trimEnd_keeps_phrase (p : string) :
  last_char_nonspace p = true ->
  forall y, exists y', trimEnd (p +:+ y) = p +:+ y'.
Proof.
  intros Hp y. induction p as [|c p IH]; [discriminate|].
  destruct p as [|d p].
  - simpl in Hp. apply negb_true_iff in Hp.
    exists (trimEnd y). apply trimEnd_cons_nonspace, Hp.
  - destruct (IH Hp) as [y' Hy']. exists y'.
    change (String c (String d p) +:+ y) with (String c (String d p +:+ y)).
    rewrite trimEnd_cons_nonempty; rewrite Hy'; [reflexivity | discriminate].
Qed.

Lemma trimEnd_keeps (p : string) :
  last_char_nonspace p = true ->
  forall x y, exists y', trimEnd (x +:+ p +:+ y) = x +:+ p +:+ y'.
Proof.
  intros Hp x y. destruct (trimEnd_keeps_phrase p Hp y) as [y' Hy'].
  exists y'. induction x as [|c x IH]; [exact Hy'|].
  change (String c x +:+ p +:+ y) with (String c (x +:+ p +:+ y)).
  rewrite trimEnd_cons_nonempty; rewrite IH; [reflexivity|].
  destruct x; destruct p; discriminate.
Qed.

Lemma includes_trim (s p : string) :
  first_char_nonspace p = true -> last_char_nonspace p = true ->
  includes s p = true -> includes (trim s) p = true.
Proof.
  intros Hf Hl. rewrite !includes_spec. intros (x & y & ->).
  destruct (trimStart_keeps p Hf x y) as [x' Hx].
  destruct (trimEnd_keeps p Hl x' y) as [y' Hy].
  exists x', y'. unfold trim. rewrite Hx, Hy. reflexivity.
Qed.

Lemma completionPhrases_edges :
  forallb (fun p => first_char_nonspace p && last_char_nonspace p) completionPhrases = true.
Proof. reflexivity. Qed.

(** A message that has a completion phrase keeps it when text is put
    before and after it, in any case of the letters: what surrounds the
    phrase (a negation, for instance) is not looked at. *)
Theorem isOrderCompletion_anywhere (message : string) :
  (isOrderCompletion message = true ->
   forall pre post, isOrderCompletion (pre +:+ message +:+ post) = true)
  /\ isOrderCompletion (toLowerCase message) = isOrderCompletion message.
Proof.
  split.
  - unfold isOrderCompletion. rewrite existsb_exists.
    intros (phrase & Hin & Hinc) pre post. apply existsb_exists.
    exists phrase. split; [exact Hin|].
    pose proof (proj1 (forallb_forall _ _) completionPhrases_edges phrase Hin) as He.
    apply andb_true_iff in He as [Hf Hl].
    apply includes_trim; [exact Hf | exact Hl|].
    apply includes_trim_inv in Hinc.
    apply includes_spec in Hinc as (x & y & H).
    apply includes_spec. rewrite !toLowerCase_app, H.
    exists (toLowerCase pre +:+ x), (y +:+ toLowerCase post).
    rewrite !append_assoc. reflexivity.
  - unfold isOrderCompletion. rewrite toLowerCase_idem. reflexivity.
Qed.

Lemma isOrderCompletion_anywhere_witness :
  isOrderCompletion ("Please do not " +:+ "Checkout" +:+ " yet, I want more") = true.
Proof.
  destruct (isOrderCompletion_anywhere "Checkout") as [H _].
  apply H. reflexivity.
Defined.

(** ** Reading the order of a response: first array, all or nothing *)

Lemma filter_valid_length (l : list Normalized) (items : list OrderItem.t) :
  filter_valid l = Some items -> (length items <= length l)%nat.
Proof.
  revert items. induction l as [|o rest IH]; simpl; intros items.
  - intros [= <-]. simpl. lia.
  - destruct (filter_valid rest) as [kept|];
      [|destruct (keep o) as [[]|]; [destruct (n_item o)| |]; discriminate].
    specialize (IH kept eq_refl).
    destruct (keep o) as [[]|]; [destruct (n_item o)| |];
      intros [= <-]; simpl; lia.
Qed.

Lemma filter_valid_throws (l : list Normalized) (o : Normalized) :
  In o l -> keep o = None -> filter_valid l = None.
Proof.
  induction l as [|x rest IH]; simpl; [tauto|].
  intros [-> | Hin] Hk.
  - rewrite Hk. reflexivity.
  - rewrite (IH Hin Hk). destruct (keep x) as [[]|]; [destruct (n_item x)| |]; reflexivity.
Qed.

Lemma normalize_null (ToNumber : JsVal -> JsNumber) (item : JsVal) :
  item = JNull \/ item = JUndefined -> normalize ToNumber item = None.
Proof. intros [-> | ->]; reflexivity. Qed.

(** When the first place, [output.memory.order], holds an array, the two
    other places are not read, even if that array is empty.  The items
    returned are at most as many as the array has entries, and one bad
    entry loses the whole order: a [null] or [undefined] entry, or an
    entry whose name is a truthy value that is not a string, gives the
    empty list. *)
Theorem extractOrderFromMemory_first_array (ToNumber : JsVal -> JsNumber)
    (responseData : JsVal) (entries : list JsVal) :
  responseData?."output"?."memory"?."order" = JArray entries ->
  extractOrderFromMemory ToNumber responseData
    = extractOrderFromMemory ToNumber
        (JObject [("memory", JObject [("order", JArray entries)])])
  /\ (length (extractOrderFromMemory ToNumber responseData) <= length entries)%nat
  /\ (In JNull entries \/ In JUndefined entries ->
      extractOrderFromMemory ToNumber responseData = [])
  /\ (forall entry n,
        In entry entries ->
        normalize ToNumber entry = Some n ->
        truthy (n_item n) = true ->
        (forall s, n_item n <> JString s) ->
        extractOrderFromMemory ToNumber responseData = []).
Proof.
  intros Hfirst.
  assert (Hraw : rawOrderItems responseData = entries).
  { unfold rawOrderItems. rewrite Hfirst. reflexivity. }
  unfold extractOrderFromMemory, extractOrderFromMemory_try. rewrite Hraw.
  split; [reflexivity|].
  destruct (mapM (normalize ToNumber) entries) as [ns|] eqn:Hm; simpl.
  - apply mapM_Some in Hm. split; [|split].
    + destruct (filter_valid ns) as [items|] eqn:Hf; [|simpl; lia].
      apply filter_valid_length in Hf. rewrite (Forall2_length _ _ _ Hm). exact Hf.
    + intros Hbad.
      assert (exists entry, In entry entries /\ normalize ToNumber entry = None)
        as (entry & Hin & Hnone).
      { destruct Hbad as [H | H]; eexists; (split; [exact H | reflexivity]). }
      exfalso. apply list_elem_of_In, list_elem_of_lookup in Hin as [i Hi].
      destruct (Forall2_lookup_l _ _ _ _ _ Hm Hi) as (y & _ & Hy). congruence.
    + intros entry n Hin Hn Ht Hs.
      apply list_elem_of_In, list_elem_of_lookup in Hin as [i Hi].
      destruct (Forall2_lookup_l _ _ _ _ _ Hm Hi) as (y & Hy & Hny).
      assert (y = n) as -> by congruence.
      rewrite (filter_valid_throws ns n); [reflexivity | |].
      * apply list_elem_of_In, list_elem_of_lookup. eauto.
      * unfold keep. rewrite Ht. destruct (n_item n); try reflexivity.
        exfalso. eapply Hs. reflexivity.
  - split; [simpl; lia | split; reflexivity].
Qed.

Lemma extractOrderFromMemory_first_array_witness :
  extractOrderFromMemory (fun _ => NaN)
    (JObject
       [("output", JObject [("memory", JObject [("order",
           JArray [JObject [("item", JString "Latte")]; JNull])])]);
        ("memory", JObject [("order", JArray [JObject [("item", JString "Mocha")]])])])
    = [].
Proof.
  destruct (extractOrderFromMemory_first_array (fun _ => NaN)
              (JObject
                 [("output", JObject [("memory", JObject [("order",
                     JArray [JObject [("item", JString "Latte")]; JNull])])]);
                  ("memory", JObject [("order",
                     JArray [JObject [("item", JString "Mocha")]])])])
              [JObject [("item", JString "Latte")]; JNull] eq_refl)
    as (_ & _ & H & _).
  apply H. left. simpl. tauto.
Defined.

(** ** Pages of the order history *)

Lemma take_min_length {A} (n : nat) (l : list A) :
  take (Nat.min n (length l)) l = take n l.
Proof.
  destruct (Nat.le_ge_cases n (length l)) as [H | H].
  - rewrite Nat.min_l by exact H. reflexivity.
  - rewrite Nat.min_r by exact H. rewrite !take_ge by lia. reflexivity.
Qed.

Lemma currentOrders_chunk {A} (orders : list A) (page : nat) :
  (1 <= page)%nat ->
  OrderHistory.currentOrders orders page = take 5 (drop (5 * (page - 1)) orders).
Proof.
  intros Hp. unfold OrderHistory.currentOrders, OrderHistory.slice, OrderHistory.ordersPerPage.
  cbv zeta.
  destruct (Z.of_nat page * Z.of_nat 5 - Z.of_nat 5 <? 0)%Z eqn:H1;
    [apply Z.ltb_lt in H1; lia|].
  destruct (Z.of_nat page * Z.of_nat 5 <? 0)%Z eqn:H2; [apply Z.ltb_lt in H2; lia|].
  destruct (Nat.le_gt_cases (length orders) (5 * (page - 1))) as [Hlen | Hlen].
  - rewrite (drop_ge orders (5 * (page - 1))) by exact Hlen.
    rewrite take_nil.
    replace (Z.to_nat (Z.min (Z.of_nat page * Z.of_nat 5 - Z.of_nat 5)
                             (Z.of_nat (length orders)))) with (length orders) by lia.
    rewrite drop_ge by lia. apply take_nil.
  - replace (Z.to_nat (Z.min (Z.of_nat page * Z.of_nat 5 - Z.of_nat 5)
                             (Z.of_nat (length orders)))) with (5 * (page - 1))%nat by lia.
    rewrite <- (take_min_length 5). rewrite length_drop. f_equal. lia.
Qed.

Lemma currentOrders_zero {A} (orders : list A) :
  OrderHistory.currentOrders orders 0 = [].
Proof.
  unfold OrderHistory.currentOrders, OrderHistory.slice, OrderHistory.ordersPerPage.
  cbv zeta. change (Z.of_nat 0 * Z.of_nat 5)%Z with 0%Z.
  change (0 - Z.of_nat 5 <? 0)%Z with true. change (0 <? 0)%Z with false. cbv iota.
  replace (Z.to_nat (Z.min 0 (Z.of_nat (length orders))
                     - Z.max (Z.of_nat (length orders) + (0 - Z.of_nat 5)) 0))
    with 0%nat by lia.
  apply take_0.
Qed.

Lemma totalPages_bounds {A} (orders : list A) :
  (length orders <= 5 * OrderHistory.totalPages orders)%nat
  /\ (5 * OrderHistory.totalPages orders < length orders + 5)%nat.
Proof.
  unfold OrderHistory.totalPages, OrderHistory.ordersPerPage.
  pose proof (Nat.div_mod_eq (length orders + (5 - 1)) 5) as H.
  pose proof (Nat.mod_upper_bound (length orders + (5 - 1)) 5 ltac:(lia)) as H'.
  lia.
Qed.

Lemma pages_prefix {A} (orders : list A) (k : nat) :
  concat (map (OrderHistory.currentOrders orders) (seq 1 k)) = take (5 * k) orders.
Proof.
  induction k as [|k IH]; [rewrite take_0; reflexivity|].
  rewrite seq_S, map_app, concat_app, IH. cbn [map concat]. rewrite app_nil_r.
  rewrite currentOrders_chunk by lia.
  replace (5 * (1 + k - 1))%nat with (5 * k)%nat by lia.
  rewrite take_take_drop. f_equal. lia.
Qed.

(** The pages 1 to [totalPages] of the order history hold every order
    once, in order: put one after the other they give the list of orders.
    A page has at most five orders, each of these pages has at least one,
    and page 0 and the pages after the last are empty. *)
Theorem order_pages_partition {A} (orders : list A) :
  concat (map (OrderHistory.currentOrders orders)
              (seq 1 (OrderHistory.totalPages orders))) = orders
  /\ (forall page, (length (OrderHistory.currentOrders orders page) <= 5)%nat)
  /\ (forall page,
        (1 <= page <= OrderHistory.totalPages orders)%nat ->
        OrderHistory.currentOrders orders page <> [])
  /\ (forall page,
        page = 0%nat \/ (OrderHistory.totalPages orders < page)%nat ->
        OrderHistory.currentOrders orders page = []).
Proof.
  pose proof (totalPages_bounds orders) as [Hlo Hhi].
  split; [|split; [|split]].
  - rewrite pages_prefix. apply take_ge. exact Hlo.
  - intros [|page]; [rewrite currentOrders_zero; simpl; lia|].
    rewrite currentOrders_chunk by lia. rewrite length_take. lia.
  - intros page Hp. rewrite currentOrders_chunk by lia.
    intros H. apply (f_equal length) in H.
    rewrite length_take, length_drop in H. cbn [length] in H. lia.
  - intros page [-> | Hp]; [apply currentOrders_zero|].
    rewrite currentOrders_chunk by lia. rewrite drop_ge by lia. apply take_nil.
Qed.

Lemma order_pages_partition_witness :
  OrderHistory.currentOrders [1; 2; 3; 4; 5; 6; 7]%nat 2 <> [].
Proof.
  destruct (order_pages_partition [1; 2; 3; 4; 5; 6; 7]%nat) as (_ & _ & H & _).
  apply H. vm_compute. lia.
Defined.

(** ** Unique products *)

Lemma findIndex_range {A} (test : A -> bool) (l : list A) :
  (-1 <= ProductsService.findIndex test l < Z.of_nat (length l))%Z.
Proof.
  induction l as [|x l IH]; simpl; [lia|].
  destruct (test x); [lia|].
  destruct (ProductsService.findIndex test l <? 0)%Z eqn:E;
    [lia | apply Z.ltb_ge in E; lia].
Qed.

Lemma findIndex_none {A} (test : A -> bool) (l : list A) :
  existsb test l = false -> ProductsService.findIndex test l = (-1)%Z.
Proof.
  induction l as [|x l IH]; simpl; [reflexivity|].
  destruct (test x); [discriminate|]. simpl. intros H. rewrite (IH H). reflexivity.
Qed.

Lemma findIndex_app {A} (test : A -> bool) (a b : list A) :
  ProductsService.findIndex test (a ++ b) =
    if existsb test a then ProductsService.findIndex test a
    else
      let i := ProductsService.findIndex test b in
      if (i <? 0)%Z then (-1)%Z else (Z.of_nat (length a) + i)%Z.
Proof.
  induction a as [|x a IH]; simpl.
  - destruct (ProductsService.findIndex test b <? 0)%Z eqn:E; [|reflexivity].
    pose proof (findIndex_range test b). apply Z.ltb_lt in E. lia.
  - destruct (test x); [reflexivity|]. simpl. rewrite IH.
    destruct (existsb test a); [reflexivity|]. cbv zeta.
    pose proof (findIndex_range test b).
    destruct (ProductsService.findIndex test b <? 0)%Z eqn:E; [reflexivity|].
    apply Z.ltb_ge in E.
    destruct (Z.of_nat (length a) + ProductsService.findIndex test b <? 0)%Z eqn:E';
      [apply Z.ltb_lt in E'; lia | lia].
Qed.

Lemma existsb_same_id (x : Product.t) (prefix : list Product.t) :
  existsb (fun p => String.eqb (Product.id p) (Product.id x)) prefix
    = existsb (String.eqb (Product.id x)) (map Product.id prefix).
Proof.
  induction prefix as [|y prefix IH]; simpl; [reflexivity|].
  rewrite IH, (String.eqb_sym (Product.id y)). reflexivity.
Qed.

(** The filter of [fetchProducts], started in the middle of the list. *)
Lemma filter_from_firsts (prefix suffix : list Product.t) :
  ProductsService.filter_from
    (fun product index =>
       (index =? ProductsService.findIndex
                   (fun p => String.eqb (Product.id p) (Product.id product))
                   (prefix ++ suffix))%Z)
    (Z.of_nat (length prefix)) suffix
  = firsts_after (map Product.id prefix) suffix.
Proof.
  revert prefix. induction suffix as [|x suffix IH]; intros prefix; [reflexivity|].
  cbn [ProductsService.filter_from firsts_after].
  replace (Z.of_nat (length prefix) + 1)%Z with (Z.of_nat (length (prefix ++ [x])))
    by (rewrite length_app; simpl; lia).
  specialize (IH (prefix ++ [x])). rewrite <- app_assoc in IH. simpl in IH.
  rewrite map_app in IH. simpl in IH. rewrite IH.
  rewrite findIndex_app, existsb_same_id. simpl. rewrite String.eqb_refl.
  destruct (existsb (String.eqb (Product.id x)) (map Product.id prefix)) eqn:E.
  - pose proof (findIndex_range
                  (fun p => String.eqb (Product.id p) (Product.id x)) prefix).
    destruct (_ =? _)%Z eqn:E'; [apply Z.eqb_eq in E'; lia | reflexivity].
  - simpl. rewrite Z.add_0_r, Z.eqb_refl. reflexivity.
Qed.

Lemma firsts_after_find (pid : string) (seen : list string) (l : list Product.t) :
  existsb (String.eqb pid) seen = false ->
  find (fun p => String.eqb (Product.id p) pid) (firsts_after seen l)
    = find (fun p => String.eqb (Product.id p) pid) l.
Proof.
  revert seen. induction l as [|x l IH]; intros seen Hseen; [reflexivity|].
  cbn [firsts_after find].
  destruct (String.eqb (Product.id x) pid) eqn:Hx.
  - apply String.eqb_eq in Hx. subst pid. rewrite Hseen. simpl.
    rewrite String.eqb_refl. reflexivity.
  - assert (Hnext : existsb (String.eqb pid) (seen ++ [Product.id x]) = false).
    { rewrite existsb_app, Hseen. simpl. rewrite String.eqb_sym, Hx. reflexivity. }
    destruct (existsb (String.eqb (Product.id x)) seen); simpl;
      [|rewrite Hx]; apply IH, Hnext.
Qed.

Lemma firsts_after_ids (seen : list string) (l : list Product.t) :
  List.NoDup (map Product.id (firsts_after seen l))
  /\ (forall pid, In pid (map Product.id (firsts_after seen l)) ->
        existsb (String.eqb pid) seen = false /\ In pid (map Product.id l)).
Proof.
  revert seen. induction l as [|x l IH]; intros seen; simpl.
  - split; [constructor | tauto].
  - destruct (IH (seen ++ [Product.id x])) as [Hnd Hin].
    assert (Hrest : forall pid,
               In pid (map Product.id (firsts_after (seen ++ [Product.id x]) l)) ->
               existsb (String.eqb pid) seen = false /\ pid <> Product.id x
               /\ In pid (map Product.id l)).
    { intros pid Hp. destruct (Hin pid Hp) as [He Hl].
      rewrite existsb_app in He. apply orb_false_iff in He as [He1 He2].
      simpl in He2. rewrite orb_false_r in He2. apply String.eqb_neq in He2. auto. }
    destruct (existsb (String.eqb (Product.id x)) seen) eqn:E; simpl.
    + split; [exact Hnd|]. intros pid Hp. destruct (Hrest pid Hp) as (? & ? & ?). auto.
    + split.
      * constructor; [|exact Hnd]. intros Hp. destruct (Hrest _ Hp) as (_ & Hne & _).
        congruence.
      * intros pid [<- | Hp]; [auto|]. destruct (Hrest pid Hp) as (? & ? & ?). auto.
Qed.

Lemma firsts_after_unique (seen : list string) (l : list Product.t) :
  List.NoDup (seen ++ map Product.id l) -> firsts_after seen l = l.
Proof.
  revert seen. induction l as [|x l IH]; intros seen Hnd; [reflexivity|].
  cbn [firsts_after]. simpl in Hnd.
  assert (E : existsb (String.eqb (Product.id x)) seen = false).
  { apply NoDup_remove_2 in Hnd.
    destruct (existsb (String.eqb (Product.id x)) seen) eqn:E; [|reflexivity].
    apply existsb_exists in E as (y & Hy & Heq). apply String.eqb_eq in Heq. subst y.
    exfalso. apply Hnd, in_or_app. left. exact Hy. }
  rewrite E. simpl. f_equal. apply IH.
  rewrite <- app_assoc. exact Hnd.
Qed.

(** The products that [fetchProducts] returns have distinct ids: for each
    id the first product that has it is kept and the later ones are
    dropped, so looking a product up by id gives the same answer before
    and after; a list whose ids are distinct already is returned as it
    is. *)
Theorem uniqueProducts_first_of_each_id (products : list Product.t) :
  List.NoDup (map Product.id (ProductsService.uniqueProducts products))
  /\ (forall pid,
        find (fun p => String.eqb (Product.id p) pid)
             (ProductsService.uniqueProducts products)
        = find (fun p => String.eqb (Product.id p) pid) products)
  /\ (List.NoDup (map Product.id products) ->
      ProductsService.uniqueProducts products = products).
Proof.
  unfold ProductsService.uniqueProducts.
  pose proof (filter_from_firsts [] products) as H.
  change (ProductsService.filter_from
            (fun product index =>
               (index =? ProductsService.findIndex
                           (fun p => String.eqb (Product.id p) (Product.id product))
                           products)%Z) 0%Z products = firsts_after [] products) in H.
  rewrite H.
  split; [apply firsts_after_ids|]. split.
  - intros pid. apply firsts_after_find. reflexivity.
  - intros Hnd. apply firsts_after_unique. exact Hnd.
Qed.

Lemma uniqueProducts_first_of_each_id_witness :
  ProductsService.uniqueProducts [latte; mocha] = [latte; mocha].
Proof.
  destruct (uniqueProducts_first_of_each_id [latte; mocha]) as (_ & _ & H).
  apply H. repeat constructor; simpl; intuition discriminate.
Defined.

Example uniqueProducts_sample :
  ProductsService.uniqueProducts
    [latte; mocha; Product.mk "p7" "Latte again" "" 9 "" "coffee"] = [latte; mocha].
Proof. reflexivity. Qed.

(** ** Polling: transport errors, the endpoint id, the time-out *)

Lemma poll_loop_skip (axios_get : string -> nat -> HttpResult) (url : string)
    (m p remaining attempt k : nat) :
  (k <= remaining)%nat ->
  (forall j, (j < k)%nat -> pending (axios_get url (attempt + j)) = true) ->
  let r := poll_loop axios_get url m p (remaining - k) (attempt + k) in
  poll_loop axios_get url m p remaining attempt =
    {| result := result r;
       requests := (k + requests r)%nat;
       waits := (k + waits r)%nat |}.
Proof.
  revert remaining attempt. induction k as [|k IH]; intros remaining attempt Hk Hp.
  - cbv zeta. rewrite Nat.sub_0_r, Nat.add_0_r.
    destruct (poll_loop axios_get url m p remaining attempt). reflexivity.
  - destruct remaining as [|remaining]; [lia|].
    rewrite poll_loop_pending_step
      by (replace attempt with (attempt + 0)%nat at 1 by lia; apply Hp; lia).
    cbv zeta. rewrite (IH remaining (S attempt)); [|lia|].
    + cbv zeta. simpl.
      replace (S (attempt + k)) with (attempt + S k)%nat by lia. reflexivity.
    + intros j Hj. replace (S attempt + j)%nat with (attempt + S j)%nat by lia.
      apply Hp. lia.
Qed.

(** A request that fails otherwise than with the HTTP error 404 ends the
    polling at once: the error is thrown again, no further request is
    sent, however many attempts are left. *)
Theorem pollJobStatus_transport_error (API_URL : string)
    (URL_pathname : string -> option string) (axios_get : string -> nat -> HttpResult)
    (jobId url : string) (maxAttempts pollInterval k : nat) (status : option Z) :
  statusUrl API_URL URL_pathname jobId = inr url ->
  (k < maxAttempts)%nat ->
  (forall j, (j < k)%nat -> pending (axios_get url j) = true) ->
  axios_get url k = Rejected status ->
  is_404 status = false ->
  let polled :=
    pollJobStatus API_URL URL_pathname axios_get jobId maxAttempts pollInterval in
  result polled = inl (RequestFailed status)
  /\ requests polled = S k
  /\ waits polled = k.
Proof.
  intros Hurl Hk Hp Hd H404. cbv zeta. unfold pollJobStatus. rewrite Hurl.
  rewrite (poll_loop_skip axios_get url maxAttempts pollInterval maxAttempts 0 k)
    by (auto; lia).
  cbv zeta. simpl.
  destruct (maxAttempts - k)%nat as [|n] eqn:Hn; [lia|].
  cbn [poll_loop]. rewrite Hd, H404. simpl. repeat split; lia.
Qed.

Lemma pollJobStatus_transport_error_witness :
  let polled :=
    pollJobStatus "/api/runpod/v2/7npr6mt7n0ulbp/runsync" (fun _ => None)
      server_down "job-1" default_maxAttempts default_pollInterval in
  result polled = inl (RequestFailed (Some 503%Z)) /\ requests polled = 2%nat
  /\ waits polled = 1%nat.
Proof.
  apply (pollJobStatus_transport_error "/api/runpod/v2/7npr6mt7n0ulbp/runsync"
           (fun _ => None) server_down "job-1"
           "/api/runpod/v2/7npr6mt7n0ulbp/status/job-1").
  - reflexivity.
  - unfold default_maxAttempts. lia.
  - intros j Hj. destruct j as [|j]; [reflexivity | lia].
  - reflexivity.
  - reflexivity.
Defined.

Lemma endpointId_split (parts : list string) (e : string) :
  endpointId parts = Some e <->
  exists before after, parts = before ++ "v2" :: e :: after /\ ~ In "v2" before.
Proof.
  induction parts as [|part rest IH]; simpl.
  - split; [discriminate | intros (before & after & H & _); destruct before; discriminate].
  - destruct (String.eqb part "v2") eqn:E.
    + apply String.eqb_eq in E. subst part. split.
      * destruct rest as [|e' rest]; [discriminate|]. intros [= ->].
        exists [], rest. simpl. tauto.
      * intros (before & after & H & Hb). destruct before as [|b before].
        -- simpl in H. injection H as H. subst rest. reflexivity.
        -- simpl in H. injection H as Hb' _. subst b.
           exfalso. apply Hb. left. reflexivity.
    + apply String.eqb_neq in E. rewrite IH. split.
      * intros (before & after & -> & Hb). exists (part :: before), after.
        split; [reflexivity|]. simpl. intros [H | H]; [congruence | tauto].
      * intros (before & after & H & Hb). destruct before as [|b before].
        -- simpl in H. injection H as H _. congruence.
        -- simpl in H. injection H as _ H. subst rest.
           exists before, after. split; [reflexivity|].
           intros Hin. apply Hb. right. exact Hin.
Qed.

Lemma poll_loop_timeout (axios_get : string -> nat -> HttpResult) (url : string)
    (m p remaining attempt m' p' : nat) :
  result (poll_loop axios_get url m p remaining attempt) = inl (DidNotComplete m' p') ->
  m' = m /\ p' = p
  /\ requests (poll_loop axios_get url m p remaining attempt) = remaining
  /\ waits (poll_loop axios_get url m p remaining attempt) = remaining
  /\ forall j, (j < remaining)%nat -> pending (axios_get url (attempt + j)) = true.
Proof.
  revert attempt. induction remaining as [|remaining IH]; intros attempt.
  - simpl. intros [= <- <-]. repeat split; intros; lia.
  - destruct (pending (axios_get url attempt)) eqn:Hp.
    + rewrite poll_loop_pending_step by exact Hp. cbv zeta. cbn [result requests waits].
      intros H. destruct (IH (S attempt) H) as (-> & -> & Hr & Hw & Hall).
      repeat split; try lia.
      intros [|j] Hj; [rewrite Nat.add_0_r; exact Hp|].
      replace (attempt + S j)%nat with (S attempt + j)%nat by lia. apply Hall. lia.
    + cbn [poll_loop]. unfold pending in Hp.
      destruct (axios_get url attempt) as [statusData | status].
      * destruct (get statusData "status"); [|discriminate].
        destruct (is_status statusData "COMPLETED"); [discriminate|].
        destruct (is_status statusData "FAILED"); [discriminate | discriminate].
      * rewrite Hp. discriminate.
Qed.

(** The endpoint id is the part of the URL path that follows the first
    part [v2]; without it [pollJobStatus] fails before it sends a request.
    The time-out error is thrown only after [maxAttempts] requests that all
    left the job pending, each followed by a pause: the pauses add up to
    the [maxAttempts * pollInterval] milliseconds of its message. *)
Theorem pollJobStatus_endpoint_and_timeout (API_URL : string)
    (URL_pathname : string -> option string) (axios_get : string -> nat -> HttpResult)
    (jobId : string) (maxAttempts pollInterval : nat) :
  let polled :=
    pollJobStatus API_URL URL_pathname axios_get jobId maxAttempts pollInterval in
  (forall parts e,
     endpointId parts = Some e <->
     exists before after, parts = before ++ "v2" :: e :: after /\ ~ In "v2" before)
  /\ (forall e,
        statusUrl API_URL URL_pathname jobId = inl e ->
        result polled = inl e /\ requests polled = 0%nat /\ waits polled = 0%nat)
  /\ (forall m p url,
        statusUrl API_URL URL_pathname jobId = inr url ->
        result polled = inl (DidNotComplete m p) ->
        m = maxAttempts /\ p = pollInterval
        /\ requests polled = maxAttempts /\ waits polled = maxAttempts
        /\ forall j, (j < maxAttempts)%nat -> pending (axios_get url j) = true).
Proof.
  cbv zeta. split; [exact endpointId_split|]. unfold pollJobStatus. split.
  - intros e ->. auto.
  - intros m p url ->. apply poll_loop_timeout.
Qed.

Lemma pollJobStatus_endpoint_and_timeout_witness :
  let polled :=
    pollJobStatus "/api/runpod/runsync" (fun _ => None) third_time "job-1"
      default_maxAttempts default_pollInterval in
  result polled = inl NoEndpointId /\ requests polled = 0%nat /\ waits polled = 0%nat.
Proof.
  cbv zeta.
  destruct (pollJobStatus_endpoint_and_timeout "/api/runpod/runsync" (fun _ => None)
              third_time "job-1" default_maxAttempts default_pollInterval)
    as (_ & H & _).
  apply H. reflexivity.
Defined.

(** ** The chat room: what a turn does to the cart and the conversation *)

Lemma cart_grows_refl (items : list CartItem.t) : cart_grows items items.
Proof. intros i line H. exists line. repeat split; [exact H | lia]. Qed.

Lemma cart_grows_trans (a b c : list CartItem.t) :
  cart_grows a b -> cart_grows b c -> cart_grows a c.
Proof.
  intros Hab Hbc i line H.
  destruct (Hab i line H) as (l1 & H1 & Hp1 & Hq1).
  destruct (Hbc i l1 H1) as (l2 & H2 & Hp2 & Hq2).
  exists l2. repeat split; [exact H2 | congruence | lia].
Qed.

Lemma addToCart_grows (product : Product.t) (quantity : Z) (items : list CartItem.t) :
  (0 <= quantity)%Z -> List.NoDup (product_ids items) ->
  cart_grows items (addToCart product quantity items).
Proof.
  intros Hq Hnd i line Hi. unfold addToCart.
  destruct (find _ items) as [existing|] eqn:Hf.
  - rewrite nth_error_map, Hi. simpl.
    destruct (same_product (Product.id product) line) eqn:Hs.
    + eexists. split; [reflexivity|]. simpl. split; [reflexivity|].
      assert (line = existing) as ->; [|lia].
      destruct (find_Some_split _ _ _ Hf) as (before & after & Hitems & He & _).
      apply (NoDup_ids_same_line items); auto.
      * apply (nth_error_In _ _ Hi).
      * rewrite Hitems. apply in_or_app. right. left. reflexivity.
      * apply same_product_eq in Hs, He. congruence.
    + exists line. repeat split; lia.
  - exists line. split; [|split; [reflexivity | lia]].
    rewrite nth_error_app1; [exact Hi|]. apply nth_error_Some. congruence.
Qed.

Lemma additions_cart (adds : list (Product.t * Z * string)) (cart : list CartItem.t) :
  Forall (fun a => (0 < a.1.2)%Z) adds ->
  List.NoDup (product_ids cart) ->
  List.NoDup (product_ids
                (foldl (fun cart a => addToCart a.1.1 a.1.2 cart) cart adds))
  /\ cart_grows cart (foldl (fun cart a => addToCart a.1.1 a.1.2 cart) cart adds).
Proof.
  intros Hadds. revert cart.
  induction Hadds as [|a adds Ha _ IH]; intros cart Hnd; simpl.
  - split; [exact Hnd | apply cart_grows_refl].
  - destruct (IH (addToCart a.1.1 a.1.2 cart)) as [H1 H2].
    + apply addToCart_NoDup, Hnd.
    + split; [exact H1|]. eapply cart_grows_trans; [|exact H2].
      apply addToCart_grows; [lia | exact Hnd].
Qed.

Lemma validQuantity_positive (q : JsNumber) : (0 < validQuantity q)%Z.
Proof.
  destruct q as [|z]; simpl; [lia|].
  destruct (0 <? z)%Z eqn:E; [apply Z.ltb_lt in E|]; lia.
Qed.

Lemma addition_positive (st : State) (orderItem : OrderItem.t)
    (a : Product.t * Z * string) :
  addition st orderItem = Some a -> (0 < a.1.2)%Z.
Proof.
  unfold addition.
  destruct (matchOrderItemToProduct orderItem (ChatRoom.products st)); [|discriminate].
  destruct (_ && _); [|discriminate].
  intros [= <-]. simpl. apply validQuantity_positive.
Qed.

Lemma omap_Forall {A B} (f : A -> option B) (P : B -> Prop) (l : list A) :
  (forall x y, f x = Some y -> P y) -> Forall P (omap f l).
Proof.
  intros H. induction l as [|x l IH]; simpl; [constructor|].
  destruct (f x) eqn:E; [constructor; eauto | exact IH].
Qed.

(** What [processOrdersFromMemory] keeps: the products and the
    conversation, one line per product in the cart, and every line of the
    cart, with a quantity that is not lower. *)
Lemma processOrdersFromMemory_cart (orderItems : list OrderItem.t) (st : State) :
  ChatRoom.products (processOrdersFromMemory orderItems st) = ChatRoom.products st
  /\ messages (processOrdersFromMemory orderItems st) = messages st
  /\ toasts (processOrdersFromMemory orderItems st) = toasts st
  /\ (List.NoDup (product_ids (cartItems st)) ->
      List.NoDup (product_ids (cartItems (processOrdersFromMemory orderItems st)))
      /\ cart_grows (cartItems st) (cartItems (processOrdersFromMemory orderItems st))).
Proof.
  unfold processOrdersFromMemory.
  destruct (hash_eqb _ _).
  - repeat split; auto. apply cart_grows_refl.
  - simpl. repeat split; auto;
      apply additions_cart; auto; apply omap_Forall; intros x y;
      apply addition_positive.
Qed.

Lemma handleOrders_cart (rnd : nat -> nat) (orderItems : list OrderItem.t)
    (content : string) (st : State) :
  let st' := snd (handleOrders rnd orderItems content st) in
  ChatRoom.products st' = ChatRoom.products st
  /\ messages st' = messages st
  /\ toasts st' = toasts st
  /\ (List.NoDup (product_ids (cartItems st)) ->
      List.NoDup (product_ids (cartItems st'))
      /\ cart_grows (cartItems st) (cartItems st')).
Proof.
  cbv zeta. rewrite handleOrders_state. destruct orderItems.
  - repeat split; auto. apply cart_grows_refl.
  - apply processOrdersFromMemory_cart.
Qed.

Lemma handleInformational_cart (rnd : nat -> nat) (message content : string)
    (st : State) :
  let st' := snd (handleInformational rnd message content st) in
  ChatRoom.products st' = ChatRoom.products st
  /\ messages st' = messages st
  /\ toasts st' = toasts st
  /\ (List.NoDup (product_ids (cartItems st)) ->
      List.NoDup (product_ids (cartItems st'))
      /\ cart_grows (cartItems st) (cartItems st')).
Proof.
  assert (Hsame : ChatRoom.products st = ChatRoom.products st
                  /\ messages st = messages st
                  /\ toasts st = toasts st
                  /\ (List.NoDup (product_ids (cartItems st)) ->
                      List.NoDup (product_ids (cartItems st))
                      /\ cart_grows (cartItems st) (cartItems st))).
  { repeat split; auto. apply cart_grows_refl. }
  cbv zeta. unfold handleInformational.
  destruct (isRecommendationQuery message); [exact Hsame|].
  destruct (isPriceQuery message).
  { destruct (extractProductNameFromQuery message (ChatRoom.products st)); exact Hsame. }
  destruct (_ || _); [|destruct (blank content); exact Hsame].
  destruct (extractProductNameFromQuery message (ChatRoom.products st)) as [product|];
    [|destruct (blank content); exact Hsame].
  destruct (_ && _); [|destruct (blank content); exact Hsame].
  simpl. repeat split; auto.
  - apply addToCart_NoDup. assumption.
  - apply addToCart_grows; [lia | assumption].
Qed.

(** A chat turn never loses what is in the cart: if the cart has one line
    per product before [handleSendMessage], it has one line per product
    after it, every line is still there, at its place and for its product,
    with a quantity that is not lower; and the list of products is the
    same. *)
Theorem handleSendMessage_cart (ToNumber : JsVal -> JsNumber)
    (messageText : option string) (callChatBotAPI : list Message -> ApiResult)
    (rnd : nat -> nat) (st : State) :
  List.NoDup (product_ids (cartItems st)) ->
  let st' := handleSendMessage ToNumber messageText callChatBotAPI rnd st in
  List.NoDup (product_ids (cartItems st'))
  /\ cart_grows (cartItems st) (cartItems st')
  /\ ChatRoom.products st' = ChatRoom.products st.
Proof.
  intros Hnd. cbv zeta. unfold handleSendMessage. cbv zeta.
  assert (Hsame : List.NoDup (product_ids (cartItems st))
                  /\ cart_grows (cartItems st) (cartItems st)
                  /\ ChatRoom.products st = ChatRoom.products st).
  { repeat split; auto. apply cart_grows_refl. }
  destruct (_ || _); [exact Hsame|].
  destruct (isOrderCompletion _); [destruct (cartItems st); exact Hsame|].
  destruct (callChatBotAPI _) as [err | answer fullResponse];
    [destruct (get err "response"); exact Hsame|].
  set (orderItems := if truthy fullResponse
                     then extractOrderFromMemory ToNumber fullResponse else []).
  pose proof (handleOrders_cart rnd orderItems (content answer) st) as Ho.
  destruct (handleOrders rnd orderItems (content answer) st) as [content1 st1].
  cbv zeta in Ho. simpl in Ho. destruct Ho as (Hp1 & _ & _ & Hc1).
  destruct (Hc1 Hnd) as [Hnd1 Hg1].
  destruct (blank content1 && _).
  - pose proof (handleInformational_cart rnd (messageToSend messageText st) content1 st1)
      as Hi.
    destruct (handleInformational rnd (messageToSend messageText st) content1 st1)
      as [content2 st2].
    cbv zeta in Hi. simpl in Hi. destruct Hi as (Hp2 & _ & _ & Hc2).
    destruct (Hc2 Hnd1) as [Hnd2 Hg2]. simpl.
    repeat split; [exact Hnd2 | eapply cart_grows_trans; eassumption | congruence].
  - simpl. repeat split; assumption.
Qed.

Lemma handleSendMessage_cart_witness :
  cartItems (handleSendMessage (fun _ => NaN) (Some "two lattes please")
               (fun _ => no_text (JObject [("memory", JObject [("order",
                  JArray [JObject [("item", JString "latte");
                                   ("quantity", JNumber (Num 2))]])])]))
               (fun _ => 0%nat) initial) = [CartItem.mk latte 2]
  /\ List.NoDup (product_ids [CartItem.mk latte 2]).
Proof.
  split; [reflexivity|].
  apply (handleSendMessage_cart (fun _ => NaN) (Some "two lattes please")
           (fun _ => no_text (JObject [("memory", JObject [("order",
              JArray [JObject [("item", JString "latte");
                               ("quantity", JNumber (Num 2))]])])]))
           (fun _ => 0%nat) initial).
  constructor.
Defined.

Lemma processOrdersFromMemory_modal (orderItems : list OrderItem.t) (st : State) :
  showPaymentModal (processOrdersFromMemory orderItems st) = showPaymentModal st.
Proof. unfold processOrdersFromMemory. destruct (hash_eqb _ _); reflexivity. Qed.

Lemma handleOrders_modal (rnd : nat -> nat) (orderItems : list OrderItem.t)
    (content : string) (st : State) :
  showPaymentModal (snd (handleOrders rnd orderItems content st)) = showPaymentModal st.
Proof.
  rewrite handleOrders_state. destruct orderItems; [reflexivity|].
  apply processOrdersFromMemory_modal.
Qed.

Lemma handleInformational_modal (rnd : nat -> nat) (message content : string)
    (st : State) :
  showPaymentModal (snd (handleInformational rnd message content st))
  = showPaymentModal st.
Proof.
  unfold handleInformational.
  destruct (isRecommendationQuery message); [reflexivity|].
  destruct (isPriceQuery message).
  { destruct (extractProductNameFromQuery message (ChatRoom.products st)); reflexivity. }
  destruct (_ || _); [|destruct (blank content); reflexivity].
  destruct (extractProductNameFromQuery message (ChatRoom.products st)) as [product|];
    [|destruct (blank content); reflexivity].
  destruct (_ && _); [|destruct (blank content); reflexivity].
  reflexivity.
Qed.

(** A turn of the conversation.  When there is something to send and no
    message is being sent: a completion phrase is answered without the
    chatbot (whatever the chatbot would say, the outcome is the same), it
    leaves the cart as it is, and it opens the payment dialog and records
    the user's message only when the cart has a line; with an empty cart
    the conversation is left as it was.  Any other message is added to
    the end of the conversation, followed by one reply: a reply with the
    role of the chatbot's answer when the chatbot answers, the fixed
    apology when its call throws, and nothing when what is thrown is
    [null] or [undefined].  Such a message leaves the payment dialog as
    it was and the chat room ready for the next message. *)
Theorem handleSendMessage_conversation (ToNumber : JsVal -> JsNumber)
    (messageText : option string) (callChatBotAPI : list Message -> ApiResult)
    (rnd : nat -> nat) (st : State) :
  messageToSend messageText st <> "" ->
  isSending st = false ->
  let message := messageToSend messageText st in
  let st' := handleSendMessage ToNumber messageText callChatBotAPI rnd st in
  if isOrderCompletion message
  then (forall callChatBotAPI' rnd',
           handleSendMessage ToNumber messageText callChatBotAPI' rnd' st = st')
       /\ cartItems st' = cartItems st
       /\ messages st'
          = (match cartItems st with
             | [] => messages st
             | _ => messages st ++ [userMessage message]
             end)
       /\ showPaymentModal st'
          = (match cartItems st with
             | [] => showPaymentModal st
             | _ => true
             end)
  else match callChatBotAPI (messages st ++ [userMessage message]) with
       | ApiThrows err =>
           messages st'
           = messages st ++ userMessage message
                            :: (if is_nullish err then [] else [errorResponse])
       | ApiReturns answer fullResponse =>
           exists reply,
             messages st' = messages st ++ [userMessage message; reply]
             /\ role reply = role answer
       end
       /\ showPaymentModal st' = showPaymentModal st
       /\ isSending st' = false
       /\ inputValue st' = "".
Proof.
  intros Hmsg Hsending. cbv zeta. unfold handleSendMessage. cbv zeta.
  apply String.eqb_neq in Hmsg. rewrite Hmsg, Hsending. cbn [orb].
  destruct (isOrderCompletion _).
  - destruct (cartItems st) eqn:Hcart; cbn; rewrite ?Hcart; repeat split; reflexivity.
  - destruct (callChatBotAPI _) as [err | answer fullResponse].
    + rewrite get_not_nullish. destruct (is_nullish err); cbn.
      * repeat split; reflexivity.
      * rewrite <- app_assoc. repeat split; reflexivity.
    + set (orderItems := if truthy fullResponse
                         then extractOrderFromMemory ToNumber fullResponse else []).
      pose proof (handleOrders_modal rnd orderItems (content answer) st) as Ho.
      destruct (handleOrders rnd orderItems (content answer) st) as [content1 st1].
      simpl in Ho.
      destruct (blank content1 && _).
      * pose proof (handleInformational_modal rnd (messageToSend messageText st)
                      content1 st1) as Hi.
        destruct (handleInformational rnd (messageToSend messageText st) content1 st1)
          as [content2 st2].
        simpl in Hi. cbn. split; [|repeat split; try reflexivity; congruence].
        exists (with_content answer content2).
        rewrite <- app_assoc. split; reflexivity.
      * cbn. split; [|repeat split; try reflexivity; congruence].
        exists (with_content answer content1).
        rewrite <- app_assoc. split; reflexivity.
Qed.

Lemma handleSendMessage_conversation_witness :
  messages (handleSendMessage (fun _ => NaN) (Some "Checkout") (fun _ => unknown_item_response)
              (fun _ => 0%nat) initial) = [].
Proof.
  pose proof (handleSendMessage_conversation (fun _ => NaN) (Some "Checkout")
                (fun _ => unknown_item_response) (fun _ => 0%nat) initial) as H.
  cbv zeta in H.
  assert (Hc : isOrderCompletion (messageToSend (Some "Checkout") initial) = true)
    by reflexivity.
  rewrite Hc in H.
  destruct H as (_ & _ & H & _); [discriminate | reflexivity | exact H].
Defined.

(** ** Orders whose quantity changes between two turns *)

Lemma validQuantity_Num (q : Z) : (0 < q)%Z -> validQuantity (Num q) = q.
Proof. intros H. simpl. apply Z.ltb_lt in H. rewrite H. reflexivity. Qed.

Lemma key_inj (prefix : string) (q1 q2 : Z) :
  prefix +:+ "-" +:+ pretty q1 = prefix +:+ "-" +:+ pretty q2 -> q1 = q2.
Proof.
  intros H. apply (inj (String.app prefix)) in H.
  apply (inj (String.app "-")) in H. apply (inj pretty) in H. exact H.
Qed.

(** The cart follows the order of the chatbot's memory only when items are
    new.  In an empty chat room, let the memory hold [q1] of an item that
    resolves to a product, and at the next turn [q2] of it, with [q1] and
    [q2] positive and different.  After [processOrdersFromMemory] has run
    on both, the cart has one line for the product; its quantity is
    [q1 + q2] when the quantity was raised, and still [q1] when it was
    lowered: in neither case the [q2] of the memory. *)
Theorem processOrdersFromMemory_quantity_change (st : State) (name : string)
    (price : JsVal) (q1 q2 : Z) (product : Product.t) :
  cartItems st = [] -> processedOrders st = ∅ -> lastOrderHashRef st = None ->
  (0 < q1)%Z -> (0 < q2)%Z -> q1 <> q2 ->
  matchOrderItemToProduct (OrderItem.mk name price (Num q1)) (ChatRoom.products st)
  = Some product ->
  cartItems (processOrdersFromMemory [OrderItem.mk name price (Num q2)]
               (processOrdersFromMemory [OrderItem.mk name price (Num q1)] st))
  = [CartItem.mk product (if (q1 <? q2)%Z then q1 + q2 else q1)%Z].
Proof.
  intros Hcart Hproc Hhash H1 H2 Hne Hmatch.
  assert (Hfirst : processOrdersFromMemory [OrderItem.mk name price (Num q1)] st
                   = apply_additions [(product, q1, productKey product q1)]
                       (set_hash (Some [OrderItem.mk name price (Num q1)]) st)).
  { unfold processOrdersFromMemory. rewrite Hhash. cbn [hash_eqb].
    unfold newItems, normalizedItems.
    cbn [map List.filter OrderItem.item OrderItem.price OrderItem.quantity].
    rewrite (validQuantity_Num q1 H1).
    rewrite bool_decide_eq_true_2 by set_solver.
    cbn [omap list_omap].
    unfold addition. rewrite Hmatch, Hcart, Hproc.
    cbn [OrderItem.quantity existsb negb andb].
    rewrite (validQuantity_Num q1 H1).
    rewrite bool_decide_eq_false_2 by set_solver. reflexivity. }
  rewrite Hfirst. clear Hfirst.
  unfold processOrdersFromMemory at 1.
  cbn [lastOrderHashRef apply_additions set_hash].
  unfold normalizedItems at 1.
  cbn [map OrderItem.item OrderItem.price OrderItem.quantity].
  rewrite (validQuantity_Num q2 H2).
  assert (Hdiff : hash_eqb (Some [OrderItem.mk name price (Num q2)])
                           (Some [OrderItem.mk name price (Num q1)]) = false).
  { cbn. apply andb_false_iff. left. apply andb_false_iff. right.
    apply Z.eqb_neq. congruence. }
  rewrite Hdiff. clear Hdiff.
  unfold newItems.
  cbn [map List.filter].
  rewrite bool_decide_eq_true_2.
  2:{ unfold orderItemKey. cbn [OrderItem.item OrderItem.quantity].
      rewrite (validQuantity_Num q1 H1), (validQuantity_Num q2 H2).
      intros Hin. apply Hne. symmetry.
      apply (key_inj (toLowerCase name)).
      apply elem_of_list_to_set, list_elem_of_singleton in Hin. exact Hin. }
  cbn [omap list_omap].
  unfold addition.
  cbn [ChatRoom.products apply_additions set_hash OrderItem.quantity
       cartItems processedOrders foldl].
  change (matchOrderItemToProduct (OrderItem.mk name price (Num q2)) (ChatRoom.products st))
    with (matchOrderItemToProduct (OrderItem.mk name price (Num q1)) (ChatRoom.products st)).
  rewrite Hmatch, Hcart, Hproc. rewrite (validQuantity_Num q2 H2).
  rewrite bool_decide_eq_false_2.
  2:{ unfold productKey. intros Hin. apply Hne. symmetry.
      apply (key_inj (Product.id product)).
      apply elem_of_union in Hin as [Hin | Hin];
        [apply elem_of_empty in Hin; destruct Hin|].
      apply elem_of_singleton in Hin. exact Hin. }
  cbn [negb andb addToCart find app existsb CartItem.product CartItem.quantity orb].
  unfold same_product at 1. cbn [CartItem.product].
  rewrite String.eqb_refl. cbn [andb fst snd orb].
  destruct (q1 <? q2)%Z eqn:Hlt.
  - apply Z.ltb_lt in Hlt.
    assert (Hle : (q2 <=? q1)%Z = false) by (apply Z.leb_gt; lia).
    rewrite Hle. cbn [negb orb foldl fst snd].
    unfold addToCart. cbn [find].
    unfold same_product. cbn [CartItem.product]. rewrite String.eqb_refl.
    cbn [map CartItem.product CartItem.quantity]. rewrite String.eqb_refl. reflexivity.
  - apply Z.ltb_ge in Hlt.
    assert (Hle : (q2 <=? q1)%Z = true) by (apply Z.leb_le; lia).
    rewrite Hle. reflexivity.
Qed.

Lemma processOrdersFromMemory_quantity_change_witness :
  cartItems (processOrdersFromMemory [OrderItem.mk "latte" JUndefined (Num 3)]
               (processOrdersFromMemory [OrderItem.mk "latte" JUndefined (Num 2)] initial))
  = [CartItem.mk latte 5].
Proof.
  apply (processOrdersFromMemory_quantity_change initial "latte" JUndefined 2 3 latte);
    first [reflexivity | lia].
Defined.

(** ** The call of the chatbot *)

Lemma lookup_set_same (k : string) (v : JsVal) (fields : list (string * JsVal)) :
  lookup_field k (set_field k v fields) = v.
Proof.
  induction fields as [|[k' v'] rest IH]; simpl.
  - rewrite String.eqb_refl. reflexivity.
  - destruct (String.eqb k' k) eqn:E; simpl; rewrite E; [reflexivity | exact IH].
Qed.

Lemma lookup_set_other (k k' : string) (v : JsVal) (fields : list (string * JsVal)) :
  k <> k' -> lookup_field k (set_field k' v fields) = lookup_field k fields.
Proof.
  intros Hk. induction fields as [|[k0 v0] rest IH]; simpl.
  - apply not_eq_sym, String.eqb_neq in Hk. rewrite Hk. reflexivity.
  - destruct (String.eqb k0 k') eqn:E; simpl.
    + apply String.eqb_eq in E. subst k0.
      apply not_eq_sym, String.eqb_neq in Hk. rewrite Hk. reflexivity.
    + rewrite IH. reflexivity.
Qed.

Lemma get_opt_set_same (k : string) (v : JsVal) (fields : list (string * JsVal)) :
  (set_prop k v (JObject fields))?.k = v.
Proof. apply lookup_set_same. Qed.

Lemma get_opt_set_other (k k' : string) (v object : JsVal) :
  k <> k' -> (set_prop k' v object)?.k = object?.k.
Proof. intros Hk. destruct object; try reflexivity. apply lookup_set_other, Hk. Qed.

Lemma get_opt_object (v : JsVal) (k : string) (fields : list (string * JsVal)) :
  v?.k = JObject fields -> exists own, v = JObject own.
Proof. destruct v; try discriminate. eauto. Qed.

Lemma truthy_property_object (v : JsVal) (k : string) :
  truthy (v?.k) = true -> exists own, v = JObject own.
Proof. destruct v; try discriminate. eauto. Qed.

(** The assignment to the content of the message at [p] changes nothing
    in the places where an order is looked for. *)
Lemma write_rawOrderItems (p : Place) (responseData content : JsVal)
    (fields : list (string * JsVal)) :
  read p responseData = JObject fields ->
  rawOrderItems (write p (set_prop "content" content (JObject fields)) responseData)
  = rawOrderItems responseData.
Proof.
  intros Hread. unfold rawOrderItems.
  destruct p; cbn [read write] in *.
  - destruct (get_opt_object _ _ _ Hread) as [own ->].
    rewrite get_opt_set_same, !(get_opt_set_other _ "output") by discriminate.
    rewrite (get_opt_set_other "memory" "content") by discriminate.
    rewrite Hread. reflexivity.
  - assert (exists own, responseData = JObject own) as [own ->]
      by (destruct responseData; try discriminate; eauto).
    destruct ((JObject own)?."output") as [| | | | |outputArray|] eqn:Hout;
      try discriminate.
    rewrite get_opt_set_same, !(get_opt_set_other _ "output") by discriminate.
    reflexivity.
  - subst responseData.
    rewrite !(get_opt_set_other _ "content") by discriminate. reflexivity.
  - destruct (get_opt_object _ _ _ Hread) as [own ->].
    rewrite get_opt_set_same, !(get_opt_set_other _ "data") by discriminate.
    rewrite (get_opt_set_other "memory" "content") by discriminate.
    rewrite Hread. reflexivity.
  - destruct (get_opt_object _ _ _ Hread) as [inner Hinner].
    destruct (get_opt_object _ _ _ Hinner) as [own ->].
    rewrite get_opt_set_same, !(get_opt_set_other _ "data") by discriminate.
    rewrite (get_opt_set_other "memory" "output") by discriminate.
    reflexivity.
Qed.

Lemma no_orders_no_items (responseData : JsVal) :
  hasOrdersInMemory responseData = false -> rawOrderItems responseData = [].
Proof.
  unfold hasOrdersInMemory, rawOrderItems. intros H.
  apply orb_false_iff in H as [H H3]. apply orb_false_iff in H as [H1 H2].
  destruct (responseData?."output"?."memory"?."order") as [| | | | |[|]|];
    try discriminate; try reflexivity;
    destruct (responseData?."memory"?."order") as [| | | | |[|]|];
    try discriminate; try reflexivity;
    destruct (responseData?."data"?."memory"?."order") as [| | | | |[|]|];
    try discriminate; reflexivity.
Qed.

Lemma extractOrderFromMemory_raw (ToNumber : JsVal -> JsNumber) (a b : JsVal) :
  rawOrderItems a = rawOrderItems b ->
  extractOrderFromMemory ToNumber a = extractOrderFromMemory ToNumber b.
Proof.
  intros H. unfold extractOrderFromMemory, extractOrderFromMemory_try.
  rewrite H. reflexivity.
Qed.

Section CallFacts.

Variable API_URL API_KEY : string.
Variable Conversation : Type.
Variable axios_post : Conversation -> JsVal + JsVal.
Variable poll : JsVal -> JsVal + JsVal.
Variable JSON_stringify : JsVal -> string.
Variable ToString : JsVal -> string.
Variable cannot_read : string -> string.
Variable not_a_function : string -> string.

Lemma respond_result (responseData message fullResponse : JsVal) :
  respond JSON_stringify not_a_function responseData = inr (message, fullResponse) ->
  truthy (message?."role") = true
  /\ (exists content,
         message?."content" = JString content
         /\ (trim content = "" ->
             content = "" \/ hasOrdersInMemory responseData = true))
  /\ rawOrderItems fullResponse = rawOrderItems responseData.
Proof.
  unfold respond. cbv zeta.
  destruct (place responseData) as [p|]; [|discriminate].
  destruct (truthy (read p responseData)); [|discriminate]. cbn [negb].
  destruct (truthy ((read p responseData)?."role")) eqn:Hrole; [|discriminate].
  cbn [negb orb].
  destruct (is_nullish _); [discriminate|].
  destruct ((read p responseData)?."content") as [| | | |content| |] eqn:Hcontent;
    try discriminate.
  destruct (truthy_property_object _ _ Hrole) as [fields Hread].
  destruct (String.eqb (trim content) "" && negb (hasOrdersInMemory responseData))
    eqn:Hblank.
  - intros [= <- <-]. rewrite Hread.
    rewrite (get_opt_set_other "role" "content") by discriminate.
    rewrite <- Hread, Hrole. rewrite Hread, get_opt_set_same.
    split; [reflexivity|]. split.
    + exists "". split; [reflexivity|]. intros _. left. reflexivity.
    + apply write_rawOrderItems, Hread.
  - intros [= <- <-]. split; [exact Hrole|]. split; [|reflexivity].
    exists content. split; [exact Hcontent|]. intros Htrim.
    rewrite Htrim in Hblank. cbn in Hblank. right.
    destruct (hasOrdersInMemory responseData); [reflexivity | discriminate].
Qed.

(** What [callChatBotAPI] returns.  The message has a role and a text;
    the text is blank only when it is empty or the response carries an
    order; and the full response is the response data (the body of the
    response, or the status data of the job that was polled) as far as
    [extractOrderFromMemory] reads it: the order items of the full
    response are those of the response data, and there is none when the
    response data has no order in its memory. *)
Theorem callChatBotAPI_message (messages : Conversation)
    (message fullResponse : JsVal) :
  callChatBotAPI API_URL API_KEY Conversation axios_post poll JSON_stringify
    ToString cannot_read not_a_function messages = inr (message, fullResponse) ->
  exists responseData,
    (axios_post messages = inr responseData
     \/ exists job, axios_post messages = inr job
                    /\ is_status job "IN_PROGRESS" = true
                    /\ poll (job?."id") = inr responseData)
    /\ truthy (message?."role") = true
    /\ (exists content,
           message?."content" = JString content
           /\ (trim content = "" ->
               content = "" \/ hasOrdersInMemory responseData = true))
    /\ forall ToNumber,
         extractOrderFromMemory ToNumber fullResponse
         = extractOrderFromMemory ToNumber responseData
         /\ (hasOrdersInMemory responseData = false ->
             extractOrderFromMemory ToNumber fullResponse = []).
Proof.
  unfold callChatBotAPI, callChatBotAPI_try.
  destruct (_ || _); [discriminate|].
  destruct (axios_post messages) as [error | body]; [discriminate|].
  destruct (get body "status"); [|discriminate].
  assert (Hend : forall responseData,
             respond JSON_stringify not_a_function responseData
             = inr (message, fullResponse) ->
             truthy (message?."role") = true
             /\ (exists content,
                    message?."content" = JString content
                    /\ (trim content = "" ->
                        content = "" \/ hasOrdersInMemory responseData = true))
             /\ forall ToNumber,
                  extractOrderFromMemory ToNumber fullResponse
                  = extractOrderFromMemory ToNumber responseData
                  /\ (hasOrdersInMemory responseData = false ->
                      extractOrderFromMemory ToNumber fullResponse = [])).
  { intros responseData H. apply respond_result in H as (Hr & Hc & Hraw).
    split; [exact Hr|]. split; [exact Hc|]. intros ToNumber. split.
    - apply extractOrderFromMemory_raw, Hraw.
    - intros Hno. unfold extractOrderFromMemory, extractOrderFromMemory_try.
      rewrite Hraw, (no_orders_no_items _ Hno). reflexivity. }
  destruct (is_status body "IN_PROGRESS") eqn:Hstatus; cbn [andb].
  - destruct (truthy (body?."id")).
    + destruct (poll (body?."id")) as [error | statusData] eqn:Hpoll; [discriminate|].
      destruct (respond _ _ statusData) as [error | result] eqn:Hrespond;
        [discriminate|].
      intros [= ->]. exists statusData. split; [|apply Hend, Hrespond].
      right. exists body. repeat split; assumption.
    + destruct (respond _ _ body) as [error | result] eqn:Hrespond; [discriminate|].
      intros [= ->]. exists body. split; [left; reflexivity | apply Hend, Hrespond].
  - destruct (respond _ _ body) as [error | result] eqn:Hrespond; [discriminate|].
    intros [= ->]. exists body. split; [left; reflexivity | apply Hend, Hrespond].
Qed.

(** Only a job that is in progress and has an id is polled.  The body of
    any other response is read as it is: a body with no [output], no
    [role] and no [data], such as the one of a job that is still in the
    queue, is refused as an invalid response, whatever the status
    endpoint would answer. *)
Theorem callChatBotAPI_polls_only_jobs_in_progress (messages : Conversation)
    (responseData : JsVal) :
  API_URL <> "" -> API_KEY <> "" ->
  axios_post messages = inr responseData ->
  is_nullish responseData = false ->
  is_status responseData "IN_PROGRESS" && truthy (responseData?."id") = false ->
  truthy (responseData?."output") = false ->
  truthy (responseData?."role") = false ->
  truthy (responseData?."data") = false ->
  callChatBotAPI API_URL API_KEY Conversation axios_post poll JSON_stringify
    ToString cannot_read not_a_function messages
  = inl (Error ("Invalid response format from API. Received: "
                +:+ JSON_stringify responseData)).
Proof.
  intros Hurl Hkey Hpost Hnull Hjob Hout Hrole Hdata.
  unfold callChatBotAPI, callChatBotAPI_try.
  apply String.eqb_neq in Hurl, Hkey. rewrite Hurl, Hkey, Hpost. cbn [orb].
  assert (Hget : get responseData "status" = Some (responseData?."status"))
    by (destruct responseData; try discriminate; reflexivity).
  rewrite Hget, Hjob. unfold respond, place.
  rewrite Hout, Hrole, Hdata. cbn [andb]. destruct (truthy responseData); reflexivity.
Qed.

Lemma friendly_no_response (error : JsVal) :
  (friendly ToString cannot_read error)?."response"?."data"?."error" = JUndefined.
Proof.
  unfold friendly. destruct (get error "code"); [|reflexivity].
  destruct (is_string _ _); [reflexivity|].
  destruct (truthy (error?."response")) eqn:Hresponse.
  - repeat match goal with |- context [if ?c then _ else _] => destruct c end;
      reflexivity.
  - destruct (truthy (error?."request")); [reflexivity|].
    destruct (error?."response") as [| |[]|[|z]|s| |]; try discriminate; reflexivity.
Qed.

Lemma friendly_not_nullish (error : JsVal) :
  is_nullish (friendly ToString cannot_read error) = false.
Proof.
  unfold friendly. destruct (get error "code") eqn:Hcode; [|reflexivity].
  repeat match goal with |- context [if ?c then _ else _] => destruct c end;
    try reflexivity.
  destruct error; try reflexivity; discriminate Hcode.
Qed.

End CallFacts.

Lemma callChatBotAPI_message_witness :
  truthy ((set_prop "content" (JString "")
             (JObject [("role", JString "assistant"); ("content", JString "  ")]))?."role")
  = true.
Proof.
  destruct (callChatBotAPI_message "/api/runpod/v2/7npr6mt7n0ulbp/runsync" "key" unit
              (fun _ => inr blank_answer) (fun _ => inl JUndefined)
              no_words no_words no_words no_words tt
              (set_prop "content" (JString "")
                 (JObject [("role", JString "assistant"); ("content", JString "  ")]))
              (JObject [("output", JObject [("role", JString "assistant");
                                            ("content", JString "")])])
              eq_refl)
    as (responseData & _ & Hrole & _).
  exact Hrole.
Defined.

Lemma callChatBotAPI_polls_only_jobs_in_progress_witness :
  callChatBotAPI "/api/runpod/v2/7npr6mt7n0ulbp/runsync" "key" unit
    (fun _ => inr queued) (fun _ => inr completed)
    no_words no_words no_words no_words tt
  = inl (Error "Invalid response format from API. Received: ").
Proof.
  apply (callChatBotAPI_polls_only_jobs_in_progress
           "/api/runpod/v2/7npr6mt7n0ulbp/runsync" "key" unit
           (fun _ => inr queued) (fun _ => inr completed)
           no_words no_words no_words no_words tt queued);
    first [discriminate | reflexivity].
Defined.

(** What the user is told when the call of the chatbot fails: the message
    of the error as [callChatBotAPI] throws it, in a toast.  The error
    that [callChatBotAPI] throws never carries a response, so the text
    that [handleSendMessage] looks for first, [error.response.data.error],
    is never there. *)
Theorem handleSendMessage_error_toast (API_URL API_KEY : string)
    (axios_post : list Message -> JsVal + JsVal) (poll : JsVal -> JsVal + JsVal)
    (JSON_stringify ToString : JsVal -> string)
    (cannot_read not_a_function : string -> string)
    (ToNumber : JsVal -> JsNumber) (messageText : option string)
    (chatbot : list Message -> ApiResult) (rnd : nat -> nat) (st : State)
    (error : JsVal) :
  reaches_api messageText st ->
  callChatBotAPI API_URL API_KEY (list Message) axios_post poll JSON_stringify
    ToString cannot_read not_a_function
    (messages st ++ [userMessage (messageToSend messageText st)]) = inl error ->
  chatbot (messages st ++ [userMessage (messageToSend messageText st)])
  = ApiThrows error ->
  error?."response"?."data"?."error" = JUndefined
  /\ toasts (handleSendMessage ToNumber messageText chatbot rnd st)
     = toasts st ++ [or_else (error?."message") (JString "Error sending message")].
Proof.
  intros Hr Hcall Hchat.
  assert (Hno : error?."response"?."data"?."error" = JUndefined).
  { unfold callChatBotAPI in Hcall.
    destruct (callChatBotAPI_try _ _ _ _ _ _ _ _ _) as [thrown|]; [|discriminate].
    injection Hcall as <-. apply friendly_no_response. }
  assert (Hthrown : is_nullish error = false).
  { unfold callChatBotAPI in Hcall.
    destruct (callChatBotAPI_try _ _ _ _ _ _ _ _ _) as [thrown|]; [|discriminate].
    injection Hcall as <-. apply friendly_not_nullish. }
  split; [exact Hno|].
  apply reaches_api_tests in Hr as [H1 H2].
  unfold handleSendMessage. cbv zeta.
  rewrite H1, H2, Hchat, get_not_nullish, Hthrown.
  cbn [toasts]. rewrite Hno. reflexivity.
Qed.

Lemma handleSendMessage_error_toast_witness :
  toasts (handleSendMessage (fun _ => NaN) (Some "hello")
            (fun _ => ApiThrows (Error "Authentication failed. Please check your API key."))
            (fun _ => 0%nat) initial)
  = [JString "Authentication failed. Please check your API key."].
Proof.
  apply (handleSendMessage_error_toast "/api/runpod/v2/7npr6mt7n0ulbp/runsync" "key"
           (fun _ => inl unauthorized) (fun _ => inl JUndefined)
           no_words no_words no_words no_words
           (fun _ => NaN) (Some "hello")
           (fun _ => ApiThrows (Error "Authentication failed. Please check your API key."))
           (fun _ => 0%nat) initial
           (Error "Authentication failed. Please check your API key."));
    [split; [vm_compute; discriminate | split; reflexivity] | reflexivity | reflexivity].
Defined.

(** ** Payment *)

Lemma fold_left_order_lines (items : list CartItem.t) (f : CartItem.t -> Order.Line)
    (acc : Z) :
  (forall item,
      Order.price (f item) = Product.price (CartItem.product item)
      /\ Order.quantity (f item) = CartItem.quantity item) ->
  fold_left (fun total line => (total + Order.price line * Order.quantity line)%Z)
            (map f items) acc
  = fold_left (fun total item =>
                 (total + Product.price (CartItem.product item) * CartItem.quantity item)%Z)
              items acc.
Proof.
  intros Hf. revert acc. induction items as [|item items IH]; intros acc; simpl.
  - reflexivity.
  - destruct (Hf item) as [-> ->]. apply IH.
Qed.

(** The order that is written to the database agrees with the cart it is
    made from: it has the lines of the cart, in order, and its total is
    the sum over its own lines of price times quantity. *)
Theorem orderData_total_is_sum_of_lines (currentUser : option User.t) (now : string)
    (st : State) :
  let order := orderData currentUser now st in
  map Order.productId (Order.items order) = product_ids (cartItems st)
  /\ map Order.quantity (Order.items order) = map CartItem.quantity (cartItems st)
  /\ Order.total order
     = fold_left (fun total line => (total + Order.price line * Order.quantity line)%Z)
                 (Order.items order) 0%Z.
Proof.
  cbv zeta. unfold orderData. cbn [Order.items Order.total].
  split; [|split].
  - unfold product_ids. rewrite map_map. reflexivity.
  - rewrite map_map. reflexivity.
  - unfold getTotalPrice. symmetry. apply fold_left_order_lines.
    intros item. split; reflexivity.
Qed.

Lemma successMessages_not_blank (totalText : Z -> string) (total : Z) :
  Forall (fun s => blank s = false) (successMessages totalText total).
Proof. unfold successMessages. not_blank_list. Qed.

(** After a payment that succeeds the chat room starts afresh: the cart
    is empty, the payment dialog is closed, one message of the assistant,
    not blank, is added to the conversation, and what was recorded of the
    processed orders is forgotten.  So an order item that resolves to a
    product is put in the cart when it comes again in the memory of a
    response, also when it is an item of the order just paid. *)
Theorem handlePaymentSuccess_starts_afresh (currentUser : option User.t) (now : string)
    (push : Order.t -> bool) (totalText : Z -> string) (rnd : nat -> nat)
    (st : State) :
  cartItems st <> [] ->
  push (orderData currentUser now st) = true ->
  let st' := handlePaymentSuccess currentUser now push totalText rnd st in
  cartItems st' = []
  /\ showPaymentModal st' = false
  /\ processedOrders st' = ∅
  /\ lastOrderHashRef st' = None
  /\ (exists reply,
         messages st' = messages st ++ [reply]
         /\ role reply = "assistant"
         /\ blank (content reply) = false)
  /\ forall orderItem product,
       matchOrderItemToProduct orderItem (ChatRoom.products st) = Some product ->
       cartItems (processOrdersFromMemory [orderItem] st')
       = [CartItem.mk product (validQuantity (OrderItem.quantity orderItem))].
Proof.
  intros Hcart Hpush. cbv zeta. unfold handlePaymentSuccess, handlePlaceOrder.
  destruct (cartItems st) as [|line rest] eqn:Hlines; [congruence|].
  rewrite Hpush. cbn [messages cartItems showPaymentModal processedOrders
                      lastOrderHashRef clearCart].
  repeat split.
  - eexists. split; [reflexivity|]. split; [reflexivity|]. cbn [content].
    apply (choose_Forall (fun s => blank s = false));
      [discriminate | apply successMessages_not_blank].
  - intros orderItem product Hmatch.
    unfold processOrdersFromMemory. cbn [lastOrderHashRef hash_eqb].
    unfold newItems. cbn [map List.filter].
    rewrite bool_decide_eq_true_2 by set_solver.
    cbn [omap list_omap]. unfold addition.
    cbn [ChatRoom.products cartItems processedOrders existsb].
    rewrite Hmatch. rewrite bool_decide_eq_false_2 by set_solver.
    reflexivity.
Qed.

Lemma handlePaymentSuccess_starts_afresh_witness :
  cartItems
    (processOrdersFromMemory two_lattes
       (handlePaymentSuccess None "2024-01-01T00:00:00.000Z" (fun _ => true) toFixed2
          (fun _ => 0%nat)
          (processOrdersFromMemory two_lattes initial)))
  = [CartItem.mk latte 2].
Proof.
  destruct (handlePaymentSuccess_starts_afresh None "2024-01-01T00:00:00.000Z"
              (fun _ => true) toFixed2 (fun _ => 0%nat)
              (processOrdersFromMemory two_lattes initial))
    as (_ & _ & _ & _ & _ & Hagain); [discriminate | reflexivity |].
  apply (Hagain (OrderItem.mk "latte" (JNumber (Num 0)) (Num 2)) latte).
  reflexivity.
Defined.

(** A payment whose order is not written (the cart is empty, or the
    database refuses the order) closes the payment dialog and leaves the
    cart, the conversation and the record of the processed orders as they
    were; with an empty cart nothing is written at all. *)
Theorem handlePaymentSuccess_keeps_cart_on_failure (currentUser : option User.t)
    (now : string) (push : Order.t -> bool) (totalText : Z -> string)
    (rnd : nat -> nat) (st : State) :
  cartItems st = [] \/ push (orderData currentUser now st) = false ->
  let st' := handlePaymentSuccess currentUser now push totalText rnd st in
  cartItems st' = cartItems st
  /\ messages st' = messages st
  /\ processedOrders st' = processedOrders st
  /\ lastOrderHashRef st' = lastOrderHashRef st
  /\ showPaymentModal st' = false
  /\ (cartItems st = [] ->
      forall push', handlePaymentSuccess currentUser now push' totalText rnd st = st').
Proof.
  intros H. cbv zeta. unfold handlePaymentSuccess, handlePlaceOrder.
  destruct (cartItems st) as [|line rest] eqn:Hlines.
  - cbn. rewrite ?Hlines. repeat split; reflexivity.
  - destruct H as [H | H]; [discriminate|]. rewrite H. cbn. rewrite ?Hlines.
    repeat split; try reflexivity. discriminate.
Qed.

Lemma handlePaymentSuccess_keeps_cart_on_failure_witness :
  cartItems (handlePaymentSuccess None "2024-01-01T00:00:00.000Z" (fun _ => false)
               toFixed2 (fun _ => 0%nat) (processOrdersFromMemory two_lattes initial))
  = [CartItem.mk latte 2].
Proof.
  destruct (handlePaymentSuccess_keeps_cart_on_failure None "2024-01-01T00:00:00.000Z"
              (fun _ => false) toFixed2 (fun _ => 0%nat)
              (processOrdersFromMemory two_lattes initial))
    as (Hcart & _); [right; reflexivity|].
  rewrite Hcart. reflexivity.
Defined.

(** ** From the configured URL to the status endpoint *)

Lemma rev_app_append (s acc : string) :
  String.rev_app s acc = String.rev_app s "" +:+ acc.
Proof.
  revert acc. induction s as [|a s IH]; intros acc; [reflexivity|].
  cbn [String.rev_app]. rewrite (IH (String a acc)), (IH (String a "")).
  rewrite append_assoc. reflexivity.
Qed.

Lemma rev_String (c : ascii) (s : string) :
  String.rev (String c s) = String.rev s +:+ String c "".
Proof. unfold String.rev. cbn [String.rev_app]. apply rev_app_append. Qed.

Lemma split_char_from_piece (sep : ascii) (piece cur rest : string) :
  includes piece (String sep "") = false ->
  split_char_from sep cur (piece +:+ String sep rest)
  = (String.rev cur +:+ piece) :: split_char_from sep "" rest.
Proof.
  revert cur. induction piece as [|c piece IH]; intros cur Hfree.
  - change ("" +:+ String sep rest) with (String sep rest). cbn [split_char_from].
    rewrite Ascii.eqb_refl, append_empty_r. reflexivity.
  - change (String c piece +:+ String sep rest)
      with (String c (piece +:+ String sep rest)).
    cbn [includes startsWith] in Hfree.
    apply orb_false_iff in Hfree as [Hc Hfree].
    rewrite andb_true_r, Ascii.eqb_sym in Hc.
    cbn [split_char_from]. rewrite Hc, (IH _ Hfree). f_equal.
    rewrite rev_String, append_assoc. reflexivity.
Qed.

Lemma split_char_from_last (sep : ascii) (piece cur : string) :
  includes piece (String sep "") = false ->
  split_char_from sep cur piece = [String.rev cur +:+ piece].
Proof.
  revert cur. induction piece as [|c piece IH]; intros cur Hfree.
  - cbn [split_char_from]. rewrite append_empty_r. reflexivity.
  - cbn [includes startsWith] in Hfree.
    apply orb_false_iff in Hfree as [Hc Hfree].
    rewrite andb_true_r, Ascii.eqb_sym in Hc.
    cbn [split_char_from]. rewrite Hc, (IH _ Hfree). f_equal.
    rewrite rev_String, append_assoc. reflexivity.
Qed.

(** The URL of a RunPod endpoint, [https://api.runpod.ai/v2/<id>/runsync],
    is configured as a path of the proxy, and a job of that endpoint is
    polled at [/api/runpod/v2/<id>/status/<job>], without the URL being
    parsed again. *)
Theorem runpod_url_polled_through_proxy (URL_pathname : string -> option string)
    (URL_search : string -> string) (rawApiUrl id : string) :
  includes rawApiUrl "api.runpod.ai" = true ->
  URL_pathname rawApiUrl = Some ("/v2/" +:+ id +:+ "/runsync") ->
  URL_search rawApiUrl = "" ->
  includes id "/" = false ->
  exists url,
    RunpodConfigs.API_URL URL_pathname URL_search rawApiUrl = Some url
    /\ forall parse jobId,
         statusUrl url parse jobId
         = inr ("/api/runpod/v2/" +:+ id +:+ "/status/" +:+ jobId).
Proof.
  intros Hraw Hpath Hsearch Hid.
  exists ("/api/runpod" +:+ "/v2/" +:+ id +:+ "/runsync").
  split.
  - unfold RunpodConfigs.API_URL. rewrite Hraw, Hpath, Hsearch, append_empty_r.
    destruct rawApiUrl; [discriminate Hraw | reflexivity].
  - intros parse jobId. unfold statusUrl.
    assert (Hstart : startsWith ("/api/runpod" +:+ "/v2/" +:+ id +:+ "/runsync")
                                "/api/runpod" = true)
      by (apply startsWith_spec; eexists; reflexivity).
    rewrite Hstart.
    assert (Hparts : split_char "/" ("/api/runpod" +:+ "/v2/" +:+ id +:+ "/runsync")
                     = [""; "api"; "runpod"; "v2"; id; "runsync"]).
    { unfold split_char.
      change ("/api/runpod" +:+ "/v2/" +:+ id +:+ "/runsync")
        with ("" +:+ String "/" ("api" +:+ String "/" ("runpod" +:+ String "/"
                ("v2" +:+ String "/" (id +:+ String "/" "runsync"))))).
      rewrite !split_char_from_piece by first [exact Hid | reflexivity].
      rewrite split_char_from_last by reflexivity. reflexivity. }
    rewrite Hparts. reflexivity.
Qed.

Lemma runpod_url_polled_through_proxy_witness :
  exists url,
    RunpodConfigs.API_URL
      (fun _ => Some ("/v2/" +:+ "7npr6mt7n0ulbp" +:+ "/runsync")) (fun _ => "")
      "https://api.runpod.ai/v2/7npr6mt7n0ulbp/runsync" = Some url
    /\ forall parse jobId,
         statusUrl url parse jobId
         = inr ("/api/runpod/v2/" +:+ "7npr6mt7n0ulbp" +:+ "/status/" +:+ jobId).
Proof.
  apply (runpod_url_polled_through_proxy
           (fun _ => Some ("/v2/" +:+ "7npr6mt7n0ulbp" +:+ "/runsync")) (fun _ => "")
           "https://api.runpod.ai/v2/7npr6mt7n0ulbp/runsync" "7npr6mt7n0ulbp");
    reflexivity.
Defined.
